(** * pedalboard: audio file streams (src/pedalboard/io/AudioFile.h)

    A shallow embedding of [ReadableAudioFile], [determineQualityOptionIndex],
    [WriteableAudioFile] with its constructor, and the listing of the
    supported formats, followed by the properties of the reader and writer
    streams that hold of it, and by the inputs at which a stated property
    fails.

    Conventions.
    - C++ integers are [Z]; every narrowing conversion the source performs
      ([long long] to [int], [ssize_t] to [unsigned int], ...) is written out
      with [Cpp.to_int], [Cpp.to_unsigned], ...
    - [float] is IEEE binary32, computed with the Standard Library's
      [SpecFloat] at precision 24; [double] is binary64.
    - A C++ call either returns, throws, or has no defined behaviour:
      [outcome].  A member function of a stream is a function from the
      object's state to an outcome and the state it leaves behind.
    - The codec backend (JUCE) and NumPy are outside the repository: what they
      deliver is a field of the reader/writer record (an oracle), so every
      theorem holds for every backend. *)

From Stdlib Require Import ZArith List String Ascii Bool Lia.
From Stdlib Require Import Floats.SpecFloat.
From Stdlib Require Import DecimalString Orders.
From Stdlib Require Import Sorting.Mergesort Sorting.Sorted Sorting.Permutation.
Import ListNotations.
Local Open Scope Z_scope.

(* ===================================================================== *)
(** * Machine integers *)
(* ===================================================================== *)

Module Cpp.

(** Conversion to a signed two's-complement type of [w] bits. *)
Definition to_signed (w : Z) (z : Z) : Z :=
  (z + 2 ^ (w - 1)) mod 2 ^ w - 2 ^ (w - 1).

(** Conversion to an unsigned type of [w] bits. *)
Definition to_unsigned_bits (w : Z) (z : Z) : Z := z mod 2 ^ w.

Definition to_char : Z -> Z := to_signed 8.
Definition to_short : Z -> Z := to_signed 16.
Definition to_int : Z -> Z := to_signed 32.
Definition to_unsigned : Z -> Z := to_unsigned_bits 32.
Definition to_size_t : Z -> Z := to_unsigned_bits 64.

Definition INT_MAX : Z := 2 ^ 31 - 1.
Definition INT_MIN : Z := - 2 ^ 31.
Definition UINT_MAX : Z := 2 ^ 32 - 1.

Definition is_int (z : Z) : Prop := INT_MIN <= z <= INT_MAX.
Definition is_unsigned (z : Z) : Prop := 0 <= z <= UINT_MAX.
Definition is_long_long (z : Z) : Prop := - 2 ^ 63 <= z < 2 ^ 63.

End Cpp.

(* ===================================================================== *)
(** * Single and double precision *)
(* ===================================================================== *)

Module Float32.

Definition prec : Z := 24.
Definition emax : Z := 128.

Definition t : Type := spec_float.

Definition zero : t := S754_zero false.
Definition one : t := SFone prec emax.

(** [static_cast<float>(z)] and the [(float) src[i]] of
    [convertFixedToFloat]: round to nearest, ties to even. *)
Definition of_int (z : Z) : t := binary_normalize prec emax z 0 false.

Definition mul : t -> t -> t := SFmul prec emax.
Definition div : t -> t -> t := SFdiv prec emax.

(** Narrowing a [double] to a [float]. *)
Definition of_double (d : spec_float) : t :=
  match d with
  | S754_finite s m e => binary_normalize prec emax (cond_Zopp s (Zpos m)) e s
  | _ => d
  end.

End Float32.

Module Float64.

Definition prec : Z := 53.
Definition emax : Z := 1024.

Definition t : Type := spec_float.

Definition of_int (z : Z) : t := binary_normalize prec emax z 0 false.
Definition div : t -> t -> t := SFdiv prec emax.

End Float64.

(** [juce::FloatVectorOperations::convertFixedToFloat (dest, src, multiplier,
    n)], one element: [dest[i] = (float) src[i] * multiplier]. *)
Definition convertFixedToFloat (multiplier : Float32.t) (src : Z) : Float32.t :=
  Float32.mul (Float32.of_int src) multiplier.

(* ===================================================================== *)
(** * Exceptions and outcomes *)
(* ===================================================================== *)

(** One constructor per [throw] of the source (the text of the message is
    the constructor's name; the values printed into it are its arguments). *)
Inductive message : Type :=
  (* ReadableAudioFile *)
  | FileDoesNotExist
  | NotKnownFormatMp3Hint      (* "... (If trying to open an MP3 file, ensure
                                  the filename ends with '.mp3'.)" *)
  | NotKnownFormat
  | WillNotReadEntireFile      (* numSamples == 0 *)
  | ClosedFile                 (* "I/O operation on a closed file." *)
  | FailedToRead
  | NotSureHowToConvert (bitsPerSample : Z)
  | NotSureHowToRead (bitsPerSample : Z)
  | ReadIntegerOnFloatingPointFile
  | OutputNotWideEnough (bitsPerSample : Z)
  | SeekBeyondEnd (lengthInSamples : Z)
  | SeekBeforeStart
  | NegativeDimensions         (* raised by NumPy when an array is created *)
  (* determineQualityOptionIndex *)
  | QualityNotAccepted (qualityString : string)
  | UnableToParseQuality (qualityString : string)
  (* WriteableAudioFile *)
  | BothDimensionsSame
  | UnexpectedShape
  | BadNumberOfDimensions (ndim : Z)
  | ChannelCountMismatch (numChannels : Z)
  | UnableToWriteData
  | UnexpectedChannelLayout
  | UnableToFlush
  | CannotCloseClosedFile
  | FromChannelLayoutDetection. (* thrown inside detectChannelLayout *)

(** The C++ class of the thrown object; pybind11 turns [domain_error] into
    Python's ValueError and [runtime_error] into RuntimeError. *)
Inductive exception : Type :=
  | domain_error (m : message)
  | runtime_error (m : message)
  | error_already_set (m : message).

Inductive outcome (A : Type) : Type :=
  | Returns (a : A)
  | Throws (e : exception)
  | Undefined.                 (* the C++ standard gives the run no meaning *)

Arguments Returns {A} a.
Arguments Throws {A} e.
Arguments Undefined {A}.

Definition returns {A} (o : outcome A) : bool :=
  match o with Returns _ => true | _ => false end.

Definition throws {A} (o : outcome A) : bool :=
  match o with Throws _ => true | _ => false end.

(* ===================================================================== *)
(** * NumPy arrays *)
(* ===================================================================== *)

(** A C-contiguous array: its shape and its memory, by flat element index.
    A cell holds [None] until it is written (a fresh [py::array_t] is not
    initialised). *)
Record array_t (T : Type) : Type := mk_array {
  shape : list Z;
  ptr : Z -> option T
}.

Arguments mk_array {T} shape ptr.
Arguments shape {T} a.
Arguments ptr {T} a.

Definition ndim {T} (a : array_t T) : Z := Z.of_nat (List.length (shape a)).

(** [py::array_t<T>({rows, cols})]: NumPy refuses a negative dimension and
    pybind11 throws [error_already_set].  (Running out of memory is not
    modelled: an array of any non-negative shape can be created.) *)
Definition array_t_2d_ok (rows cols : Z) : bool :=
  (0 <=? rows) && (0 <=? cols).

Definition rows {T} (a : array_t T) : Z := nth 0 (shape a) 0.
Definition cols {T} (a : array_t T) : Z := nth 1 (shape a) 0.

(** Cell [(c, i)] of a two-dimensional array. *)
Definition cell {T} (a : array_t T) (c i : Z) : option T :=
  ptr a (c * cols a + i).

Definition DEFAULT_AUDIO_BUFFER_SIZE_FRAMES : Z := 8192.

(* ===================================================================== *)
(** * ReadableAudioFile *)
(* ===================================================================== *)

(** [juce::AudioFormatReader], as the source uses it: its public fields and
    what its two read calls deliver.  The last three fields stand for the
    decoder and the file's content. *)
Record AudioFormatReader : Type := {
  sampleRate : Float64.t;              (* double *)
  lengthInSamples : Z;                 (* int64 *)
  numChannels : Z;                     (* unsigned int *)
  bitsPerSample : Z;                   (* unsigned int *)
  usesFloatingPointData : bool;
  getFormatName : string;
  (** whether a read of [numSamples] frames from [startSample] succeeds *)
  backend_read_ok : Z -> Z -> bool;
  (** [readSamples]: the sample of a channel at a frame, as a 32-bit
      integer whose used bits are the most significant ones *)
  backend_int_sample : Z -> Z -> Z;
  (** [read (float**, ...)]: the same sample on the backend's float path *)
  backend_float_sample : Z -> Z -> Float32.t
}.

Inductive SampleType : Type := T_char | T_short | T_int | T_float | T_double.

Definition sizeof (ty : SampleType) : Z :=
  match ty with
  | T_char => 1 | T_short => 2 | T_int => 4 | T_float => 4 | T_double => 8
  end.

(** Conversion of an [int] to the integer type [ty] (assignment into the
    output array of [readInteger]). *)
Definition to_SampleType (ty : SampleType) (z : Z) : Z :=
  match ty with
  | T_char => Cpp.to_char z
  | T_short => Cpp.to_short z
  | _ => Cpp.to_int z
  end.

Module ReadableAudioFile.

(** The object's state: [filename], [reader] (null once closed) and
    [int currentPosition]. *)
Record t : Type := mk {
  filename : string;
  reader : option AudioFormatReader;
  currentPosition : Z                (* int *)
}.

Definition set_position (f : t) (p : Z) : t :=
  mk (filename f) (reader f) p.

(** What the constructor asks of the file system and of
    [juce::AudioFormatManager]. *)
Record FormatManager : Type := {
  existsAsFile : string -> bool;
  (** [createReaderFor (juce::File)]: by file extension *)
  createReaderFor_file : string -> option AudioFormatReader;
  (** [createReaderFor (file.createInputStream ())]: by content *)
  createReaderFor_stream : string -> option AudioFormatReader
}.

(** [ReadableAudioFile (std::string filename)]. *)
Definition construct (formatManager : FormatManager) (filename : string)
  : outcome t :=
  if negb (existsAsFile formatManager filename) then
    Throws (domain_error FileDoesNotExist)
  else
    match createReaderFor_file formatManager filename with
    | Some r => Returns (mk filename (Some r) 0)
    | None =>
        match createReaderFor_stream formatManager filename with
        | Some r =>
            if String.eqb (getFormatName r) "MP3 file" then
              Throws (domain_error NotKnownFormatMp3Hint)
            else Returns (mk filename (Some r) 0)
        | None => Throws (domain_error NotKnownFormat)
        end
    end.

Definition getSampleRate (f : t) : outcome Float64.t :=
  match reader f with
  | None => Throws (runtime_error ClosedFile)
  | Some r => Returns (sampleRate r)
  end.

Definition getLengthInSamples (f : t) : outcome Z :=
  match reader f with
  | None => Throws (runtime_error ClosedFile)
  | Some r => Returns (lengthInSamples r)
  end.

Definition getDuration (f : t) : outcome Float64.t :=
  match reader f with
  | None => Throws (runtime_error ClosedFile)
  | Some r =>
      Returns (Float64.div (Float64.of_int (lengthInSamples r)) (sampleRate r))
  end.

Definition getNumChannels (f : t) : outcome Z :=
  match reader f with
  | None => Throws (runtime_error ClosedFile)
  | Some r => Returns (numChannels r)
  end.

Definition getFileFormat (f : t) : outcome string :=
  match reader f with
  | None => Throws (runtime_error ClosedFile)
  | Some r => Returns (getFormatName r)
  end.

Definition datatype_name (floating : bool) (bits : Z) : string :=
  if floating then
    if (bits =? 16) || (bits =? 32) then "float32"
    else if bits =? 64 then "float64"
    else "unknown"
  else
    if bits =? 8 then "int8"
    else if bits =? 16 then "int16"
    else if bits =? 24 then "int24"
    else if bits =? 32 then "int32"
    else if bits =? 64 then "int64"
    else "unknown".

Definition getFileDatatype (f : t) : outcome string :=
  match reader f with
  | None => Throws (runtime_error ClosedFile)
  | Some r =>
      Returns (datatype_name (usesFloatingPointData r) (bitsPerSample r))
  end.

(** The [switch] of [read] on [reader->bitsPerSample]; [None] is its
    [default:] branch. *)
Definition maxValueAsInt (bitsPerSample : Z) : option Z :=
  if bitsPerSample =? 24 then Some 0x7FFFFF00
  else if bitsPerSample =? 16 then Some 0x7FFF0000
  else if bitsPerSample =? 8 then Some 0x7F000000
  else None.

(** [float scaleFactor = 1.0f / static_cast<float>(maxValueAsInt)]. *)
Definition scaleFactor (maxValueAsInt : Z) : Float32.t :=
  Float32.div Float32.one (Float32.of_int maxValueAsInt).

(** The array was created with [(int) numSamples] frames per channel, but
    [memset], the channel pointers and the backend are handed the
    [long long numSamples] (and [elemSize] bytes per element): the raw
    accesses stay inside the array when the two agree, when there is no
    channel, or when there is one channel and the byte count of [memset],
    reduced to [size_t], is no more than what was allocated. *)
Definition raw_access_in_bounds (numChannels numSamples elemSize : Z) : bool :=
  (numSamples =? Cpp.to_int numSamples)
  || (numChannels =? 0)
  || ((numChannels =? 1)
      && (Cpp.to_size_t (numChannels * numSamples * elemSize)
          <=? numChannels * Cpp.to_int numSamples * elemSize)).

(** The memory of an array of [numChannels] rows and [numSamples] columns
    after every row [c] was filled, from [ptr + numSamples * c] on, with
    [numSamples] values. *)
Definition filled {T} (numChannels numSamples : Z) (sample : Z -> Z -> T)
  : Z -> option T :=
  fun k =>
    if (0 <=? k) && (k <? numChannels * numSamples)
    then Some (sample (k / numSamples) (k mod numSamples))
    else None.

(** [py::array_t<float> read (long long numSamples)]. *)
Definition read (f : t) (numSamples : Z) : outcome (array_t Float32.t) * t :=
  if numSamples =? 0 then (Throws (domain_error WillNotReadEntireFile), f)
  else
    match reader f with
    | None => (Throws (runtime_error ClosedFile), f)
    | Some r =>
        let numChannels := Cpp.to_int (numChannels r) in
        let numSamples :=
          Z.min numSamples (lengthInSamples r - currentPosition f) in
        if negb (array_t_2d_ok numChannels (Cpp.to_int numSamples)) then
          (Throws (error_already_set NegativeDimensions), f)
        else if negb (raw_access_in_bounds numChannels numSamples 4) then
          (Undefined, f)
        else
          let buffer (sample : Z -> Z -> Float32.t) :=
            mk_array [numChannels; Cpp.to_int numSamples]
                     (filled numChannels (Cpp.to_int numSamples) sample) in
          let advanced :=
            set_position f (Cpp.to_int (currentPosition f + numSamples)) in
          if usesFloatingPointData r || (bitsPerSample r =? 32) then
            if negb (backend_read_ok r (currentPosition f)
                                     (Cpp.to_int numSamples)) then
              (Throws (runtime_error FailedToRead), f)
            else
              (Returns (buffer (fun c i =>
                  backend_float_sample r c (currentPosition f + i))),
               advanced)
          else
            if negb (backend_read_ok r (currentPosition f)
                                     (Cpp.to_int numSamples)) then
              (Throws (runtime_error FailedToRead), f)
            else
              match maxValueAsInt (bitsPerSample r) with
              | None =>
                  (Throws (runtime_error
                             (NotSureHowToConvert (bitsPerSample r))), f)
              | Some m =>
                  (Returns (buffer (fun c i =>
                      convertFixedToFloat (scaleFactor m)
                        (backend_int_sample r c (currentPosition f + i)))),
                   advanced)
              end
    end.

(** [char shift = 32 - reader->bitsPerSample]. *)
Definition shift_of (bitsPerSample : Z) : Z :=
  Cpp.to_char (Cpp.to_unsigned (32 - bitsPerSample)).

(** One chunk of the conversion loop of [readInteger] is defined when it
    writes nothing, or when the shift is less than the width of [int] and
    the last element it writes, in the last channel, is inside the array. *)
Definition chunk_defined (bitsPerSample numChannels numSamples startSample
                          samplesToRead : Z) : bool :=
  (numChannels =? 0)
  || (samplesToRead <=? 0)
  || ((shift_of bitsPerSample <? 32)
      && ((numChannels - 1) * numSamples + startSample + samplesToRead
          <=? numChannels * Cpp.to_int numSamples)).

(** The chunked loop of [readInteger], [k] iterations from [startSample]
    on: each reads at most [DEFAULT_AUDIO_BUFFER_SIZE_FRAMES] frames from
    the backend, then converts them into the output array. *)
Fixpoint readInteger_chunks (k : nat) (r : AudioFormatReader)
         (numChannels currentPosition numSamples startSample : Z)
  : outcome unit :=
  match k with
  | O => Returns tt
  | S k' =>
      let samplesToRead :=
        Cpp.to_int (Z.min (numSamples - startSample)
                          DEFAULT_AUDIO_BUFFER_SIZE_FRAMES) in
      if negb (backend_read_ok r (currentPosition + startSample)
                               samplesToRead) then
        Throws (runtime_error FailedToRead)
      else if negb (chunk_defined (bitsPerSample r) numChannels numSamples
                                  startSample samplesToRead) then
        Undefined
      else
        readInteger_chunks k' r numChannels currentPosition numSamples
                           (startSample + DEFAULT_AUDIO_BUFFER_SIZE_FRAMES)
  end.

(** How often [for (startSample = 0; startSample < numSamples;
    startSample += DEFAULT_AUDIO_BUFFER_SIZE_FRAMES)] runs its body. *)
Definition chunk_count (numSamples : Z) : nat :=
  Z.to_nat ((numSamples + DEFAULT_AUDIO_BUFFER_SIZE_FRAMES - 1)
            / DEFAULT_AUDIO_BUFFER_SIZE_FRAMES).

(** [template <typename SampleType> py::array_t<SampleType>
    readInteger (long long numSamples)]. *)
Definition readInteger (ty : SampleType) (f : t) (numSamples : Z)
  : outcome (array_t Z) * t :=
  match reader f with
  | None => (Undefined, f)           (* [reader->] on a null pointer *)
  | Some r =>
      if usesFloatingPointData r then
        (Throws (runtime_error ReadIntegerOnFloatingPointFile), f)
      else
        let numChannels := Cpp.to_int (numChannels r) in
        let numSamples :=
          Z.min numSamples (lengthInSamples r - currentPosition f) in
        if negb (array_t_2d_ok numChannels (Cpp.to_int numSamples)) then
          (Throws (error_already_set NegativeDimensions), f)
        else
          let buffer (cells : Z -> option Z) :=
            mk_array [numChannels; Cpp.to_int numSamples] cells in
          let advanced :=
            set_position f (Cpp.to_int (currentPosition f + numSamples)) in
          if 16 <? bitsPerSample r then
            if sizeof ty <? 4 then
              (Throws (runtime_error (OutputNotWideEnough (bitsPerSample r))),
               f)
            else if negb (raw_access_in_bounds numChannels numSamples
                                               (sizeof ty)) then
              (Undefined, f)
            else if negb (backend_read_ok r (currentPosition f)
                                          (Cpp.to_int numSamples)) then
              (Throws (runtime_error FailedToRead), f)
            else
              (Returns (buffer
                 (filled numChannels (Cpp.to_int numSamples)
                    (fun c i =>
                       backend_int_sample r c (currentPosition f + i)))),
               advanced)
          else
            match readInteger_chunks (chunk_count numSamples) r numChannels
                                     (currentPosition f) numSamples 0 with
            | Throws e => (Throws e, f)
            | Undefined => (Undefined, f)
            | Returns _ =>
                (Returns (buffer
                   (if numSamples <=? 0 then fun _ => None
                    else
                      filled numChannels (Cpp.to_int numSamples)
                        (fun c i =>
                           to_SampleType ty
                             (Z.shiftr
                                (backend_int_sample r c
                                                    (currentPosition f + i))
                                (shift_of (bitsPerSample r)))))),
                 advanced)
            end
  end.

(** What [readRaw] hands back: a [float] array, or an integer array of the
    file's own width. *)
Inductive raw_array : Type :=
  | FloatArray (a : array_t Float32.t)
  | IntArray (ty : SampleType) (a : array_t Z).

Definition as_int_array (ty : SampleType) (o : outcome (array_t Z) * t)
  : outcome raw_array * t :=
  match o with
  | (Returns a, f) => (Returns (IntArray ty a), f)
  | (Throws e, f) => (Throws e, f)
  | (Undefined, f) => (Undefined, f)
  end.

(** [py::handle readRaw (long long numSamples)]. *)
Definition readRaw (f : t) (numSamples : Z) : outcome raw_array * t :=
  if numSamples =? 0 then (Throws (domain_error WillNotReadEntireFile), f)
  else
    match reader f with
    | None => (Throws (runtime_error ClosedFile), f)
    | Some r =>
        if usesFloatingPointData r then
          match read f numSamples with
          | (Returns a, f') => (Returns (FloatArray a), f')
          | (Throws e, f') => (Throws e, f')
          | (Undefined, f') => (Undefined, f')
          end
        else if bitsPerSample r =? 32 then
          as_int_array T_int (readInteger T_int f numSamples)
        else if bitsPerSample r =? 16 then
          as_int_array T_short (readInteger T_short f numSamples)
        else if bitsPerSample r =? 8 then
          as_int_array T_char (readInteger T_char f numSamples)
        else
          (Throws (runtime_error (NotSureHowToRead (bitsPerSample r))), f)
    end.

(** [void seek (long long targetPosition)]. *)
Definition seek (f : t) (targetPosition : Z) : outcome unit * t :=
  match reader f with
  | None => (Throws (runtime_error ClosedFile), f)
  | Some r =>
      if lengthInSamples r <? targetPosition then
        (Throws (domain_error (SeekBeyondEnd (lengthInSamples r))), f)
      else if targetPosition <? 0 then
        (Throws (domain_error SeekBeforeStart), f)
      else
        (Returns tt, set_position f (Cpp.to_int targetPosition))
  end.

(** [long long tell () const]. *)
Definition tell (f : t) : outcome Z :=
  match reader f with
  | None => Throws (runtime_error ClosedFile)
  | Some _ => Returns (currentPosition f)
  end.

(** [void close ()]: [reader.reset ()]. *)
Definition close (f : t) : t := mk (filename f) None (currentPosition f).

Definition isClosed (f : t) : bool :=
  match reader f with None => true | Some _ => false end.

Definition isSeekable (f : t) : bool := negb (isClosed f).

Definition getFilename (f : t) : string := filename f.

(** ** Sequences of calls *)

Inductive call : Type :=
  | call_read (numSamples : Z)
  | call_readRaw (numSamples : Z)
  | call_seek (targetPosition : Z).

(** The state a call leaves behind, whether it returned or threw; [None]
    when the call has no defined behaviour. *)
Definition after {A} (o : outcome A * t) : option t :=
  match o with
  | (Undefined, _) => None
  | (_, f) => Some f
  end.

Definition step (f : t) (c : call) : option t :=
  match c with
  | call_read n => after (read f n)
  | call_readRaw n => after (readRaw f n)
  | call_seek p => after (seek f p)
  end.

Fixpoint run (f : t) (calls : list call) : option t :=
  match calls with
  | [] => Some f
  | c :: rest =>
      match step f c with
      | None => None
      | Some f' => run f' rest
      end
  end.

End ReadableAudioFile.

(* ===================================================================== *)
(** * Strings, as [juce::String] and [std::string] treat them *)
(* ===================================================================== *)

(** Strings are sequences of 8-bit characters; the functions below agree
    with JUCE's on ASCII text. *)
Module Str.

Definition code (c : ascii) : Z := Z.of_N (N_of_ascii c).

(** [juce::CharacterFunctions::isDigit]. *)
Definition isDigit (c : ascii) : bool := (48 <=? code c) && (code c <=? 57).

(** [juce::CharacterFunctions::isWhitespace]: a space, or one of the
    control characters 9 to 13. *)
Definition isWhitespace (c : ascii) : bool :=
  (code c =? 32) || ((9 <=? code c) && (code c <=? 13)).

(** Case folding, on the letters A to Z. *)
Definition toLowerCase (c : ascii) : ascii :=
  if (65 <=? code c) && (code c <=? 90)
  then ascii_of_N (N_of_ascii c + 32)
  else c.

Definition isEmpty (s : string) : bool :=
  match s with EmptyString => true | _ => false end.

Fixpoint trimStart (s : string) : string :=
  match s with
  | EmptyString => EmptyString
  | String c rest => if isWhitespace c then trimStart rest else s
  end.

Fixpoint trimEnd (s : string) : string :=
  match s with
  | EmptyString => EmptyString
  | String c rest =>
      let rest' := trimEnd rest in
      if isWhitespace c && isEmpty rest' then EmptyString
      else String c rest'
  end.

(** [juce::String::trim]. *)
Definition trim (s : string) : string := trimEnd (trimStart s).

(** [juce::String::equalsIgnoreCase]. *)
Fixpoint equalsIgnoreCase (a b : string) : bool :=
  match a, b with
  | EmptyString, EmptyString => true
  | String x a', String y b' =>
      Ascii.eqb (toLowerCase x) (toLowerCase y) && equalsIgnoreCase a' b'
  | _, _ => false
  end.

(** [juce::String::startsWith] (case sensitive). *)
Definition startsWith (s prefix : string) : bool := String.prefix prefix s.

Fixpoint startsWithIgnoreCase (s prefix : string) : bool :=
  match prefix, s with
  | EmptyString, _ => true
  | String y prefix', String x s' =>
      Ascii.eqb (toLowerCase x) (toLowerCase y)
      && startsWithIgnoreCase s' prefix'
  | String _ _, EmptyString => false
  end.

(** [juce::String::containsIgnoreCase]. *)
Fixpoint containsIgnoreCase (s sub : string) : bool :=
  startsWithIgnoreCase s sub
  || match s with
     | EmptyString => false
     | String _ rest => containsIgnoreCase rest sub
     end.

(** [std::string::size] / [juce::String::length]. *)
Definition size (s : string) : Z := Z.of_nat (String.length s).

(** [std::string::substr (0, n)]. *)
Definition substr0 (s : string) (n : Z) : string :=
  String.substring 0 (Z.to_nat n) s.

(** How many characters of [s] are digits: the loop
    [for (i = 0; i < s.size (); i++) if (isDigit (s[i])) n++]. *)
Fixpoint countDigits (s : string) : Z :=
  match s with
  | EmptyString => 0
  | String c rest => (if isDigit c then 1 else 0) + countDigits rest
  end.

(** The first index [i], counted from [from], with [p (options[i])];
    [-1] when there is none. *)
Fixpoint indexWhere (p : string -> bool) (options : list string) (from : Z)
  : Z :=
  match options with
  | [] => -1
  | o :: rest => if p o then from else indexWhere p rest (from + 1)
  end.

End Str.

(* ===================================================================== *)
(** * determineQualityOptionIndex *)
(* ===================================================================== *)

(** [juce::AudioFormat], as far as the quality lookup reads it. *)
Record AudioFormat : Type := {
  formatName : string;
  getQualityOptions : list string       (* juce::StringArray *)
}.

(** The test of the loop over the options in the numeric branch:
    [option.startsWith (leadingIntValue) && option.length () >
    leadingIntValue.size () && !isDigit (option[leadingIntValue.size ()])]. *)
Definition continuesNumber (leadingIntValue option : string) : bool :=
  Str.startsWith option leadingIntValue
  && (Str.size leadingIntValue <? Str.size option)
  && match String.get (String.length leadingIntValue) option with
     | Some c => negb (Str.isDigit c)
     | None => false
     end.

(** The block guarded by [if (!qualityString.empty ())], when the format
    has quality options: the index found, or [-1]. *)
Definition matchQualityOption (possibleQualityOptions : list string)
           (qualityString : string) : Z :=
  let exact :=
    Str.indexWhere (fun o => Str.equalsIgnoreCase o qualityString)
                   possibleQualityOptions 0 in
  if negb (exact =? -1) then exact
  else
    let numLeadingDigits := Str.countDigits qualityString in
    if negb (numLeadingDigits =? 0) then
      let leadingIntValue := Str.substr0 qualityString numLeadingDigits in
      Str.indexWhere (continuesNumber leadingIntValue) possibleQualityOptions 0
    else
      Str.indexWhere (fun o => Str.containsIgnoreCase o qualityString)
                     possibleQualityOptions 0.

(** [int determineQualityOptionIndex (juce::AudioFormat *format,
    const std::string inputString)]. *)
Definition determineQualityOptionIndex (format : AudioFormat)
           (inputString : string) : outcome Z :=
  let possibleQualityOptions := getQualityOptions format in
  let qualityString := Str.trim inputString in
  if negb (Str.isEmpty qualityString) then
    match possibleQualityOptions with
    | [] => Throws (domain_error (QualityNotAccepted qualityString))
    | _ =>
        let qualityOptionIndex :=
          matchQualityOption possibleQualityOptions qualityString in
        if qualityOptionIndex =? -1 then
          Throws (domain_error (UnableToParseQuality qualityString))
        else Returns qualityOptionIndex
    end
  else
    match possibleQualityOptions with
    | [] => Returns 0
    | _ => Returns (Z.of_nat (List.length possibleQualityOptions) - 1)
    end.

(** The part of the constructor of [WriteableAudioFile] that resolves the
    quality: an absent [qualityInput] leaves [qualityString] empty; the label
    is kept when the index is one of the format's options.  (A numeric
    [qualityInput] is first printed into [qualityString] by
    [std::to_string]; that rendering is not modelled.) *)
Definition resolveQuality (format : AudioFormat) (qualityInput : option string)
  : outcome (Z * option string) :=
  let qualityString :=
    match qualityInput with Some q => q | None => EmptyString end in
  match determineQualityOptionIndex format qualityString with
  | Returns qualityOptionIndex =>
      Returns
        (qualityOptionIndex,
         if qualityOptionIndex
            <? Z.of_nat (List.length (getQualityOptions format))
         then nth_error (getQualityOptions format)
                        (Z.to_nat qualityOptionIndex)
         else None)
  | Throws e => Throws e
  | Undefined => Undefined
  end.

(** The claim's reading of the numeric branch: the leading run of digits
    of the specifier (not part of the source, which counts every digit). *)
Fixpoint leadingDigitRun (s : string) : string :=
  match s with
  | EmptyString => EmptyString
  | String c rest =>
      if Str.isDigit c then String c (leadingDigitRun rest) else EmptyString
  end.

(* ===================================================================== *)
(** * WriteableAudioFile *)
(* ===================================================================== *)

(** An element of an input array: [char], [short] and [int] arrays hold
    integers, [float] and [double] arrays hold floating-point numbers. *)
Inductive sample : Type :=
  | IntSample (z : Z)
  | FloatSample (x : spec_float).

(** Channel [c], element [i]: what an array of channel pointers gives
    access to. *)
Definition channels : Type := Z -> Z -> option sample.

Inductive backend_entry : Type := via_write | via_writeFromFloatArrays.

(** One call of the encoder: what it was handed and whether it returned
    [true]. *)
Record backend_call : Type := {
  call_entry : backend_entry;
  call_numSamples : Z;                 (* int *)
  call_channels : channels;
  call_accepted : bool
}.

(** [juce::AudioFormatWriter], as the source uses it.  [calls] logs what was
    handed to the encoder so far; [accepts k] tells whether the encoder's
    call number [k] succeeds, and [flushes] whether [flush ()] does. *)
Record AudioFormatWriter : Type := mk_writer {
  writer_sampleRate : Float64.t;
  writer_numChannels : Z;              (* unsigned int *)
  writer_bitsPerSample : Z;            (* unsigned int *)
  isFloatingPoint : bool;
  accepts : nat -> bool;
  flushes : bool;
  calls : list backend_call
}.

(** Modelled from the spec: the [ChannelLayout] enumeration is declared in
    BufferUtils.h, which is not among the sources.  The source names
    [Interleaved] and [NotInterleaved] and has a [default:] branch; the
    spec's data model lists a third, undetermined layout. *)
Inductive ChannelLayout : Type := Interleaved | NotInterleaved | Undetermined.

Module WriteableAudioFile.

Record t : Type := mk {
  filename : string;
  quality : option string;
  writer : option AudioFormatWriter;
  framesWritten : Z                  (* int *)
}.

Definition set_writer (f : t) (w : AudioFormatWriter) : t :=
  mk (filename f) (quality f) (Some w) (framesWritten f).

(** [writer->write (...)] or [writer->writeFromFloatArrays (...)]. *)
Definition backend (entry : backend_entry) (w : AudioFormatWriter)
           (data : channels) (numSamples : Z) : bool * AudioFormatWriter :=
  let ok := accepts w (List.length (calls w)) in
  (ok,
   mk_writer (writer_sampleRate w) (writer_numChannels w)
             (writer_bitsPerSample w) (isFloatingPoint w) (accepts w)
             (flushes w)
             (calls w ++ [ {| call_entry := entry;
                              call_numSamples := numSamples;
                              call_channels := data;
                              call_accepted := ok |} ])).

(** [std::numeric_limits<InputType>::digits]. *)
Definition digits (ty : SampleType) : Z :=
  match ty with
  | T_char => 7 | T_short => 15 | T_int => 31 | T_float => 24 | T_double => 53
  end.

(** Integer to integer: [((int) x) << (31 - digits)]. *)
Definition leftAlign (ty : SampleType) (s : option sample) : option sample :=
  match s with
  | Some (IntSample z) =>
      Some (IntSample (Cpp.to_int (Z.shiftl z (31 - digits ty))))
  | other => other
  end.

(** Integer to [float]: [convertFixedToFloat] with
    [1.0f / static_cast<float>(INT_MAX)]. *)
Definition fixedToFloat (s : option sample) : option sample :=
  match s with
  | Some (IntSample z) =>
      Some (FloatSample
              (convertFixedToFloat
                 (Float32.div Float32.one (Float32.of_int Cpp.INT_MAX)) z))
  | other => other
  end.

(** [double] to [float]. *)
Definition narrow (s : option sample) : option sample :=
  match s with
  | Some (FloatSample x) => Some (FloatSample (Float32.of_double x))
  | other => other
  end.

(** [numChannels] buffers of [n] elements each. *)
Definition upto (numChannels n : Z) (data : channels) : channels :=
  fun c i =>
    if (0 <=? c) && (c <? numChannels) && (0 <=? i) && (i <? n)
    then data c i else None.

(** [writeConvertingTo<TargetType, InputType>]: [convert] one chunk of at
    most [bufferSize] frames at a time and pass it to [write<TargetType>],
    here [write_target].  [startSample] is [unsigned int]; the recursion
    is on [fuel], and [None] means the loop was still running when the
    fuel ran out. *)
Fixpoint writeConvertingTo (fuel : nat)
         (convert : option sample -> option sample)
         (write_target : AudioFormatWriter -> channels -> Z -> Z ->
                         option (bool * AudioFormatWriter))
         (w : AudioFormatWriter) (data : channels)
         (numChannels numSamples startSample : Z)
  : option (bool * AudioFormatWriter) :=
  match fuel with
  | O => None
  | S fuel' =>
      if startSample <? numSamples then
        let samplesToWrite :=
          Cpp.to_int (Z.min (Cpp.to_unsigned (numSamples - startSample))
                            DEFAULT_AUDIO_BUFFER_SIZE_FRAMES) in
        let targetTypeBuffers : channels :=
          upto numChannels samplesToWrite
               (fun c i => convert (data c (Cpp.to_unsigned (startSample + i))))
        in
        match write_target w targetTypeBuffers numChannels
                           (Cpp.to_unsigned samplesToWrite) with
        | None => None
        | Some (false, w') => Some (false, w')
        | Some (true, w') =>
            writeConvertingTo fuel' convert write_target w' data numChannels
              numSamples
              (Cpp.to_unsigned (startSample + DEFAULT_AUDIO_BUFFER_SIZE_FRAMES))
        end
      else Some (true, w)
  end.

(** [write<float> (channels, numChannels, numSamples)]. *)
Definition write_float (w : AudioFormatWriter) (data : channels)
           (numChannels numSamples : Z) : option (bool * AudioFormatWriter) :=
  if isFloatingPoint w then
    Some (backend via_write w data (Cpp.to_int numSamples))
  else
    Some (backend via_writeFromFloatArrays w data (Cpp.to_int numSamples)).

(** [write<int> (channels, numChannels, numSamples)]. *)
Definition write_int (fuel : nat) (w : AudioFormatWriter) (data : channels)
           (numChannels numSamples : Z) : option (bool * AudioFormatWriter) :=
  if isFloatingPoint w then
    writeConvertingTo fuel fixedToFloat write_float w data numChannels
                      numSamples 0
  else
    Some (backend via_write w data (Cpp.to_int numSamples)).

(** [template <typename SampleType> bool write (const SampleType
    **channels, int numChannels, unsigned int numSamples)]. *)
Definition write_channels (ty : SampleType) (fuel : nat)
           (w : AudioFormatWriter) (data : channels)
           (numChannels numSamples : Z) : option (bool * AudioFormatWriter) :=
  match ty with
  | T_int => write_int fuel w data numChannels numSamples
  | T_char | T_short =>
      writeConvertingTo fuel (leftAlign ty) (write_int fuel) w data
                        numChannels numSamples 0
  | T_float => write_float w data numChannels numSamples
  | T_double =>
      writeConvertingTo fuel narrow write_float w data numChannels
                        numSamples 0
  end.

(** The [case ChannelLayout::Interleaved] loop of [write]:
    [startSample] is an [int] compared and added as [unsigned int]. *)
Fixpoint write_interleaved (fuel0 fuel : nat) (ty : SampleType)
         (w : AudioFormatWriter) (inputArray : array_t sample)
         (numChannels numSamples startSample : Z)
  : option (bool * AudioFormatWriter) :=
  match fuel with
  | O => None
  | S fuel' =>
      if Cpp.to_unsigned startSample <? numSamples then
        let samplesToWrite :=
          Cpp.to_int
            (Z.min (Cpp.to_unsigned (numSamples - Cpp.to_unsigned startSample))
                   DEFAULT_AUDIO_BUFFER_SIZE_FRAMES) in
        let deinterleaveBuffers : channels :=
          upto numChannels samplesToWrite
               (fun c i =>
                  ptr inputArray
                      (Cpp.to_unsigned
                         (Cpp.to_unsigned (i + Cpp.to_unsigned startSample)
                          * numChannels + c))) in
        match write_channels ty fuel0 w deinterleaveBuffers
                             (Cpp.to_int numChannels)
                             (Cpp.to_unsigned samplesToWrite) with
        | None => None
        | Some (false, w') => Some (false, w')
        | Some (true, w') =>
            write_interleaved fuel0 fuel' ty w' inputArray numChannels
              numSamples
              (Cpp.to_int (Cpp.to_unsigned startSample
                           + DEFAULT_AUDIO_BUFFER_SIZE_FRAMES))
        end
      else Some (true, w)
  end.

(** The [case ChannelLayout::NotInterleaved] of [write]: channel [c]
    starts at [ptr + numSamples * c]. *)
Definition write_planar (fuel : nat) (ty : SampleType)
           (w : AudioFormatWriter) (inputArray : array_t sample)
           (numChannels numSamples : Z) : option (bool * AudioFormatWriter) :=
  write_channels ty fuel w
    (fun c i => ptr inputArray (Cpp.to_unsigned (numSamples * c) + i))
    (Cpp.to_int numChannels) numSamples.

(** The shape analysis of [write]: [(numChannels, numSamples)], both
    [unsigned int]. *)
Definition channelsAndSamples (getNumChannels : Z) (shape : list Z)
  : outcome (Z * Z) :=
  match shape with
  | [n] => Returns (1, Cpp.to_unsigned n)
  | [shape0; shape1] =>
      if (shape0 =? getNumChannels) && (shape1 =? getNumChannels) then
        Throws (runtime_error BothDimensionsSame)
      else if shape1 =? getNumChannels then
        Returns (Cpp.to_unsigned shape1, Cpp.to_unsigned shape0)
      else if shape0 =? getNumChannels then
        Returns (Cpp.to_unsigned shape0, Cpp.to_unsigned shape1)
      else Throws (runtime_error UnexpectedShape)
  | _ =>
      Throws (runtime_error
                (BadNumberOfDimensions (Z.of_nat (List.length shape))))
  end.

Section Write.

(** [detectChannelLayout] is defined in BufferUtils.h, which is not
    among the sources: it is a parameter, which yields a layout
    ([inr]) or throws ([inl]). *)
Variable detectChannelLayout :
  array_t sample -> exception + ChannelLayout.

(** [template <typename SampleType> void write (py::array_t<SampleType,
    py::array::c_style> inputArray)].  [None]: one of the chunk loops
    was still running after [fuel] iterations. *)
Definition write (fuel : nat) (ty : SampleType) (f : t)
           (inputArray : array_t sample) : option (outcome unit * t) :=
  match writer f with
  | None => Some (Throws (runtime_error ClosedFile), f)
  | Some w =>
      match detectChannelLayout inputArray with
      | inl e => Some (Throws e, f)
      | inr inputChannelLayout =>
          match channelsAndSamples (writer_numChannels w)
                                   (shape inputArray) with
          | Throws e => Some (Throws e, f)
          | Undefined => Some (Undefined, f)
          | Returns (numChannels, numSamples) =>
              if numChannels =? 0 then Some (Returns tt, f)
              else if negb (numChannels =? writer_numChannels w) then
                Some (Throws (runtime_error
                                (ChannelCountMismatch numChannels)), f)
              else
                let written :=
                  match inputChannelLayout with
                  | Interleaved =>
                      Some (write_interleaved fuel fuel ty w inputArray
                                              numChannels numSamples 0)
                  | NotInterleaved =>
                      Some (write_planar fuel ty w inputArray numChannels
                                         numSamples)
                  | Undetermined => None
                  end in
                match written with
                | None =>
                    Some (Throws (runtime_error UnexpectedChannelLayout), f)
                | Some None => None
                | Some (Some (false, w')) =>
                    Some (Throws (runtime_error UnableToWriteData),
                          set_writer f w')
                | Some (Some (true, w')) =>
                    Some (Returns tt,
                          mk (filename f) (quality f) (Some w')
                             (Cpp.to_int
                                (Cpp.to_unsigned
                                   (Cpp.to_unsigned (framesWritten f)
                                    + numSamples))))
                end
          end
      end
  end.

End Write.

(** [void flush ()]. *)
Definition flush (f : t) : outcome unit :=
  match writer f with
  | None => Throws (runtime_error ClosedFile)
  | Some w =>
      if flushes w then Returns tt else Throws (runtime_error UnableToFlush)
  end.

(** [void close ()]. *)
Definition close (f : t) : outcome unit * t :=
  match writer f with
  | None => (Throws (runtime_error CannotCloseClosedFile), f)
  | Some _ =>
      (Returns tt, mk (filename f) (quality f) None (framesWritten f))
  end.

Definition isClosed (f : t) : bool :=
  match writer f with None => true | Some _ => false end.

Definition getSampleRate (f : t) : outcome Float64.t :=
  match writer f with
  | None => Throws (runtime_error ClosedFile)
  | Some w => Returns (writer_sampleRate w)
  end.

Definition getFilename (f : t) : string := filename f.

(** [long getFramesWritten () const { return framesWritten; }]. *)
Definition getFramesWritten (f : t) : outcome Z := Returns (framesWritten f).

(** [std::optional<std::string> getQuality () const { return quality; }]. *)
Definition getQuality (f : t) : outcome (option string) :=
  Returns (quality f).

Definition getNumChannels (f : t) : outcome Z :=
  match writer f with
  | None => Throws (runtime_error ClosedFile)
  | Some w => Returns (writer_numChannels w)
  end.

Definition getFileDatatype (f : t) : outcome string :=
  match writer f with
  | None => Throws (runtime_error ClosedFile)
  | Some w =>
      Returns (ReadableAudioFile.datatype_name (isFloatingPoint w)
                                               (writer_bitsPerSample w))
  end.

End WriteableAudioFile.

(* ===================================================================== *)
(** * Streams, formats and buffers used as concrete inputs *)
(* ===================================================================== *)

Module Examples.

Local Open Scope string_scope.

(** A decoder whose reads all succeed and whose sample at frame [i] of
    every channel is [100 * (i + 1)] as a signed integer of [bits] bits
    (it wraps around at the depth, as the samples of a file of that depth
    do), left-aligned in 32 bits: an [int]. *)
Definition decoder (length channels bits : Z) : AudioFormatReader := {|
  sampleRate := Float64.of_int 44100;
  lengthInSamples := length;
  numChannels := channels;
  bitsPerSample := bits;
  usesFloatingPointData := false;
  getFormatName := "WAV file";
  backend_read_ok := fun _ _ => true;
  backend_int_sample := fun _ i =>
    Z.shiftl (Cpp.to_signed bits (100 * (i + 1))) (32 - bits);
  backend_float_sample := fun _ _ => Float32.zero
|}.

Definition opened (r : AudioFormatReader) : ReadableAudioFile.t :=
  ReadableAudioFile.mk "a.wav" (Some r) 0.

(** Three frames of 16-bit mono. *)
Definition short_wav : ReadableAudioFile.t := opened (decoder 3 1 16).

(** Three frames of 12-bit mono: a depth [read] has no constant for. *)
Definition odd_wav : ReadableAudioFile.t := opened (decoder 3 1 12).

(** 2^31 frames of 8-bit mono (a 2 GiB file). *)
Definition long_wav : ReadableAudioFile.t := opened (decoder (2 ^ 31) 1 8).

(** 2^31 + 10 frames of 8-bit mono. *)
Definition longer_wav : ReadableAudioFile.t :=
  opened (decoder (2 ^ 31 + 10) 1 8).


Definition mp3_format : AudioFormat := {|
  formatName := "MP3 file";
  getQualityOptions := ["32 kbps"; "64 kbps"; "128 kbps"; "320 kbps"]
|}.

(** An encoder that accepts every call. *)
Definition encoder (channels bits : Z) (floating : bool) : AudioFormatWriter :=
  {| writer_sampleRate := Float64.of_int 44100;
     writer_numChannels := channels;
     writer_bitsPerSample := bits;
     isFloatingPoint := floating;
     accepts := fun _ => true;
     flushes := true;
     calls := [] |}.

(** An encoder that accepts its first call and refuses the second. *)
Definition failing_encoder (channels : Z) : AudioFormatWriter :=
  {| writer_sampleRate := Float64.of_int 44100;
     writer_numChannels := channels;
     writer_bitsPerSample := 16;
     isFloatingPoint := false;
     accepts := fun k => Nat.eqb k 0;
     flushes := true;
     calls := [] |}.

(** A mono writer on that encoder which has written [frames] frames. *)
Definition stalling (frames : Z) : WriteableAudioFile.t :=
  WriteableAudioFile.mk "out.wav" None (Some (failing_encoder 1)) frames.

(** A writer on an MP3 encoder opened with quality "128". *)
Definition mp3_writing (frames : Z) : WriteableAudioFile.t :=
  WriteableAudioFile.mk "out.mp3" (Some "128 kbps")
                        (Some (encoder 2 16 false)) frames.

(** A writer on that encoder which has written [frames] frames. *)
Definition writing (channels frames : Z) : WriteableAudioFile.t :=
  WriteableAudioFile.mk "out.wav" None (Some (encoder channels 16 false))
                        frames.

(** An array of the given shape holding the integer [k] at flat index
    [k]. *)
Definition ramp (shape : list Z) : array_t sample :=
  mk_array shape (fun k => Some (IntSample k)).

(** A session on [short_wav]: reads that reach the end of the file, seeks
    in and out of range, a read with a negative count. *)
Definition session : list ReadableAudioFile.call :=
  [ReadableAudioFile.call_read 2; ReadableAudioFile.call_seek 7;
   ReadableAudioFile.call_readRaw 5; ReadableAudioFile.call_read (-1);
   ReadableAudioFile.call_seek 1; ReadableAudioFile.call_read 1].

Definition always (layout : ChannelLayout)
  : array_t sample -> exception + ChannelLayout :=
  fun _ => inr layout.

End Examples.

(* ===================================================================== *)
(** * The vocabulary of the properties *)
(* ===================================================================== *)

(** The frame count a read is cut down to:
    [std::min (numSamples, reader->lengthInSamples - currentPosition)]. *)
Definition actualFrames (r : AudioFormatReader) (f : ReadableAudioFile.t)
           (numSamples : Z) : Z :=
  Z.min numSamples (lengthInSamples r - ReadableAudioFile.currentPosition f).

(** Every cell of [buf] is the backend's left-aligned integer sample of the
    frame it stands for, counted from [position], converted to [float] and
    multiplied by the reciprocal of [float (maxValue)]. *)
Definition scaled_from (r : AudioFormatReader) (position maxValue : Z)
           (buf : array_t Float32.t) : Prop :=
  forall c i : Z,
    0 <= c < rows buf -> 0 <= i < cols buf ->
    cell buf c i
    = Some (Float32.mul
              (Float32.of_int (backend_int_sample r c (position + i)))
              (Float32.div Float32.one (Float32.of_int maxValue))).

(** A call whose frame count is representable as an [int] (a target of
    [seek] may be any [long long]). *)
Definition count_fits_int (c : ReadableAudioFile.call) : Prop :=
  match c with
  | ReadableAudioFile.call_read n => Cpp.is_int n
  | ReadableAudioFile.call_readRaw n => Cpp.is_int n
  | ReadableAudioFile.call_seek _ => True
  end.

(** The position of the stream is a frame of the file, or its end. *)
Definition position_in_range (r : AudioFormatReader)
           (f : ReadableAudioFile.t) : Prop :=
  0 <= ReadableAudioFile.currentPosition f <= lengthInSamples r.

(** What a call can do to the object: nothing, or move the position. *)
Definition moved_by_read (f f' : ReadableAudioFile.t) (n : Z) : Prop :=
  f' = f
  \/ exists r,
      ReadableAudioFile.reader f = Some r
      /\ array_t_2d_ok (Cpp.to_int (numChannels r))
                       (Cpp.to_int (actualFrames r f n)) = true
      /\ f' = ReadableAudioFile.set_position f
                (Cpp.to_int (ReadableAudioFile.currentPosition f
                             + actualFrames r f n)).




(** From the encoder state [w] to [w'], calls were only added to the log,
    and the encoder accepted each one of them. *)
Definition accepted_since (w w' : AudioFormatWriter) : Prop :=
  exists handed : list backend_call,
    calls w' = calls w ++ handed
    /\ Forall (fun c => call_accepted c = true) handed.

(** Fuel for the chunk loops of a write of [numSamples] frames: one
    iteration per chunk and one for the test that ends the loop. *)
Definition enough_fuel (numSamples : Z) (fuel : nat) : Prop :=
  (numSamples + DEFAULT_AUDIO_BUFFER_SIZE_FRAMES - 1)
  / DEFAULT_AUDIO_BUFFER_SIZE_FRAMES + 2 <= Z.of_nat fuel.

(** The frame counts for which the [unsigned int] loop counter of the chunk
    loops does not wrap around before it reaches the count. *)
Definition counter_reaches (numSamples : Z) : Prop :=
  0 <= numSamples <= Cpp.UINT_MAX + 1 - DEFAULT_AUDIO_BUFFER_SIZE_FRAMES.

(** Every axis of the shape is a frame count the loop counter reaches,
    and [fuel] is enough for it. *)
Definition frames_within (fuel : nat) (shape : list Z) : Prop :=
  Forall (fun n => counter_reaches n /\ enough_fuel n fuel) shape.

(** The integer type [readRaw] answers in for a depth of 16 or 8 bits. *)
Definition native_type (bitsPerSample : Z) : SampleType :=
  if bitsPerSample =? 16 then T_short else T_char.

(** Every cell of [a] is the backend's left-aligned sample of its frame,
    counted from [position], shifted right by [32 - bitsPerSample]. *)
Definition shifted_from (r : AudioFormatReader) (position : Z)
           (a : array_t Z) : Prop :=
  forall c i : Z,
    0 <= c < rows a -> 0 <= i < cols a ->
    cell a c i
    = Some (to_SampleType (native_type (bitsPerSample r))
              (Z.shiftr (backend_int_sample r c (position + i))
                        (32 - bitsPerSample r))).

(** From the encoder state [w] to [w'], the calls added to the log handed
    over [n] frames in all. *)
Definition frames_since (w w' : AudioFormatWriter) (n : Z) : Prop :=
  exists handed : list backend_call,
    calls w' = calls w ++ handed
    /\ fold_right Z.add 0 (map call_numSamples handed) = n.

(** The encoder accepts every call, whichever its number. *)
Definition accepts_all (w : AudioFormatWriter) : Prop :=
  forall k : nat, accepts w k = true.

(** A chunk writer that fails only when the encoder refuses a call. *)
Definition never_refuses
           (write_target : AudioFormatWriter -> channels -> Z -> Z ->
                           option (bool * AudioFormatWriter)) : Prop :=
  forall w data numChannels numSamples ok w',
    accepts_all w ->
    write_target w data numChannels numSamples = Some (ok, w') ->
    ok = true /\ accepts_all w'.

(** What [read] makes of frame [j] of channel [c] of the file: the
    backend's [float] sample on the floating-point and 32-bit path, the
    backend's integer sample scaled by the constant of the depth
    otherwise; [None] at a depth [read] has no constant for. *)
Definition decoded (r : AudioFormatReader) (c j : Z) : option Float32.t :=
  if usesFloatingPointData r || (bitsPerSample r =? 32) then
    Some (backend_float_sample r c j)
  else
    match ReadableAudioFile.maxValueAsInt (bitsPerSample r) with
    | Some m =>
        Some (convertFixedToFloat (ReadableAudioFile.scaleFactor m)
                                  (backend_int_sample r c j))
    | None => None
    end.

(** Every cell of [buf] is the backend's own [float] sample of the frame
    it stands for, counted from [position]. *)
Definition verbatim_from (r : AudioFormatReader) (position : Z)
           (buf : array_t Float32.t) : Prop :=
  forall c i : Z,
    0 <= c < rows buf -> 0 <= i < cols buf ->
    cell buf c i = Some (backend_float_sample r c (position + i)).

(** Every cell of [a] is the backend's own integer sample of the frame it
    stands for, counted from [position]. *)
Definition verbatim_int_from (r : AudioFormatReader) (position : Z)
           (a : array_t Z) : Prop :=
  forall c i : Z,
    0 <= c < rows a -> 0 <= i < cols a ->
    cell a c i = Some (backend_int_sample r c (position + i)).

(** Every cell of [buf] is what [read] makes of its frame of the file,
    counted from [position]. *)
Definition decoded_from (r : AudioFormatReader) (position : Z)
           (buf : array_t Float32.t) : Prop :=
  forall c i : Z,
    0 <= c < rows buf -> 0 <= i < cols buf ->
    exists v, decoded r c (position + i) = Some v /\ cell buf c i = Some v.

(** The tag [getFileDatatype] gives for an array element type. *)
Definition dtype_name (ty : SampleType) : string :=
  match ty with
  | T_char => "int8"
  | T_short => "int16"
  | T_int => "int32"
  | T_float => "float32"
  | T_double => "float64"
  end.

(** Frames [0 .. count - 1] of the stream hold left-aligned samples of the
    stream's depth: shifting a sample down to the native integer type and
    back up gives the sample again. *)
Definition left_aligned (r : AudioFormatReader) (position count : Z) : Prop :=
  forall c i : Z,
    0 <= i < count ->
    Z.shiftl (to_SampleType (native_type (bitsPerSample r))
                (Z.shiftr (backend_int_sample r c (position + i))
                          (32 - bitsPerSample r)))
             (32 - bitsPerSample r)
    = backend_int_sample r c (position + i).

(** Streams the reader properties are shown on. *)
Module Fixtures.

(** A floating-point stream whose sample at frame [i] is the [float]
    [i + 1], in every channel. *)
Definition float_decoder (length channels : Z) : AudioFormatReader := {|
  sampleRate := Float64.of_int 48000;
  lengthInSamples := length;
  numChannels := channels;
  bitsPerSample := 32;
  usesFloatingPointData := true;
  getFormatName := "WAV file";
  backend_read_ok := fun _ _ => true;
  backend_int_sample := fun _ _ => 0;
  backend_float_sample := fun _ i => Float32.of_int (i + 1)
|}.

(** Four frames of floating-point stereo. *)
Definition float_wav : ReadableAudioFile.t :=
  Examples.opened (float_decoder 4 2).

(** Three frames of 32-bit integer mono. *)
Definition wide_wav : ReadableAudioFile.t :=
  Examples.opened (Examples.decoder 3 1 32).


End Fixtures.

(** The frames [start], [start + 1], ..., [start + count - 1]. *)
Definition frames_from (start count : Z) : list Z :=
  map (fun k => start + Z.of_nat k) (seq 0 (Z.to_nat count)).

(** What the calls [handed] gave the encoder for channel [c], frame after
    frame. *)
Fixpoint handed_samples (handed : list backend_call) (c : Z)
  : list (option sample) :=
  match handed with
  | [] => []
  | call :: rest =>
      map (call_channels call c) (frames_from 0 (call_numSamples call))
      ++ handed_samples rest c
  end.

(** What becomes of a sample of an array of [ty] on its way to an encoder
    that takes floating-point data or not: [char] and [short] are
    left-aligned, [double] is narrowed, and integers go through
    [convertFixedToFloat] when the encoder is floating-point. *)
Definition conversion (ty : SampleType) (floating : bool)
           (s : option sample) : option sample :=
  let to_encoder (s : option sample) :=
    if floating then WriteableAudioFile.fixedToFloat s else s in
  match ty with
  | T_char | T_short => to_encoder (WriteableAudioFile.leftAlign ty s)
  | T_int => to_encoder s
  | T_float => s
  | T_double => WriteableAudioFile.narrow s
  end.

(** Where frame [i] of channel [c] lies in the memory of the input
    array. *)
Definition element (layout : ChannelLayout) (a : array_t sample)
           (numChannels numSamples c i : Z) : option sample :=
  match layout with
  | Interleaved => ptr a (i * numChannels + c)
  | _ => ptr a (numSamples * c + i)
  end.

(** From the encoder state [w] to [w'], the calls added to the log gave
    the encoder, for each of the [numChannels] channels, the samples
    [data c i] of the frames [start .. start + count - 1], in order; the
    encoder stayed of the same kind. *)
Definition streamed_since (w w' : AudioFormatWriter) (data : channels)
           (numChannels start count : Z) : Prop :=
  isFloatingPoint w' = isFloatingPoint w
  /\ exists handed : list backend_call,
      calls w' = calls w ++ handed
      /\ forall c : Z,
          0 <= c < numChannels ->
          handed_samples handed c = map (data c) (frames_from start count).

(** A chunk writer that gives the encoder every sample of the chunk, in
    order, converted by [g]. *)
Definition delivers (g : bool -> option sample -> option sample)
           (write_target : AudioFormatWriter -> channels -> Z -> Z ->
                           option (bool * AudioFormatWriter))
           (most : Z) : Prop :=
  forall w data numChannels numSamples w',
    0 <= numSamples <= most ->
    write_target w data numChannels numSamples = Some (true, w') ->
    streamed_since w w' (fun c i => g (isFloatingPoint w) (data c i))
                   numChannels 0 numSamples.

(* ===================================================================== *)
(** * Opening a file for writing *)
(* ===================================================================== *)

(** [bool isInteger (double value)]: [modf (value, &intpart) == 0.0].  The
    fractional part of an infinity is a zero; that of a NaN is a NaN,
    which compares equal to nothing. *)
Definition isInteger (value : spec_float) : bool :=
  match value with
  | S754_zero _ => true
  | S754_infinity _ => true
  | S754_nan => false
  | S754_finite _ m e => (0 <=? e) || (Z.pos m mod 2 ^ (- e) =? 0)
  end.

(** [value == 0]. *)
Definition isZero (value : spec_float) : bool :=
  match value with S754_zero _ => true | _ => false end.

(** [(int) value]: the value without its fractional part; [None] where
    the conversion has no defined result (a NaN, an infinity, a value out
    of the range of [int]). *)
Definition int_of_double (value : spec_float) : option Z :=
  let in_range (z : Z) :=
    if (Cpp.INT_MIN <=? z) && (z <=? Cpp.INT_MAX) then Some z else None in
  match value with
  | S754_zero _ => Some 0
  | S754_finite s m e =>
      in_range (cond_Zopp s (if 0 <=? e then Z.pos m * 2 ^ e
                             else Z.pos m / 2 ^ (- e)))
  | _ => None
  end.

(** [std::to_string (int)]. *)
Definition to_string_int (z : Z) : string :=
  NilZero.string_of_int (Z.to_int z).

(** One constructor per [throw] of the constructor of
    [WriteableAudioFile]; those of [determineQualityOptionIndex] pass
    through it as they are. *)
Inductive opening_message : Type :=
  | IntegerSampleRateRequired
  | NonZeroSampleRateRequired
  | NonZeroNumChannelsRequired
  | UnableToOpenForWriting (filename : string)
  | NoFileExtension (filename : string)
  | UnknownFileExtension (extension : string)
  | NotWritable (extension : string)
  | UnsupportedSampleRate (formatName : string) (supported : list Z)
  | UnsupportedBitDepth (formatName : string) (bitDepth : Z)
                        (supported : list Z)
  | UnableToCreateWriter (numChannels bitDepth : Z) (quality : string).

Inductive opening_exception : Type :=
  | passed_on (e : exception)
  | opening_domain_error (m : opening_message)
  | opening_type_error (m : opening_message).        (* py::type_error *)

Inductive opening (A : Type) : Type :=
  | Opened (a : A)
  | Refused (e : opening_exception)
  | NoDefinedOpening.

Arguments Opened {A} a.
Arguments Refused {A} e.
Arguments NoDefinedOpening {A}.

(** A [juce::AudioFormat], as the constructor uses it. *)
Record WritableFormat : Type := {
  described : AudioFormat;           (* its name and quality options *)
  getPossibleSampleRates : list Z;   (* juce::Array<int> *)
  getPossibleBitDepths : list Z;     (* juce::Array<int> *)
  (** [createWriterFor (stream, sampleRate, numberOfChannels,
      bitsPerSample, metadata, qualityOptionIndex)]; [None] is the null
      pointer *)
  createWriterFor : Float64.t -> Z -> Z -> Z -> option AudioFormatWriter
}.

(** What the constructor asks of the file system, of
    [juce::AudioFormatManager] and of the C library. *)
Record OutputFiles : Type := {
  (** [juce::FileOutputStream (file).openedOk ()] *)
  openedOk : string -> bool;
  (** [juce::File (filename).getFileExtension ()] *)
  getFileExtension : string -> string;
  findFormatForFileExtension : string -> option WritableFormat;
  (** [std::to_string (float)] *)
  to_string_float : spec_float -> string
}.

Module OpenForWriting.

(** The normalisation of [qualityInput] into [qualityString]; [None] where
    [(int) *q] has no defined result.  (The variant holds a string or a
    [float]: the [throw] of its third branch is never reached.) *)
Definition qualityString (env : OutputFiles)
           (qualityInput : option (string + Float32.t)) : option string :=
  match qualityInput with
  | None => Some EmptyString
  | Some (inl q) => Some q
  | Some (inr q) =>
      if isInteger q then option_map to_string_int (int_of_double q)
      else Some (to_string_float env q)
  end.

(** The block guarded by [if (!writer)]: which error explains that no
    writer could be created. *)
Definition explain (extension : string) (format : WritableFormat)
           (writeSampleRate : Float64.t) (numChannels bitDepth : Z)
           (qualityString : string) : opening WriteableAudioFile.t :=
  match getPossibleSampleRates format with
  | [] => Refused (opening_domain_error (NotWritable extension))
  | possibleSampleRates =>
      match int_of_double writeSampleRate with
      | None => NoDefinedOpening
      | Some rate =>
          if negb (existsb (Z.eqb rate) possibleSampleRates) then
            Refused (opening_domain_error
                       (UnsupportedSampleRate (formatName (described format))
                                              possibleSampleRates))
          else
            match getPossibleBitDepths format with
            | [] => Refused (opening_domain_error (NotWritable extension))
            | possibleBitDepths =>
                if negb (existsb (Z.eqb bitDepth) possibleBitDepths) then
                  Refused (opening_domain_error
                             (UnsupportedBitDepth
                                (formatName (described format)) bitDepth
                                possibleBitDepths))
                else
                  Refused (opening_domain_error
                             (UnableToCreateWriter numChannels bitDepth
                                (if Str.isEmpty qualityString then "None"
                                 else qualityString)))
            end
      end
  end.

(** What the constructor does once the output stream is open and the file
    was truncated. *)
Definition on_stream (env : OutputFiles) (filename : string)
           (writeSampleRate : Float64.t) (numChannels bitDepth : Z)
           (qualityInput : option (string + Float32.t))
  : opening WriteableAudioFile.t :=
  let extension := getFileExtension env filename in
  match findFormatForFileExtension env extension with
  | None =>
      if Str.isEmpty extension then
        Refused (opening_domain_error (NoFileExtension filename))
      else Refused (opening_domain_error (UnknownFileExtension extension))
  | Some format =>
      match qualityString env qualityInput with
      | None => NoDefinedOpening
      | Some qualityString =>
          match determineQualityOptionIndex (described format)
                                            qualityString with
          | Throws e => Refused (passed_on e)
          | Undefined => NoDefinedOpening
          | Returns qualityOptionIndex =>
              let options := getQualityOptions (described format) in
              let quality :=
                if qualityOptionIndex <? Z.of_nat (List.length options)
                then nth_error options (Z.to_nat qualityOptionIndex)
                else None in
              match createWriterFor format writeSampleRate
                                    (Cpp.to_unsigned numChannels) bitDepth
                                    qualityOptionIndex with
              | Some writer =>
                  Opened (WriteableAudioFile.mk filename quality
                                                (Some writer) 0)
              | None =>
                  explain extension format writeSampleRate numChannels
                          bitDepth qualityString
              end
          end
      end
  end.

(** [WriteableAudioFile (std::string filename, double writeSampleRate,
    int numChannels = 1, int bitDepth = 16,
    std::optional<std::variant<std::string, float>> qualityInput = {})]:
    the object, or what is thrown, and whether the file was opened and
    truncated on the way. *)
Definition construct (env : OutputFiles) (filename : string)
           (writeSampleRate : Float64.t) (numChannels bitDepth : Z)
           (qualityInput : option (string + Float32.t))
  : opening WriteableAudioFile.t * bool :=
  if negb (isInteger writeSampleRate) then
    (Refused (opening_domain_error IntegerSampleRateRequired), false)
  else if isZero writeSampleRate then
    (Refused (opening_domain_error NonZeroSampleRateRequired), false)
  else if numChannels =? 0 then
    (Refused (opening_type_error NonZeroNumChannelsRequired), false)
  else if negb (openedOk env filename) then
    (Refused (opening_domain_error (UnableToOpenForWriting filename)), false)
  else
    (on_stream env filename writeSampleRate numChannels bitDepth qualityInput,
     true).

End OpenForWriting.

(* ===================================================================== *)
(** * The listing of the supported formats *)
(* ===================================================================== *)

(** [std::sort] with [lhs < rhs] on [std::string]: the strings in
    ascending order of their bytes.  (Strings that compare equal are the
    same string, so the sorted sequence does not depend on the sorting
    algorithm.) *)
Module StringOrder <: Orders.TotalLeBool.
Definition t : Type := string.
Definition leb : string -> string -> bool := String.leb.
Definition leb_total := String.leb_total.
End StringOrder.

Module StringSort := Sort StringOrder.

(** [juce::StringArray], as the listing uses it. *)
Module StringArray.

(** [trim ()]: every string trimmed. *)
Definition trim (strings : list string) : list string :=
  map Str.trim strings.

(** [juce::String::containsNonWhitespaceChars]. *)
Fixpoint containsNonWhitespaceChars (s : string) : bool :=
  match s with
  | EmptyString => false
  | String c rest =>
      negb (Str.isWhitespace c) || containsNonWhitespaceChars rest
  end.

(** [removeEmptyStrings ()], whose argument [removeWhitespaceStrings]
    defaults to [true]. *)
Definition removeEmptyStrings (strings : list string) : list string :=
  filter containsNonWhitespaceChars strings.

(** [removeDuplicates (true)]: for each string in turn, the later strings
    that equal it ignoring case are removed; [kept] holds the strings
    that stayed so far. *)
Fixpoint removeDuplicates_after (kept strings : list string)
  : list string :=
  match strings with
  | [] => []
  | s :: rest =>
      if existsb (fun k => Str.equalsIgnoreCase k s) kept
      then removeDuplicates_after kept rest
      else s :: removeDuplicates_after (s :: kept) rest
  end.

Definition removeDuplicates (strings : list string) : list string :=
  removeDuplicates_after [] strings.

End StringArray.

(** [get_supported_read_formats]: [knownFormats] holds, for each format
    of the manager, its [getFileExtensions ()]. *)
Definition get_supported_read_formats (knownFormats : list (list string))
  : list string :=
  let extensions := List.concat knownFormats in
  StringSort.sort
    (StringArray.removeDuplicates
       (StringArray.removeEmptyStrings (StringArray.trim extensions))).

(** [get_supported_write_formats]. *)
Definition get_supported_write_formats : list string :=
  [".aiff"%string; ".flac"%string; ".ogg"%string; ".wav"%string].

(** [s] with its letters in lower case. *)
Fixpoint lowered (s : string) : string :=
  match s with
  | EmptyString => EmptyString
  | String c rest => String (Str.toLowerCase c) (lowered rest)
  end.

(** A file system and two formats the constructor is shown on. *)
Module Outputs.


(** A format with the quality options of [Examples.mp3_format]. *)
Definition mp3_format : WritableFormat := {|
  described := Examples.mp3_format;
  getPossibleSampleRates := [44100];
  getPossibleBitDepths := [16];
  createWriterFor := fun _ channels bits _ =>
    Some (Examples.encoder channels bits false)
|}.


End Outputs.

(* ===================================================================== *)
(** * Facts about the machine integers *)
(* ===================================================================== *)

Lemma to_int_id (z : Z) :
  Cpp.INT_MIN <= z <= Cpp.INT_MAX -> Cpp.to_int z = z.
Proof.
  unfold Cpp.INT_MIN, Cpp.INT_MAX, Cpp.to_int, Cpp.to_signed. intros H.
  change (2 ^ (32 - 1)) with 2147483648 in *.
  change (2 ^ 31) with 2147483648 in *.
  change (2 ^ 32) with 4294967296.
  rewrite Z.mod_small; lia.
Qed.

Lemma to_unsigned_id (z : Z) :
  0 <= z <= Cpp.UINT_MAX -> Cpp.to_unsigned z = z.
Proof.
  unfold Cpp.UINT_MAX, Cpp.to_unsigned, Cpp.to_unsigned_bits. intros H.
  change (2 ^ 32) with 4294967296 in *.
  apply Z.mod_small; lia.
Qed.

Lemma to_int_range (z : Z) : Cpp.INT_MIN <= Cpp.to_int z <= Cpp.INT_MAX.
Proof.
  unfold Cpp.INT_MIN, Cpp.INT_MAX, Cpp.to_int, Cpp.to_signed.
  change (2 ^ (32 - 1)) with 2147483648.
  change (2 ^ 31) with 2147483648.
  change (2 ^ 32) with 4294967296.
  pose proof (Z.mod_pos_bound (z + 2147483648) 4294967296 eq_refl). lia.
Qed.

(** A cell inside the shape of a filled array holds its channel's sample. *)
Lemma filled_cell {T} (numChannels numSamples : Z) (sample : Z -> Z -> T)
      (c i : Z) :
  0 <= c < numChannels -> 0 <= i < numSamples ->
  ReadableAudioFile.filled numChannels numSamples sample (c * numSamples + i)
  = Some (sample c i).
Proof.
  intros Hc Hi. unfold ReadableAudioFile.filled.
  assert (Hlo : (0 <=? c * numSamples + i) = true) by (apply Z.leb_le; nia).
  assert (Hhi : (c * numSamples + i <? numChannels * numSamples) = true)
    by (apply Z.ltb_lt; nia).
  rewrite Hlo, Hhi. cbn [andb].
  assert (Hq : (c * numSamples + i) / numSamples = c).
  { rewrite Z.div_add_l by lia. rewrite Z.div_small by lia. lia. }
  assert (Hr : (c * numSamples + i) mod numSamples = i).
  { rewrite (Z.add_comm (c * numSamples) i), Z.mod_add by lia.
    apply Z.mod_small; lia. }
  rewrite Hq, Hr. reflexivity.
Qed.

(** Case analysis on the next test of a hypothesis that unfolds a member
    function. *)
Ltac branch H :=
  match type of H with
  | context [if ?b then _ else _] =>
      let E := fresh "E" in destruct b eqn:E; try discriminate H
  end.

(* ===================================================================== *)
(** * ReadableAudioFile: conversion on read *)
(* ===================================================================== *)

Lemma maxValueAsInt_cases (bits m : Z) :
  ReadableAudioFile.maxValueAsInt bits = Some m ->
  (bits = 24 /\ m = 0x7FFFFF00) \/ (bits = 16 /\ m = 0x7FFF0000)
  \/ (bits = 8 /\ m = 0x7F000000).
Proof.
  unfold ReadableAudioFile.maxValueAsInt. intros H.
  destruct (bits =? 24) eqn:E24.
  { left. apply Z.eqb_eq in E24. split; congruence. }
  destruct (bits =? 16) eqn:E16.
  { right; left. apply Z.eqb_eq in E16. split; congruence. }
  destruct (bits =? 8) eqn:E8; [|discriminate].
  right; right. apply Z.eqb_eq in E8. split; congruence.
Qed.

Lemma maxValueAsInt_other (bits : Z) :
  bits <> 24 -> bits <> 16 -> bits <> 8 ->
  ReadableAudioFile.maxValueAsInt bits = None.
Proof.
  intros H24 H16 H8. unfold ReadableAudioFile.maxValueAsInt.
  apply Z.eqb_neq in H24, H16, H8. rewrite H24, H16, H8. reflexivity.
Qed.

(** The buffer built by [read] is scaled by the constant chosen for the
    stream's depth. *)
Lemma read_buffer_scaled (r : AudioFormatReader) (position numChannels n m : Z) :
  scaled_from r position m
    (mk_array [numChannels; n]
       (ReadableAudioFile.filled numChannels n
          (fun c i =>
             convertFixedToFloat (ReadableAudioFile.scaleFactor m)
               (backend_int_sample r c (position + i))))).
Proof.
  unfold scaled_from, rows, cols, cell. cbn [shape ptr nth]. intros c i Hc Hi.
  rewrite filled_cell by assumption. reflexivity.
Qed.

(** C1. On a stream whose native data is integer of 24, 16 or 8 bits,
    [read] converts: where the length and the channel count fit in an
    [int], the position is in range and the backend delivers, [read (n)]
    with [n > 0] returns an array of shape (channels, min (n, length -
    position)) and moves the position forward by the frames returned; and
    every buffer [read] returns from an integer stream that is not of 32
    bits holds, in each cell, the backend's left-shifted 32-bit integer
    sample converted to float and multiplied by the reciprocal of the
    constant of the depth: 0x7FFFFF00 for 24 bits, 0x7FFF0000 for 16 bits,
    0x7F000000 for 8 bits (never 0x7FFFFFFF).  For any other depth [read]
    returns nothing: when the array could be created and the backend
    delivered the samples, it throws from the [default:] branch of the
    switch. *)
Theorem read_scales_by_exact_depth_constant :
  forall (f : ReadableAudioFile.t) (r : AudioFormatReader) (n : Z),
    ReadableAudioFile.reader f = Some r ->
    usesFloatingPointData r = false ->
    bitsPerSample r <> 32 ->
    (forall buf f',
        ReadableAudioFile.read f n = (Returns buf, f') ->
        (bitsPerSample r = 24
         /\ scaled_from r (ReadableAudioFile.currentPosition f) 0x7FFFFF00 buf)
        \/ (bitsPerSample r = 16
            /\ scaled_from r (ReadableAudioFile.currentPosition f) 0x7FFF0000 buf)
        \/ (bitsPerSample r = 8
            /\ scaled_from r (ReadableAudioFile.currentPosition f) 0x7F000000 buf))
    /\ (bitsPerSample r <> 24 -> bitsPerSample r <> 16 -> bitsPerSample r <> 8 ->
        returns (fst (ReadableAudioFile.read f n)) = false
        /\ (n <> 0 ->
            array_t_2d_ok (Cpp.to_int (numChannels r))
                          (Cpp.to_int (actualFrames r f n)) = true ->
            ReadableAudioFile.raw_access_in_bounds
              (Cpp.to_int (numChannels r)) (actualFrames r f n) 4 = true ->
            backend_read_ok r (ReadableAudioFile.currentPosition f)
                            (Cpp.to_int (actualFrames r f n)) = true ->
            ReadableAudioFile.read f n
            = (Throws (runtime_error (NotSureHowToConvert (bitsPerSample r))),
               f)))
    /\ (bitsPerSample r = 24 \/ bitsPerSample r = 16 \/ bitsPerSample r = 8 ->
        0 < n ->
        position_in_range r f ->
        lengthInSamples r <= Cpp.INT_MAX ->
        0 <= numChannels r <= Cpp.INT_MAX ->
        backend_read_ok r (ReadableAudioFile.currentPosition f)
                        (actualFrames r f n) = true ->
        exists buf,
          ReadableAudioFile.read f n
          = (Returns buf,
             ReadableAudioFile.set_position f
               (ReadableAudioFile.currentPosition f + actualFrames r f n))
          /\ shape buf = [numChannels r; actualFrames r f n]
          /\ ((bitsPerSample r = 24
               /\ scaled_from r (ReadableAudioFile.currentPosition f)
                              0x7FFFFF00 buf)
              \/ (bitsPerSample r = 16
                  /\ scaled_from r (ReadableAudioFile.currentPosition f)
                                 0x7FFF0000 buf)
              \/ (bitsPerSample r = 8
                  /\ scaled_from r (ReadableAudioFile.currentPosition f)
                                 0x7F000000 buf))).
Proof.
  intros f r n Hr Hfloat H32.
  apply Z.eqb_neq in H32.
  split; [|split].
  - intros buf f' H. unfold ReadableAudioFile.read in H.
    rewrite Hr, Hfloat, H32 in H. cbn [orb] in H.
    do 4 branch H.
    destruct (ReadableAudioFile.maxValueAsInt (bitsPerSample r)) as [m|] eqn:Hm;
      [|discriminate H].
    injection H as Hbuf _. subst buf.
    destruct (maxValueAsInt_cases _ _ Hm) as [[Hb ->]|[[Hb ->]|[Hb ->]]];
      [left|right; left|right; right]; (split; [exact Hb|]);
      apply read_buffer_scaled.
  - intros H24 H16 H8.
    pose proof (maxValueAsInt_other _ H24 H16 H8) as Hm.
    split.
    + unfold ReadableAudioFile.read. rewrite Hr, Hfloat, H32, Hm. cbn [orb].
      repeat match goal with
             | |- context [if ?b then _ else _] => destruct b
             end; reflexivity.
    + intros Hn Hshape Hbounds Hok. unfold actualFrames in *.
      apply Z.eqb_neq in Hn.
      unfold ReadableAudioFile.read.
      rewrite Hr, Hfloat, H32, Hm, Hn, Hshape, Hbounds, Hok. reflexivity.
  - intros Hbits Hn Hpos HL HC Hok. unfold position_in_range in Hpos.
    assert (Ha : 0 <= actualFrames r f n <= Cpp.INT_MAX)
      by (unfold actualFrames; lia).
    assert (Hle : actualFrames r f n
                  <= lengthInSamples r - ReadableAudioFile.currentPosition f)
      by (unfold actualFrames; lia).
    unfold Cpp.INT_MAX in *.
    assert (Hfit : Cpp.to_int (actualFrames r f n) = actualFrames r f n)
      by (apply to_int_id; unfold Cpp.INT_MIN, Cpp.INT_MAX; lia).
    unfold ReadableAudioFile.read. rewrite Hr.
    replace (n =? 0) with false by (symmetry; apply Z.eqb_neq; lia).
    fold (actualFrames r f n). rewrite Hfit.
    rewrite !to_int_id by (unfold Cpp.INT_MIN, Cpp.INT_MAX; lia).
    unfold array_t_2d_ok, ReadableAudioFile.raw_access_in_bounds.
    rewrite Hfit, Z.eqb_refl.
    replace (0 <=? numChannels r) with true by (symmetry; apply Z.leb_le; lia).
    replace (0 <=? actualFrames r f n) with true
      by (symmetry; apply Z.leb_le; lia).
    rewrite Hfloat, H32, Hok. cbn [andb orb negb].
    destruct Hbits as [Hb|[Hb|Hb]]; rewrite Hb;
      unfold ReadableAudioFile.maxValueAsInt; cbn [Z.eqb Pos.eqb];
      (eexists; split; [reflexivity|]; split; [reflexivity|]).
    + left. split; [reflexivity|]. apply read_buffer_scaled.
    + right; left. split; [reflexivity|]. apply read_buffer_scaled.
    + right; right. split; [reflexivity|]. apply read_buffer_scaled.
Qed.

(** C1, at concrete streams of three frames: reading two frames of the
    16-bit one scales its second sample, 200 * 2^16, by
    1 / float (0x7FFF0000); the 24-bit and the 8-bit one are converted as
    well, with their own constants (the second sample of the 8-bit stream
    is the 8-bit integer 200, that is -56, left-aligned). *)
Lemma read_scales_by_exact_depth_constant_witness :
  (exists buf f',
      ReadableAudioFile.read Examples.short_wav 2 = (Returns buf, f')
      /\ cell buf 0 1 = Some (S754_finite false 13107600 (-31)))
  /\ (exists buf,
         ReadableAudioFile.read (Examples.opened (Examples.decoder 3 1 24)) 2
         = (Returns buf,
            ReadableAudioFile.set_position
              (Examples.opened (Examples.decoder 3 1 24)) 2)
         /\ shape buf = [1; 2]
         /\ cell buf 0 1 = Some (S754_finite false 13107202 (-39)))
  /\ (exists buf,
         ReadableAudioFile.read (Examples.opened (Examples.decoder 3 1 8)) 2
         = (Returns buf,
            ReadableAudioFile.set_position
              (Examples.opened (Examples.decoder 3 1 8)) 2)
         /\ shape buf = [1; 2]
         /\ cell buf 0 1 = Some (S754_finite true 14795655 (-25))).
Proof.
  split; [|split].
  - eexists. eexists. split; [reflexivity|].
    destruct (proj1 (read_scales_by_exact_depth_constant
                       Examples.short_wav (Examples.decoder 3 1 16) 2
                       eq_refl eq_refl ltac:(discriminate)) _ _ eq_refl)
      as [[Hb _]|[[_ Hs]|[Hb _]]]; try discriminate Hb.
    rewrite (Hs 0 1) by (cbn; lia). reflexivity.
  - destruct (proj2 (proj2 (read_scales_by_exact_depth_constant
                              (Examples.opened (Examples.decoder 3 1 24))
                              (Examples.decoder 3 1 24) 2
                              eq_refl eq_refl ltac:(discriminate))))
      as [buf [Hread [Hshape [[_ Hs]|[[Hb _]|[Hb _]]]]]];
      try discriminate Hb;
      try (cbn; unfold position_in_range, Cpp.INT_MAX; cbn; lia);
      try reflexivity.
    exists buf. split; [exact Hread|]. split; [exact Hshape|].
      unfold scaled_from, rows, cols in Hs. rewrite Hshape in Hs.
      cbn [nth] in Hs.
      rewrite (Hs 0 1) by (unfold actualFrames; cbn; lia). reflexivity.
  - destruct (proj2 (proj2 (read_scales_by_exact_depth_constant
                              (Examples.opened (Examples.decoder 3 1 8))
                              (Examples.decoder 3 1 8) 2
                              eq_refl eq_refl ltac:(discriminate))))
      as [buf [Hread [Hshape [[Hb _]|[[Hb _]|[_ Hs]]]]]];
      try discriminate Hb;
      try (cbn; unfold position_in_range, Cpp.INT_MAX; cbn; lia);
      try reflexivity.
    exists buf. split; [exact Hread|]. split; [exact Hshape|].
      unfold scaled_from, rows, cols in Hs. rewrite Hshape in Hs.
      cbn [nth] in Hs.
      rewrite (Hs 0 1) by (unfold actualFrames; cbn; lia). reflexivity.
Defined.

(* ===================================================================== *)
(** * ReadableAudioFile: zero-frame reads *)
(* ===================================================================== *)

(** C7. [read (0)] and [readRaw (0)] throw the [domain_error] of the
    zero-frame test (a validation error) whatever the state of the stream,
    and leave it as it was.  On a closed stream too: the test on
    [numSamples] comes before the test on [reader], so the closed-file
    error shows only for a non-zero count. *)
Theorem zero_frames_rejected_first :
  forall f : ReadableAudioFile.t,
    ReadableAudioFile.read f 0
    = (Throws (domain_error WillNotReadEntireFile), f)
    /\ ReadableAudioFile.readRaw f 0
       = (Throws (domain_error WillNotReadEntireFile), f)
    /\ ReadableAudioFile.read (ReadableAudioFile.close f) 0
       = (Throws (domain_error WillNotReadEntireFile), ReadableAudioFile.close f)
    /\ ReadableAudioFile.readRaw (ReadableAudioFile.close f) 0
       = (Throws (domain_error WillNotReadEntireFile), ReadableAudioFile.close f)
    /\ ReadableAudioFile.read (ReadableAudioFile.close f) 1
       = (Throws (runtime_error ClosedFile), ReadableAudioFile.close f)
    /\ ReadableAudioFile.readRaw (ReadableAudioFile.close f) 1
       = (Throws (runtime_error ClosedFile), ReadableAudioFile.close f).
Proof.
  intros f. repeat split; reflexivity.
Qed.

(* ===================================================================== *)
(** * ReadableAudioFile: seek and tell *)
(* ===================================================================== *)

(** C6, at the input where the code departs from it.  [seek] compares the
    [long long] target with the 64-bit length and then stores it in
    [int currentPosition]: on a stream of 2^31 frames, [seek (2^31)] returns
    normally and [tell ()] answers -2^31. *)
Theorem seek_keeps_only_32_bits :
  ReadableAudioFile.getLengthInSamples Examples.long_wav = Returns 2147483648
  /\ exists f',
      ReadableAudioFile.seek Examples.long_wav 2147483648 = (Returns tt, f')
      /\ ReadableAudioFile.tell f' = Returns (-2147483648).
Proof.
  split; [reflexivity|]. eexists. split; reflexivity.
Qed.

(** Where the length of the stream fits in an [int], [seek] to any position
    from 0 to the length succeeds and [tell] then answers that position. *)
Theorem seek_then_tell :
  forall (f : ReadableAudioFile.t) (r : AudioFormatReader) (p : Z),
    ReadableAudioFile.reader f = Some r ->
    lengthInSamples r <= Cpp.INT_MAX ->
    0 <= p <= lengthInSamples r ->
    ReadableAudioFile.seek f p
    = (Returns tt, ReadableAudioFile.set_position f p)
    /\ ReadableAudioFile.tell (ReadableAudioFile.set_position f p) = Returns p.
Proof.
  intros f r p Hr HL Hp. unfold ReadableAudioFile.seek, ReadableAudioFile.tell.
  cbn [ReadableAudioFile.set_position ReadableAudioFile.reader]. rewrite Hr.
  replace (lengthInSamples r <? p) with false by (symmetry; apply Z.ltb_ge; lia).
  replace (p <? 0) with false by (symmetry; apply Z.ltb_ge; lia).
  rewrite to_int_id by (unfold Cpp.INT_MIN, Cpp.INT_MAX in *; lia).
  split; reflexivity.
Qed.

Lemma seek_then_tell_witness :
  ReadableAudioFile.seek Examples.short_wav 3
  = (Returns tt, ReadableAudioFile.set_position Examples.short_wav 3)
  /\ ReadableAudioFile.tell (ReadableAudioFile.set_position Examples.short_wav 3)
     = Returns 3.
Proof.
  apply (seek_then_tell Examples.short_wav (Examples.decoder 3 1 16) 3 eq_refl);
    cbn; unfold Cpp.INT_MAX; lia.
Defined.

(** On every open stream, [seek (length + 1)] and [seek (-1)] throw a
    [domain_error] and leave the stream as it was. *)
Theorem seek_out_of_range_throws :
  forall (f : ReadableAudioFile.t) (r : AudioFormatReader),
    ReadableAudioFile.reader f = Some r ->
    ReadableAudioFile.seek f (lengthInSamples r + 1)
    = (Throws (domain_error (SeekBeyondEnd (lengthInSamples r))), f)
    /\ exists m,
        ReadableAudioFile.seek f (-1) = (Throws (domain_error m), f).
Proof.
  intros f r Hr. unfold ReadableAudioFile.seek. rewrite Hr. split.
  - replace (lengthInSamples r <? lengthInSamples r + 1) with true
      by (symmetry; apply Z.ltb_lt; lia).
    reflexivity.
  - destruct (lengthInSamples r <? -1); eexists; reflexivity.
Qed.

Lemma seek_out_of_range_throws_witness :
  ReadableAudioFile.seek Examples.short_wav 4
  = (Throws (domain_error (SeekBeyondEnd 3)), Examples.short_wav)
  /\ exists m,
      ReadableAudioFile.seek Examples.short_wav (-1)
      = (Throws (domain_error m), Examples.short_wav).
Proof.
  exact (seek_out_of_range_throws Examples.short_wav (Examples.decoder 3 1 16)
                                  eq_refl).
Defined.

(* ===================================================================== *)
(** * ReadableAudioFile: the shape of a read and the position after it *)
(* ===================================================================== *)

(** C4, at the input where the code departs from it.  The stream has
    2^31 + 10 frames and stands at frame 2147483643; [read (10)] returns the
    ten frames asked for, and [currentPosition += numSamples], computed in
    [long long] and stored in an [int], leaves the position at -2147483643
    instead of 2147483653. *)
Theorem read_position_wraps :
  exists f1 buf f2,
    ReadableAudioFile.seek Examples.longer_wav 2147483643 = (Returns tt, f1)
    /\ ReadableAudioFile.tell f1 = Returns 2147483643
    /\ ReadableAudioFile.read f1 10 = (Returns buf, f2)
    /\ shape buf = [1; 10]
    /\ ReadableAudioFile.tell f2 = Returns (-2147483643).
Proof.
  do 3 eexists. repeat split; reflexivity.
Qed.

(** Where the length of the stream and its channel count fit in an [int],
    the position is in range, the backend delivers and the depth is one
    [read] converts, [read (n)] with [n > 0] returns an array of shape
    (channels, min (n, length - position)) and moves the position forward by
    exactly that many frames. *)
Theorem read_shape_and_position :
  forall (f : ReadableAudioFile.t) (r : AudioFormatReader) (n : Z),
    ReadableAudioFile.reader f = Some r ->
    0 < n ->
    position_in_range r f ->
    lengthInSamples r <= Cpp.INT_MAX ->
    0 <= numChannels r <= Cpp.INT_MAX ->
    backend_read_ok r (ReadableAudioFile.currentPosition f)
                    (actualFrames r f n) = true ->
    usesFloatingPointData r = true \/ bitsPerSample r = 32
    \/ ReadableAudioFile.maxValueAsInt (bitsPerSample r) <> None ->
    exists buf,
      ReadableAudioFile.read f n
      = (Returns buf,
         ReadableAudioFile.set_position f
           (ReadableAudioFile.currentPosition f + actualFrames r f n))
      /\ shape buf = [numChannels r; actualFrames r f n]
      /\ 0 <= actualFrames r f n <= n.
Proof.
  intros f r n Hr Hn Hpos HL HC Hok Hdepth.
  unfold position_in_range in Hpos.
  assert (Ha : 0 <= actualFrames r f n <= n) by (unfold actualFrames; lia).
  assert (Ha' : actualFrames r f n <= Cpp.INT_MAX) by (unfold actualFrames; lia).
  unfold ReadableAudioFile.read. rewrite Hr.
  replace (n =? 0) with false by (symmetry; apply Z.eqb_neq; lia).
  fold (actualFrames r f n).
  unfold Cpp.INT_MAX in *.
  rewrite !to_int_id by (unfold Cpp.INT_MIN, Cpp.INT_MAX, actualFrames in *; lia).
  unfold array_t_2d_ok, ReadableAudioFile.raw_access_in_bounds.
  rewrite !to_int_id by (unfold Cpp.INT_MIN, Cpp.INT_MAX; lia).
  replace (0 <=? numChannels r) with true by (symmetry; apply Z.leb_le; lia).
  replace (0 <=? actualFrames r f n) with true
    by (symmetry; apply Z.leb_le; lia).
  rewrite Z.eqb_refl, Hok. cbn [andb orb negb].
  destruct (usesFloatingPointData r || (bitsPerSample r =? 32)) eqn:Hdirect.
  - eexists. split; [reflexivity|]. split; [reflexivity|exact Ha].
  - apply orb_false_iff in Hdirect. destruct Hdirect as [Hfl H32].
    apply Z.eqb_neq in H32.
    destruct Hdepth as [Hd|[Hd|Hd]]; [congruence|contradiction|].
    destruct (ReadableAudioFile.maxValueAsInt (bitsPerSample r));
      [|contradiction].
    eexists. split; [reflexivity|]. split; [reflexivity|exact Ha].
Qed.

Lemma read_shape_and_position_witness :
  exists buf,
    ReadableAudioFile.read (ReadableAudioFile.set_position Examples.short_wav 2) 5
    = (Returns buf, ReadableAudioFile.set_position Examples.short_wav 3)
    /\ shape buf = [1; 1].
Proof.
  destruct (read_shape_and_position
              (ReadableAudioFile.set_position Examples.short_wav 2)
              (Examples.decoder 3 1 16) 5 eq_refl)
    as [buf [Hread [Hshape _]]];
    try (cbn; unfold position_in_range, Cpp.INT_MAX; cbn; lia);
    try reflexivity.
  - right; right; discriminate.
  - exists buf. split; [exact Hread|exact Hshape].
Defined.

(* ===================================================================== *)
(** * ReadableAudioFile: the range of the position *)
(* ===================================================================== *)

(** C9, at an input where the code departs from it.  The count handed to
    [readRaw] is only tested against zero.  On three frames of 16-bit mono,
    [readRaw (-4294967291)] keeps the negative count ([std::min]), creates an
    array of [(int) -4294967291 = 5] frames, runs the chunk loop zero times
    and adds the count to the position, which ends at 5, past the end of the
    file. *)
Theorem readRaw_negative_count_leaves_range :
  ReadableAudioFile.tell Examples.short_wav = Returns 0
  /\ ReadableAudioFile.getLengthInSamples Examples.short_wav = Returns 3
  /\ exists a f',
      ReadableAudioFile.readRaw Examples.short_wav (-4294967291)
      = (Returns (ReadableAudioFile.IntArray T_short a), f')
      /\ shape a = [1; 5]
      /\ ReadableAudioFile.run Examples.short_wav
           [ReadableAudioFile.call_readRaw (-4294967291)] = Some f'
      /\ ReadableAudioFile.tell f' = Returns 5.
Proof.
  split; [reflexivity|]. split; [reflexivity|].
  do 2 eexists. repeat split; reflexivity.
Qed.

Lemma read_moves (f : ReadableAudioFile.t) (n : Z) o f' :
  ReadableAudioFile.read f n = (o, f') -> moved_by_read f f' n.
Proof.
  unfold ReadableAudioFile.read, moved_by_read. intros H.
  destruct (n =? 0); [injection H as _ <-; now left|].
  destruct (ReadableAudioFile.reader f) as [r|] eqn:Hr;
    [|injection H as _ <-; now left].
  fold (actualFrames r f n) in H.
  destruct (array_t_2d_ok _ _) eqn:Hshape; cbn [negb] in H;
    [|injection H as _ <-; now left].
  repeat match type of H with
         | context [if ?b then _ else _] => destruct b
         | context [match ?m with Some _ => _ | None => _ end] => destruct m
         end;
    injection H as _ <-; solve [now left | right; exists r; auto].
Qed.

Lemma readInteger_moves (ty : SampleType) (f : ReadableAudioFile.t) (n : Z)
      o f' :
  ReadableAudioFile.readInteger ty f n = (o, f') -> moved_by_read f f' n.
Proof.
  unfold ReadableAudioFile.readInteger, moved_by_read. intros H.
  destruct (ReadableAudioFile.reader f) as [r|] eqn:Hr;
    [|injection H as _ <-; now left].
  fold (actualFrames r f n) in H.
  destruct (usesFloatingPointData r); [injection H as _ <-; now left|].
  destruct (array_t_2d_ok _ _) eqn:Hshape; cbn [negb] in H;
    [|injection H as _ <-; now left].
  destruct (16 <? bitsPerSample r).
  - repeat match type of H with
           | context [if ?b then _ else _] => destruct b
           end;
      injection H as _ <-; solve [now left | right; exists r; auto].
  - destruct (ReadableAudioFile.readInteger_chunks _ _ _ _ _ _);
      injection H as _ <-; solve [now left | right; exists r; auto].
Qed.

Lemma readRaw_moves (f : ReadableAudioFile.t) (n : Z) o f' :
  ReadableAudioFile.readRaw f n = (o, f') -> moved_by_read f f' n.
Proof.
  unfold ReadableAudioFile.readRaw. intros H.
  destruct (n =? 0); [injection H as _ <-; now left|].
  destruct (ReadableAudioFile.reader f) as [r|] eqn:Hr;
    [|injection H as _ <-; now left].
  destruct (usesFloatingPointData r).
  { destruct (ReadableAudioFile.read f n) as [[a|e|] g] eqn:Hread;
      injection H as _ <-; eapply read_moves; eassumption. }
  repeat match type of H with
         | context [if ?b then _ else _] => destruct b
         end;
    try (injection H as _ <-; now left);
    match type of H with
    | context [ReadableAudioFile.readInteger ?ty f n] =>
        destruct (ReadableAudioFile.readInteger ty f n) as [[a|e|] g] eqn:Hint;
          cbn in H; injection H as _ <-; eapply readInteger_moves; eassumption
    end.
Qed.

Lemma moved_in_range (r : AudioFormatReader) (f f' : ReadableAudioFile.t)
      (n : Z) :
  ReadableAudioFile.reader f = Some r ->
  lengthInSamples r <= Cpp.INT_MAX ->
  position_in_range r f ->
  Cpp.is_int n ->
  moved_by_read f f' n ->
  ReadableAudioFile.reader f' = Some r /\ position_in_range r f'.
Proof.
  intros Hr HL Hpos Hn [->|[r' [Hr' [Hshape ->]]]]; [auto|].
  rewrite Hr in Hr'. injection Hr' as <-.
  cbn [ReadableAudioFile.set_position ReadableAudioFile.reader].
  split; [exact Hr|].
  unfold position_in_range, Cpp.is_int in *.
  cbn [ReadableAudioFile.set_position ReadableAudioFile.currentPosition].
  unfold array_t_2d_ok in Hshape. apply andb_prop in Hshape.
  destruct Hshape as [_ Hcount]. apply Z.leb_le in Hcount.
  assert (Hfit : Cpp.INT_MIN <= actualFrames r f n <= Cpp.INT_MAX)
    by (unfold actualFrames, Cpp.INT_MIN, Cpp.INT_MAX in *; lia).
  rewrite to_int_id in Hcount by exact Hfit.
  assert (Hle : actualFrames r f n
                <= lengthInSamples r - ReadableAudioFile.currentPosition f)
    by (unfold actualFrames; lia).
  rewrite to_int_id by (unfold Cpp.INT_MIN, Cpp.INT_MAX in *; lia).
  lia.
Qed.

Lemma step_in_range (r : AudioFormatReader) (f f' : ReadableAudioFile.t)
      (c : ReadableAudioFile.call) :
  ReadableAudioFile.reader f = Some r ->
  lengthInSamples r <= Cpp.INT_MAX ->
  position_in_range r f ->
  count_fits_int c ->
  ReadableAudioFile.step f c = Some f' ->
  ReadableAudioFile.reader f' = Some r /\ position_in_range r f'.
Proof.
  intros Hr HL Hpos Hc Hstep. destruct c as [n|n|p]; cbn in Hc, Hstep.
  - destruct (ReadableAudioFile.read f n) as [o g] eqn:Hread.
    assert (g = f') by (destruct o; cbn in Hstep; congruence). subst g.
    eapply moved_in_range; eauto using read_moves.
  - destruct (ReadableAudioFile.readRaw f n) as [o g] eqn:Hread.
    assert (g = f') by (destruct o; cbn in Hstep; congruence). subst g.
    eapply moved_in_range; eauto using readRaw_moves.
  - unfold ReadableAudioFile.seek in Hstep. rewrite Hr in Hstep.
    destruct (lengthInSamples r <? p) eqn:Hhi;
      [cbn in Hstep; injection Hstep as <-; auto|].
    destruct (p <? 0) eqn:Hlo; [cbn in Hstep; injection Hstep as <-; auto|].
    cbn in Hstep. injection Hstep as <-.
    apply Z.ltb_ge in Hhi, Hlo. split; [exact Hr|].
    unfold position_in_range.
    cbn [ReadableAudioFile.set_position ReadableAudioFile.currentPosition].
    rewrite to_int_id by (unfold Cpp.INT_MIN, Cpp.INT_MAX in *; lia). lia.
Qed.

Lemma actualFrames_fits (r : AudioFormatReader) (f : ReadableAudioFile.t)
      (n : Z) :
  lengthInSamples r <= Cpp.INT_MAX ->
  position_in_range r f ->
  Cpp.is_int n ->
  Cpp.to_int (actualFrames r f n) = actualFrames r f n.
Proof.
  intros HL Hpos Hn. apply to_int_id.
  unfold actualFrames, position_in_range, Cpp.is_int, Cpp.INT_MIN,
    Cpp.INT_MAX in *.
  lia.
Qed.

Lemma raw_access_of_int (numChannels numSamples elemSize : Z) :
  Cpp.to_int numSamples = numSamples ->
  ReadableAudioFile.raw_access_in_bounds numChannels numSamples elemSize
  = true.
Proof.
  intros H. unfold ReadableAudioFile.raw_access_in_bounds.
  rewrite H, Z.eqb_refl. reflexivity.
Qed.

Lemma chunk_in_bounds (bits numChannels numSamples start : Z) :
  0 <= numChannels ->
  Cpp.to_int numSamples = numSamples ->
  ReadableAudioFile.shift_of bits < 32 ->
  0 <= start ->
  ReadableAudioFile.chunk_defined bits numChannels numSamples start
    (Z.min (numSamples - start) 8192) = true.
Proof.
  intros HC Hfit Hshift Hstart. unfold ReadableAudioFile.chunk_defined.
  destruct (numChannels =? 0) eqn:E0; [reflexivity|].
  apply Z.eqb_neq in E0. cbn [orb].
  destruct (Z.min (numSamples - start) 8192 <=? 0) eqn:Eempty;
    [reflexivity|].
  apply Z.leb_gt in Eempty. cbn [orb].
  apply andb_true_iff. split.
  - apply Z.ltb_lt. exact Hshift.
  - apply Z.leb_le. rewrite Hfit, Z.mul_sub_distr_r. lia.
Qed.

Lemma chunk_size_fits (numSamples start : Z) :
  Cpp.to_int numSamples = numSamples ->
  0 <= start < numSamples ->
  Cpp.to_int (Z.min (numSamples - start) 8192)
  = Z.min (numSamples - start) 8192.
Proof.
  intros Hfit Hstart. apply to_int_id.
  pose proof (to_int_range numSamples) as Hrange. rewrite Hfit in Hrange.
  unfold Cpp.INT_MIN, Cpp.INT_MAX in *. lia.
Qed.

Lemma readInteger_chunks_defined (r : AudioFormatReader)
      (numChannels currentPosition numSamples : Z) :
  0 <= numChannels ->
  Cpp.to_int numSamples = numSamples ->
  ReadableAudioFile.shift_of (bitsPerSample r) < 32 ->
  forall (k : nat) (startSample : Z),
    0 <= startSample ->
    (k <> 0%nat -> Z.of_nat k * 8192 + startSample <= numSamples + 8191) ->
    ReadableAudioFile.readInteger_chunks k r numChannels currentPosition
      numSamples startSample <> Undefined.
Proof.
  intros HC Hfit Hshift.
  induction k as [|k IH]; intros start Hstart Hk;
    cbn [ReadableAudioFile.readInteger_chunks]; [discriminate|].
  specialize (Hk ltac:(discriminate)).
  unfold DEFAULT_AUDIO_BUFFER_SIZE_FRAMES.
  rewrite chunk_size_fits by (try assumption; lia).
  destruct (backend_read_ok r _ _); cbn [negb]; [|discriminate].
  rewrite chunk_in_bounds by assumption. cbn [negb]. apply IH; lia.
Qed.

Lemma chunk_count_covers (numSamples : Z) :
  ReadableAudioFile.chunk_count numSamples <> 0%nat ->
  Z.of_nat (ReadableAudioFile.chunk_count numSamples) * 8192 + 0
  <= numSamples + 8191.
Proof.
  unfold ReadableAudioFile.chunk_count, DEFAULT_AUDIO_BUFFER_SIZE_FRAMES.
  intros Hk.
  assert (Hpos : 0 < (numSamples + 8192 - 1) / 8192) by lia.
  rewrite Z2Nat.id by lia.
  pose proof (Z.mul_div_le (numSamples + 8192 - 1) 8192 eq_refl). lia.
Qed.

Lemma read_defined (r : AudioFormatReader) (f : ReadableAudioFile.t)
      (n : Z) :
  ReadableAudioFile.reader f = Some r ->
  lengthInSamples r <= Cpp.INT_MAX ->
  position_in_range r f ->
  Cpp.is_int n ->
  fst (ReadableAudioFile.read f n) <> Undefined.
Proof.
  intros Hr HL Hpos Hn. unfold ReadableAudioFile.read.
  destruct (n =? 0); [discriminate|]. rewrite Hr.
  fold (actualFrames r f n).
  rewrite (raw_access_of_int _ (actualFrames r f n))
    by (apply actualFrames_fits; assumption).
  cbn [negb].
  repeat match goal with
         | |- context [if ?b then _ else _] => destruct b
         | |- context [match ?m with Some _ => _ | None => _ end] =>
             destruct m
         end; discriminate.
Qed.

Lemma readInteger_defined (ty : SampleType) (r : AudioFormatReader)
      (f : ReadableAudioFile.t) (n : Z) :
  ReadableAudioFile.reader f = Some r ->
  lengthInSamples r <= Cpp.INT_MAX ->
  position_in_range r f ->
  Cpp.is_int n ->
  ReadableAudioFile.shift_of (bitsPerSample r) < 32 ->
  fst (ReadableAudioFile.readInteger ty f n) <> Undefined.
Proof.
  intros Hr HL Hpos Hn Hshift. unfold ReadableAudioFile.readInteger.
  rewrite Hr. fold (actualFrames r f n).
  pose proof (actualFrames_fits r f n HL Hpos Hn) as Hfit.
  destruct (usesFloatingPointData r); [discriminate|].
  destruct (array_t_2d_ok _ _) eqn:Hshape; cbn [negb]; [|discriminate].
  unfold array_t_2d_ok in Hshape. apply andb_prop in Hshape.
  destruct Hshape as [HC _]. apply Z.leb_le in HC.
  rewrite (raw_access_of_int _ (actualFrames r f n)) by exact Hfit.
  cbn [negb].
  destruct (16 <? bitsPerSample r).
  - repeat match goal with
           | |- context [if ?b then _ else _] => destruct b
           end; discriminate.
  - pose proof (readInteger_chunks_defined r (Cpp.to_int (numChannels r))
                  (ReadableAudioFile.currentPosition f)
                  (actualFrames r f n) HC Hfit Hshift
                  (ReadableAudioFile.chunk_count (actualFrames r f n)) 0
                  (Z.le_refl 0) (chunk_count_covers _)) as Hloop.
    destruct (ReadableAudioFile.readInteger_chunks _ _ _ _ _ _);
      [discriminate|discriminate|now elim Hloop].
Qed.

Lemma as_int_array_defined (ty : SampleType)
      (o : outcome (array_t Z) * ReadableAudioFile.t) :
  fst o <> Undefined -> fst (ReadableAudioFile.as_int_array ty o) <> Undefined.
Proof. destruct o as [[a|e|] g]; cbn; congruence. Qed.

Lemma readRaw_defined (r : AudioFormatReader) (f : ReadableAudioFile.t)
      (n : Z) :
  ReadableAudioFile.reader f = Some r ->
  lengthInSamples r <= Cpp.INT_MAX ->
  position_in_range r f ->
  Cpp.is_int n ->
  fst (ReadableAudioFile.readRaw f n) <> Undefined.
Proof.
  intros Hr HL Hpos Hn. unfold ReadableAudioFile.readRaw.
  destruct (n =? 0); [discriminate|]. rewrite Hr.
  destruct (usesFloatingPointData r).
  { pose proof (read_defined r f n Hr HL Hpos Hn) as Hread.
    destruct (ReadableAudioFile.read f n) as [[a|e|] g]; cbn in *;
      congruence. }
  destruct (bitsPerSample r =? 32) eqn:E32.
  { apply as_int_array_defined, (readInteger_defined _ r); try assumption.
    apply Z.eqb_eq in E32. rewrite E32. vm_compute. reflexivity. }
  destruct (bitsPerSample r =? 16) eqn:E16.
  { apply as_int_array_defined, (readInteger_defined _ r); try assumption.
    apply Z.eqb_eq in E16. rewrite E16. vm_compute. reflexivity. }
  destruct (bitsPerSample r =? 8) eqn:E8.
  { apply as_int_array_defined, (readInteger_defined _ r); try assumption.
    apply Z.eqb_eq in E8. rewrite E8. vm_compute. reflexivity. }
  discriminate.
Qed.

Lemma after_defined {A} (o : outcome A * ReadableAudioFile.t) :
  fst o <> Undefined -> exists f', ReadableAudioFile.after o = Some f'.
Proof. destruct o as [[a|e|] g]; cbn; intros H; eauto. now elim H. Qed.

Lemma step_defined (r : AudioFormatReader) (f : ReadableAudioFile.t)
      (c : ReadableAudioFile.call) :
  ReadableAudioFile.reader f = Some r ->
  lengthInSamples r <= Cpp.INT_MAX ->
  position_in_range r f ->
  count_fits_int c ->
  exists f', ReadableAudioFile.step f c = Some f'.
Proof.
  intros Hr HL Hpos Hc. destruct c as [n|n|p]; cbn in Hc |- *;
    apply after_defined.
  - eapply read_defined; eassumption.
  - eapply readRaw_defined; eassumption.
  - unfold ReadableAudioFile.seek. rewrite Hr.
    repeat match goal with
           | |- context [if ?b then _ else _] => destruct b
           end; discriminate.
Qed.

(** Where the length of the stream fits in an [int] and every frame
    count handed to [read] and [readRaw] does, any sequence of [read],
    [readRaw] and [seek] calls has defined behaviour, whatever the calls
    return or throw, and leaves the stream open with its position between
    0 and the length; it may start from any position in range, such as
    the 0 of a stream just opened. *)
Theorem position_stays_in_range :
  forall (r : AudioFormatReader) (calls : list ReadableAudioFile.call)
         (f : ReadableAudioFile.t),
    ReadableAudioFile.reader f = Some r ->
    lengthInSamples r <= Cpp.INT_MAX ->
    position_in_range r f ->
    Forall count_fits_int calls ->
    exists f',
      ReadableAudioFile.run f calls = Some f'
      /\ ReadableAudioFile.reader f' = Some r
      /\ position_in_range r f'.
Proof.
  intros r calls.
  induction calls as [|c rest IH]; intros f Hr HL Hpos Hfit.
  - exists f. cbn. auto.
  - inversion Hfit as [|? ? Hc Hrest]; subst.
    destruct (step_defined r f c Hr HL Hpos Hc) as [g Hstep].
    destruct (step_in_range r f g c Hr HL Hpos Hc Hstep) as [Hr' Hpos'].
    destruct (IH g Hr' HL Hpos' Hrest) as [f' [Hrun Hend]].
    exists f'. cbn. rewrite Hstep. auto.
Qed.

Lemma position_stays_in_range_witness :
  exists f',
    ReadableAudioFile.run Examples.short_wav Examples.session = Some f'
    /\ ReadableAudioFile.reader f' = Some (Examples.decoder 3 1 16)
    /\ position_in_range (Examples.decoder 3 1 16) f'.
Proof.
  refine (position_stays_in_range (Examples.decoder 3 1 16)
            Examples.session Examples.short_wav eq_refl _ _ _).
  - cbn. unfold Cpp.INT_MAX. lia.
  - unfold position_in_range. cbn. lia.
  - repeat constructor; cbn; unfold Cpp.is_int, Cpp.INT_MIN, Cpp.INT_MAX; lia.
Defined.

(* ===================================================================== *)
(** * Opening a file for reading *)
(* ===================================================================== *)



(* ===================================================================== *)
(** * WriteableAudioFile: accessors after close *)
(* ===================================================================== *)

(** C8 as stated fails here: after [close ()] the frame counter and the
    quality are still answered. *)
Lemma counter_and_quality_answer_after_close :
  exists f',
    WriteableAudioFile.close (Examples.mp3_writing 480) = (Returns tt, f')
    /\ WriteableAudioFile.isClosed f' = true
    /\ WriteableAudioFile.getFramesWritten f' = Returns 480
    /\ WriteableAudioFile.getQuality f' = Returns (Some "128 kbps"%string).
Proof.
  eexists. repeat split; reflexivity.
Qed.

(** C8, amended.  After [close ()] the sample rate, the channel count and
    the native datatype tag throw the closed-file [runtime_error]; the
    frames written so far and the resolved quality, which are fields of the
    object and not of the codec handle, are returned as before. *)
Theorem accessors_after_close :
  forall f f' : WriteableAudioFile.t,
    WriteableAudioFile.close f = (Returns tt, f') ->
    WriteableAudioFile.getSampleRate f' = Throws (runtime_error ClosedFile)
    /\ WriteableAudioFile.getNumChannels f' = Throws (runtime_error ClosedFile)
    /\ WriteableAudioFile.getFileDatatype f' = Throws (runtime_error ClosedFile)
    /\ WriteableAudioFile.getFramesWritten f'
       = Returns (WriteableAudioFile.framesWritten f)
    /\ WriteableAudioFile.getQuality f' = Returns (WriteableAudioFile.quality f).
Proof.
  intros f f' H. unfold WriteableAudioFile.close in H.
  destruct (WriteableAudioFile.writer f); [|discriminate H].
  injection H as <-. repeat split; reflexivity.
Qed.

Lemma accessors_after_close_witness :
  WriteableAudioFile.getSampleRate
    (snd (WriteableAudioFile.close (Examples.mp3_writing 480)))
  = Throws (runtime_error ClosedFile)
  /\ WriteableAudioFile.getFramesWritten
       (snd (WriteableAudioFile.close (Examples.mp3_writing 480)))
     = Returns 480.
Proof.
  destruct (accessors_after_close (Examples.mp3_writing 480) _ eq_refl)
    as [Hrate [_ [_ [Hframes _]]]].
  split; [exact Hrate|exact Hframes].
Defined.

(* ===================================================================== *)
(** * Quality resolution *)
(* ===================================================================== *)

(** C2, at an input where the code departs from it.  The specifier
    "128kbps mp3" matches no label exactly and its leading run of digits is
    "128", which by the claim's rule selects "128 kbps" (index 2).  The loop
    that computes [numLeadingDigits] has no exit at the first character that
    is not a digit: it counts the four digits of the whole specifier, the
    prefix searched for is "128k", no label starts with it, and the
    function throws. *)
Theorem quality_prefix_counts_every_digit :
  Str.indexWhere (fun o => Str.equalsIgnoreCase o "128kbps mp3")
                 (getQualityOptions Examples.mp3_format) 0 = -1
  /\ leadingDigitRun "128kbps mp3" = "128"%string
  /\ Str.indexWhere (continuesNumber "128")
                    (getQualityOptions Examples.mp3_format) 0 = 2
  /\ Str.countDigits "128kbps mp3" = 4
  /\ Str.substr0 "128kbps mp3" 4 = "128k"%string
  /\ determineQualityOptionIndex Examples.mp3_format "128kbps mp3"
     = Throws (domain_error (UnableToParseQuality "128kbps mp3")).
Proof.
  repeat split; reflexivity.
Qed.

(** The examples of the specification: with the labels "32 kbps",
    "64 kbps", "128 kbps" and "320 kbps", the specifier "128" resolves to
    "128 kbps", "32" to "32 kbps" (not "320 kbps"), and an absent specifier
    to the last label, "320 kbps". *)
Theorem quality_examples :
  resolveQuality Examples.mp3_format (Some "128"%string)
  = Returns (2, Some "128 kbps"%string)
  /\ resolveQuality Examples.mp3_format (Some "32"%string)
     = Returns (0, Some "32 kbps"%string)
  /\ resolveQuality Examples.mp3_format None
     = Returns (3, Some "320 kbps"%string).
Proof.
  repeat split; reflexivity.
Qed.

Lemma countDigits_nonneg (s : string) : 0 <= Str.countDigits s.
Proof.
  induction s as [|c rest IH]; cbn [Str.countDigits]; [lia|].
  destruct (Str.isDigit c); lia.
Qed.

(** When every digit of [s] is in its leading run, the prefix the code
    cuts off is that run. *)
Lemma substr0_leadingDigitRun (s : string) :
  Str.countDigits s = Str.size (leadingDigitRun s) ->
  Str.substr0 s (Str.countDigits s) = leadingDigitRun s.
Proof.
  unfold Str.substr0, Str.size.
  induction s as [|c rest IH]; cbn [Str.countDigits leadingDigitRun];
    [reflexivity|].
  pose proof (countDigits_nonneg rest) as Hpos.
  destruct (Str.isDigit c).
  - cbn [String.length]. intros H.
    replace (Z.to_nat (1 + Str.countDigits rest))
      with (S (Z.to_nat (Str.countDigits rest))) by lia.
    cbn [String.substring]. f_equal. apply IH. lia.
  - cbn [String.length]. intros H.
    replace (0 + Str.countDigits rest) with 0 by lia. reflexivity.
Qed.

(** What [indexWhere] finds is the first element that passes the test. *)
Lemma indexWhere_first (p : string -> bool) (options : list string) :
  forall from : Z,
    match Z.eq_dec (Str.indexWhere p options from) (-1) return Prop with
    | left _ => 0 <= from -> Forall (fun o => p o = false) options
    | right _ =>
        exists (k : nat) (o : string),
          Str.indexWhere p options from = from + Z.of_nat k
          /\ nth_error options k = Some o
          /\ p o = true
          /\ forall (j : nat) (o' : string),
              (j < k)%nat -> nth_error options j = Some o' -> p o' = false
    end.
Proof.
  induction options as [|o rest IH]; intros from; cbn [Str.indexWhere].
  - destruct (Z.eq_dec (-1) (-1)); [constructor|congruence].
  - destruct (p o) eqn:Hp.
    + destruct (Z.eq_dec from (-1)) as [->|_]; [lia|].
      exists 0%nat, o. repeat split; [lia|assumption|lia].
    + specialize (IH (from + 1)).
      destruct (Z.eq_dec (Str.indexWhere p rest (from + 1)) (-1)) as [E|E].
      * intros Hfrom. constructor; [exact Hp|]. apply IH. lia.
      * destruct IH as [k [o' [Hi [Hnth [Hpo Hbefore]]]]].
        exists (S k), o'. repeat split; [lia|exact Hnth|exact Hpo|].
        intros [|j] o'' Hj Hn; cbn in Hn.
        -- congruence.
        -- apply (Hbefore j); [lia|exact Hn].
Qed.

(** The numeric rule of the specification holds for the specifiers whose
    digits all stand in their leading run.  For such a specifier, not
    empty once trimmed and equal to no label (ignoring case), the function
    returns the index of the first label that starts with the run of
    digits, is longer than it and goes on with a character that is not a
    digit; it throws when there is no such label. *)
Theorem quality_numeric_prefix_rule :
  forall (format : AudioFormat) (inputString : string),
    let q := Str.trim inputString in
    let digitRun := leadingDigitRun q in
    digitRun <> EmptyString ->
    Str.countDigits q = Str.size digitRun ->
    Str.indexWhere (fun o => Str.equalsIgnoreCase o q)
                   (getQualityOptions format) 0 = -1 ->
    match determineQualityOptionIndex format inputString with
    | Returns i =>
        exists (k : nat) (label : string),
          i = Z.of_nat k
          /\ nth_error (getQualityOptions format) k = Some label
          /\ continuesNumber digitRun label = true
          /\ forall (j : nat) (label' : string),
              (j < k)%nat ->
              nth_error (getQualityOptions format) j = Some label' ->
              continuesNumber digitRun label' = false
    | Throws e =>
        Forall (fun label => continuesNumber digitRun label = false)
               (getQualityOptions format)
        /\ (e = domain_error (QualityNotAccepted q)
            \/ e = domain_error (UnableToParseQuality q))
    | Undefined => False
    end.
Proof.
  intros format inputString q digitRun Hrun Hall Hexact.
  unfold determineQualityOptionIndex. fold q.
  assert (Hq : Str.isEmpty q = false).
  { subst digitRun. destruct q; [now contradiction Hrun|reflexivity]. }
  rewrite Hq. cbn [negb].
  destruct (getQualityOptions format) as [|o rest] eqn:Hopts.
  { split; [constructor|now left]. }
  unfold matchQualityOption. rewrite Hexact, Z.eqb_refl. cbn [negb].
  assert (Hcount : (Str.countDigits q =? 0) = false).
  { apply Z.eqb_neq. rewrite Hall. subst digitRun.
    destruct (leadingDigitRun q); [now contradiction Hrun|].
    unfold Str.size. cbn [String.length]. lia. }
  rewrite Hcount. cbn [negb].
  rewrite (substr0_leadingDigitRun q Hall). fold digitRun.
  pose proof (indexWhere_first (continuesNumber digitRun) (o :: rest) 0) as Hfirst.
  destruct (Z.eq_dec (Str.indexWhere (continuesNumber digitRun) (o :: rest) 0)
                     (-1)) as [E|E].
  - rewrite E, Z.eqb_refl. split; [apply Hfirst; lia|now right].
  - apply Z.eqb_neq in E. rewrite E.
    destruct Hfirst as [k [label [Hi [Hnth [Hp Hbefore]]]]].
    exists k, label. repeat split; [lia|exact Hnth|exact Hp|exact Hbefore].
Qed.

Lemma quality_numeric_prefix_rule_witness :
  determineQualityOptionIndex Examples.mp3_format " 32k " = Returns 0
  /\ exists (k : nat) (label : string),
      0 = Z.of_nat k
      /\ nth_error (getQualityOptions Examples.mp3_format) k = Some label
      /\ continuesNumber "32" label = true
      /\ forall (j : nat) (label' : string),
          (j < k)%nat ->
          nth_error (getQualityOptions Examples.mp3_format) j = Some label' ->
          continuesNumber "32" label' = false.
Proof.
  split; [reflexivity|].
  exact (quality_numeric_prefix_rule Examples.mp3_format " 32k "
           ltac:(discriminate) eq_refl eq_refl).
Defined.

(* ===================================================================== *)
(** * WriteableAudioFile: the shape of the input *)
(* ===================================================================== *)

(** C5. On an open stream of [C >= 2] channels, whatever
    [detectChannelLayout] does: if it throws, [write] throws the same; if
    not, a two-dimensional array whose axes both have length [C] is refused
    with the ambiguity error, one with neither axis of length [C] with the
    shape error, and an array of more than two dimensions with the
    dimension error.  In each case the object is left exactly as it was:
    the encoder was handed nothing and the frame counter did not move. *)
Theorem write_refuses_undecidable_shapes :
  forall (detectChannelLayout : array_t sample -> exception + ChannelLayout)
         (fuel : nat) (ty : SampleType) (f : WriteableAudioFile.t)
         (w : AudioFormatWriter) (inputArray : array_t sample),
    WriteableAudioFile.writer f = Some w ->
    2 <= writer_numChannels w ->
    (forall e,
        detectChannelLayout inputArray = inl e ->
        WriteableAudioFile.write detectChannelLayout fuel ty f inputArray
        = Some (Throws e, f))
    /\ (forall layout shape0 shape1,
           detectChannelLayout inputArray = inr layout ->
           shape inputArray = [shape0; shape1] ->
           (shape0 = writer_numChannels w -> shape1 = writer_numChannels w ->
            WriteableAudioFile.write detectChannelLayout fuel ty f inputArray
            = Some (Throws (runtime_error BothDimensionsSame), f))
           /\ (shape0 <> writer_numChannels w ->
               shape1 <> writer_numChannels w ->
               WriteableAudioFile.write detectChannelLayout fuel ty f inputArray
               = Some (Throws (runtime_error UnexpectedShape), f)))
    /\ (forall layout,
           detectChannelLayout inputArray = inr layout ->
           2 < ndim inputArray ->
           WriteableAudioFile.write detectChannelLayout fuel ty f inputArray
           = Some (Throws (runtime_error
                             (BadNumberOfDimensions (ndim inputArray))), f)).
Proof.
  intros detect fuel ty f w a Hw HC.
  unfold WriteableAudioFile.write. rewrite Hw.
  split; [|split].
  - intros e He. rewrite He. reflexivity.
  - intros layout shape0 shape1 Hl Hshape. rewrite Hl.
    unfold WriteableAudioFile.channelsAndSamples. rewrite Hshape. split.
    + intros -> ->. rewrite Z.eqb_refl. reflexivity.
    + intros H0 H1. apply Z.eqb_neq in H0, H1. rewrite H0, H1. reflexivity.
  - intros layout Hl Hdim. rewrite Hl. unfold ndim in *.
    unfold WriteableAudioFile.channelsAndSamples.
    destruct (shape a) as [|s0 [|s1 [|s2 rest]]]; cbn [List.length] in Hdim;
      try lia.
    reflexivity.
Qed.

Lemma write_refuses_undecidable_shapes_witness :
  WriteableAudioFile.write (Examples.always Interleaved) 4 T_short
    (Examples.writing 2 7) (Examples.ramp [2; 2])
  = Some (Throws (runtime_error BothDimensionsSame), Examples.writing 2 7)
  /\ WriteableAudioFile.write (Examples.always Interleaved) 4 T_short
       (Examples.writing 2 7) (Examples.ramp [3; 5])
     = Some (Throws (runtime_error UnexpectedShape), Examples.writing 2 7).
Proof.
  pose proof (write_refuses_undecidable_shapes (Examples.always Interleaved) 4
                T_short (Examples.writing 2 7) (Examples.encoder 2 16 false))
    as H.
  split.
  - destruct (H (Examples.ramp [2; 2]) eq_refl ltac:(cbn; lia))
      as [_ [Hshape _]].
    exact (proj1 (Hshape Interleaved 2 2 eq_refl eq_refl) eq_refl eq_refl).
  - destruct (H (Examples.ramp [3; 5]) eq_refl ltac:(cbn; lia))
      as [_ [Hshape _]].
    apply (proj2 (Hshape Interleaved 3 5 eq_refl eq_refl)); cbn; lia.
Defined.

(* ===================================================================== *)
(** * WriteableAudioFile: the frame counter *)
(* ===================================================================== *)

(** C10, at inputs where the code departs from it.  The counter is an
    [int] and the frame count of the array is read into an [unsigned int].
    (1) With 2147483647 frames written, a successful [write] of one frame
    leaves the counter at -2147483648, for either layout.  (2) A
    one-dimensional array of 2^32 + 1 frames is a successful [write] that
    hands the encoder a single frame and adds 1 to the counter. *)
Theorem frame_counter_keeps_only_32_bits :
  (forall layout,
      layout = Interleaved \/ layout = NotInterleaved ->
      exists f',
        WriteableAudioFile.write (Examples.always layout) 4 T_int
          (Examples.writing 1 2147483647) (Examples.ramp [1])
        = Some (Returns tt, f')
        /\ WriteableAudioFile.getFramesWritten f' = Returns (-2147483648))
  /\ exists f' w' c,
      WriteableAudioFile.write (Examples.always Interleaved) 4 T_int
        (Examples.writing 1 7) (Examples.ramp [4294967297])
      = Some (Returns tt, f')
      /\ WriteableAudioFile.getFramesWritten f' = Returns 8
      /\ WriteableAudioFile.writer f' = Some w'
      /\ calls w' = [c]
      /\ call_numSamples c = 1.
Proof.
  split.
  - intros layout [-> | ->]; eexists; split; reflexivity.
  - do 3 eexists. repeat split; reflexivity.
Qed.

(** Whatever makes [write] throw (a closed stream, the layout detection,
    the shape, the channel count, an unknown layout, the encoder refusing a
    chunk), the frame counter, the file name and the quality are as
    before. *)
Theorem write_failure_keeps_counter :
  forall (detectChannelLayout : array_t sample -> exception + ChannelLayout)
         (fuel : nat) (ty : SampleType) (f f' : WriteableAudioFile.t)
         (inputArray : array_t sample) (e : exception),
    WriteableAudioFile.write detectChannelLayout fuel ty f inputArray
    = Some (Throws e, f') ->
    WriteableAudioFile.framesWritten f' = WriteableAudioFile.framesWritten f
    /\ WriteableAudioFile.quality f' = WriteableAudioFile.quality f
    /\ WriteableAudioFile.filename f' = WriteableAudioFile.filename f.
Proof.
  intros detect fuel ty f f' a e H. unfold WriteableAudioFile.write in H.
  destruct (WriteableAudioFile.writer f) as [w|];
    [|injection H as _ <-; auto].
  destruct (detect a) as [e'|layout]; [injection H as _ <-; auto|].
  destruct (WriteableAudioFile.channelsAndSamples _ _) as [[nc ns]|e'|];
    [|injection H as _ <-; auto|discriminate H].
  destruct (nc =? 0); [discriminate H|].
  destruct (negb (nc =? writer_numChannels w)); [injection H as _ <-; auto|].
  destruct layout.
  - destruct (WriteableAudioFile.write_interleaved _ _ _ _ _ _ _ _)
      as [[[|] w']|]; [discriminate H| |discriminate H].
    injection H as _ <-. auto.
  - destruct (WriteableAudioFile.write_planar _ _ _ _ _ _)
      as [[[|] w']|]; [discriminate H| |discriminate H].
    injection H as _ <-. auto.
  - injection H as _ <-. auto.
Qed.

(** The encoder refuses the second chunk of 20000 interleaved frames: the
    first two chunks were handed over, [write] throws, the counter stays. *)
Lemma write_failure_keeps_counter_witness :
  exists f' w',
    WriteableAudioFile.write (Examples.always Interleaved) 8 T_int
      (Examples.stalling 7) (Examples.ramp [20000])
    = Some (Throws (runtime_error UnableToWriteData), f')
    /\ WriteableAudioFile.writer f' = Some w'
    /\ map call_accepted (calls w') = [true; false]
    /\ WriteableAudioFile.framesWritten f' = 7.
Proof.
  do 2 eexists. split; [reflexivity|]. split; [reflexivity|].
  split; [reflexivity|].
  exact (proj1 (write_failure_keeps_counter (Examples.always Interleaved) 8 T_int
                  (Examples.stalling 7) _ (Examples.ramp [20000]) _ eq_refl)).
Defined.

(** ** A successful write: every chunk was accepted *)

Lemma accepted_since_refl (w : AudioFormatWriter) : accepted_since w w.
Proof.
  exists []. split; [now rewrite app_nil_r|constructor].
Qed.

Lemma accepted_since_trans (w1 w2 w3 : AudioFormatWriter) :
  accepted_since w1 w2 -> accepted_since w2 w3 -> accepted_since w1 w3.
Proof.
  intros [h1 [E1 A1]] [h2 [E2 A2]]. exists (h1 ++ h2). split.
  - rewrite E2, E1, app_assoc. reflexivity.
  - apply Forall_app. split; assumption.
Qed.

Lemma backend_accepted (entry : backend_entry) (w w' : AudioFormatWriter)
      (data : channels) (numSamples : Z) :
  WriteableAudioFile.backend entry w data numSamples = (true, w') ->
  accepted_since w w'.
Proof.
  unfold WriteableAudioFile.backend. intros H. injection H as Hok <-.
  eexists. cbn [calls]. split; [reflexivity|].
  constructor; [exact Hok|constructor].
Qed.

Lemma writeConvertingTo_accepted
      (convert : option sample -> option sample)
      (write_target : AudioFormatWriter -> channels -> Z -> Z ->
                      option (bool * AudioFormatWriter)) :
  (forall w d c n w',
      write_target w d c n = Some (true, w') -> accepted_since w w') ->
  forall (fuel : nat) (w : AudioFormatWriter) (data : channels)
         (numChannels numSamples startSample : Z) (w' : AudioFormatWriter),
    WriteableAudioFile.writeConvertingTo fuel convert write_target w data
      numChannels numSamples startSample = Some (true, w') ->
    accepted_since w w'.
Proof.
  intros Htarget fuel.
  induction fuel as [|fuel IH]; intros w data nc ns start w' H;
    cbn [WriteableAudioFile.writeConvertingTo] in H; [discriminate H|].
  destruct (start <? ns); [|injection H as <-; apply accepted_since_refl].
  match type of H with
  | context [write_target ?a ?b ?c ?d] =>
      destruct (write_target a b c d) as [[[|] w1]|] eqn:Hchunk;
        try discriminate H
  end.
  eapply accepted_since_trans; [eapply Htarget; exact Hchunk|].
  eapply IH; exact H.
Qed.

Lemma Some_eq {A} (x y : A) : Some x = Some y -> x = y.
Proof. congruence. Qed.

Lemma write_float_accepted (w : AudioFormatWriter) (data : channels)
      (numChannels numSamples : Z) (w' : AudioFormatWriter) :
  WriteableAudioFile.write_float w data numChannels numSamples
  = Some (true, w') ->
  accepted_since w w'.
Proof.
  unfold WriteableAudioFile.write_float. intros H.
  destruct (isFloatingPoint w); apply Some_eq in H;
    eapply backend_accepted; exact H.
Qed.

Lemma write_int_accepted (fuel : nat) (w : AudioFormatWriter) (data : channels)
      (numChannels numSamples : Z) (w' : AudioFormatWriter) :
  WriteableAudioFile.write_int fuel w data numChannels numSamples
  = Some (true, w') ->
  accepted_since w w'.
Proof.
  unfold WriteableAudioFile.write_int. intros H.
  destruct (isFloatingPoint w).
  - eapply writeConvertingTo_accepted; [|exact H].
    intros; eapply write_float_accepted; eassumption.
  - apply Some_eq in H. eapply backend_accepted; exact H.
Qed.

Lemma write_channels_accepted (ty : SampleType) (fuel : nat)
      (w : AudioFormatWriter) (data : channels) (numChannels numSamples : Z)
      (w' : AudioFormatWriter) :
  WriteableAudioFile.write_channels ty fuel w data numChannels numSamples
  = Some (true, w') ->
  accepted_since w w'.
Proof.
  destruct ty; cbn [WriteableAudioFile.write_channels]; intros H.
  - eapply writeConvertingTo_accepted; [|exact H].
    intros; eapply write_int_accepted; eassumption.
  - eapply writeConvertingTo_accepted; [|exact H].
    intros; eapply write_int_accepted; eassumption.
  - eapply write_int_accepted; exact H.
  - eapply write_float_accepted; exact H.
  - eapply writeConvertingTo_accepted; [|exact H].
    intros; eapply write_float_accepted; eassumption.
Qed.

Lemma write_interleaved_accepted (fuel0 : nat) (ty : SampleType)
      (inputArray : array_t sample) (numChannels numSamples : Z) :
  forall (fuel : nat) (w : AudioFormatWriter) (startSample : Z)
         (w' : AudioFormatWriter),
    WriteableAudioFile.write_interleaved fuel0 fuel ty w inputArray numChannels
      numSamples startSample = Some (true, w') ->
    accepted_since w w'.
Proof.
  induction fuel as [|fuel IH]; intros w start w' H;
    cbn [WriteableAudioFile.write_interleaved] in H; [discriminate H|].
  destruct (Cpp.to_unsigned start <? numSamples);
    [|injection H as <-; apply accepted_since_refl].
  match type of H with
  | context [WriteableAudioFile.write_channels ?a ?b ?c ?d ?e ?g] =>
      destruct (WriteableAudioFile.write_channels a b c d e g)
        as [[[|] w1]|] eqn:Hchunk; try discriminate H
  end.
  eapply accepted_since_trans;
    [eapply write_channels_accepted; exact Hchunk|].
  eapply IH; exact H.
Qed.

(** When [write] returns, either the array had no channel and nothing
    happened, or the encoder accepted every chunk it was handed and only
    then the counter moved, in one step, by the frame count [write] read
    off the shape (an [unsigned int] added to an [int]); where that sum fits
    in an [int], the counter is the old one plus the frame count. *)
Theorem write_counts_after_all_chunks :
  forall (detectChannelLayout : array_t sample -> exception + ChannelLayout)
         (fuel : nat) (ty : SampleType) (f f' : WriteableAudioFile.t)
         (w : AudioFormatWriter) (inputArray : array_t sample),
    WriteableAudioFile.writer f = Some w ->
    WriteableAudioFile.write detectChannelLayout fuel ty f inputArray
    = Some (Returns tt, f') ->
    exists numChannels numSamples,
      WriteableAudioFile.channelsAndSamples (writer_numChannels w)
                                            (shape inputArray)
      = Returns (numChannels, numSamples)
      /\ ((numChannels = 0 /\ f' = f)
          \/ (exists w',
                 WriteableAudioFile.writer f' = Some w'
                 /\ accepted_since w w'
                 /\ WriteableAudioFile.framesWritten f'
                    = Cpp.to_int
                        (Cpp.to_unsigned
                           (Cpp.to_unsigned (WriteableAudioFile.framesWritten f)
                            + numSamples))
                 /\ (0 <= WriteableAudioFile.framesWritten f ->
                     0 <= numSamples ->
                     WriteableAudioFile.framesWritten f + numSamples
                     <= Cpp.INT_MAX ->
                     WriteableAudioFile.framesWritten f'
                     = WriteableAudioFile.framesWritten f + numSamples))).
Proof.
  intros detect fuel ty f f' w a Hw H. unfold WriteableAudioFile.write in H.
  rewrite Hw in H.
  destruct (detect a) as [e'|layout]; [discriminate H|].
  destruct (WriteableAudioFile.channelsAndSamples _ _) as [[nc ns]|e'|];
    [|discriminate H|discriminate H].
  exists nc, ns. split; [reflexivity|].
  destruct (nc =? 0) eqn:Hnc.
  { left. apply Z.eqb_eq in Hnc. injection H as <-. auto. }
  destruct (negb (nc =? writer_numChannels w)); [discriminate H|].
  right.
  assert (Hsum : forall x : Z,
             0 <= WriteableAudioFile.framesWritten f -> 0 <= ns ->
             WriteableAudioFile.framesWritten f + ns <= Cpp.INT_MAX ->
             x = Cpp.to_int
                   (Cpp.to_unsigned
                      (Cpp.to_unsigned (WriteableAudioFile.framesWritten f) + ns)) ->
             x = WriteableAudioFile.framesWritten f + ns).
  { intros x H0 H1 H2 ->. unfold Cpp.INT_MAX in H2.
    rewrite (to_unsigned_id (WriteableAudioFile.framesWritten f))
      by (unfold Cpp.UINT_MAX; lia).
    rewrite to_unsigned_id by (unfold Cpp.UINT_MAX; lia).
    apply to_int_id. unfold Cpp.INT_MIN, Cpp.INT_MAX. lia. }
  destruct layout.
  - destruct (WriteableAudioFile.write_interleaved _ _ _ _ _ _ _ _)
      as [[[|] w']|] eqn:Hloop; try discriminate H.
    injection H as <-. exists w'. cbn. split; [reflexivity|].
    split; [eapply write_interleaved_accepted; exact Hloop|].
    split; [reflexivity|]. intros; apply Hsum; auto.
  - destruct (WriteableAudioFile.write_planar _ _ _ _ _ _)
      as [[[|] w']|] eqn:Hloop; try discriminate H.
    injection H as <-. exists w'. cbn. split; [reflexivity|].
    split; [eapply write_channels_accepted; exact Hloop|].
    split; [reflexivity|]. intros; apply Hsum; auto.
  - discriminate H.
Qed.

Lemma write_counts_after_all_chunks_witness :
  exists f' w',
    WriteableAudioFile.write (Examples.always Interleaved) 8 T_short
      (Examples.writing 2 7) (Examples.ramp [10000; 2])
    = Some (Returns tt, f')
    /\ WriteableAudioFile.writer f' = Some w'
    /\ map call_numSamples (calls w') = [8192; 1808]
    /\ WriteableAudioFile.framesWritten f' = 10007.
Proof.
  destruct (write_counts_after_all_chunks (Examples.always Interleaved) 8
              T_short (Examples.writing 2 7) _ (Examples.encoder 2 16 false)
              (Examples.ramp [10000; 2]) eq_refl eq_refl)
    as [nc [ns [Hshape [[Hzero _]|[w' [Hw [_ [Hcount _]]]]]]]];
    injection Hshape as <- <-; [discriminate Hzero|].
  do 2 eexists. split; [reflexivity|]. split; [reflexivity|].
  split; [reflexivity|exact Hcount].
Defined.

(** ** The chunk loops end *)

Lemma to_unsigned_to_int (z : Z) : Cpp.to_unsigned (Cpp.to_int z) = Cpp.to_unsigned z.
Proof.
  unfold Cpp.to_unsigned, Cpp.to_unsigned_bits, Cpp.to_int, Cpp.to_signed.
  change (2 ^ (32 - 1)) with 2147483648. change (2 ^ 32) with 4294967296.
  rewrite <- Zminus_mod_idemp_l, Z.mod_mod by lia.
  rewrite Zminus_mod_idemp_l. f_equal. lia.
Qed.

(** The size of a chunk, as the loops compute it and pass it on. *)
Lemma chunk_size (numSamples startSample : Z) :
  0 <= startSample < numSamples ->
  numSamples <= Cpp.UINT_MAX ->
  let samplesToWrite :=
    Cpp.to_int (Z.min (Cpp.to_unsigned (numSamples - startSample))
                      DEFAULT_AUDIO_BUFFER_SIZE_FRAMES) in
  samplesToWrite = Z.min (numSamples - startSample)
                         DEFAULT_AUDIO_BUFFER_SIZE_FRAMES
  /\ Cpp.to_unsigned samplesToWrite = samplesToWrite
  /\ 0 < samplesToWrite <= DEFAULT_AUDIO_BUFFER_SIZE_FRAMES.
Proof.
  intros Hs Hn. unfold DEFAULT_AUDIO_BUFFER_SIZE_FRAMES, Cpp.UINT_MAX in *.
  cbv zeta.
  rewrite (to_unsigned_id (numSamples - startSample))
    by (unfold Cpp.UINT_MAX; lia).
  rewrite to_int_id by (unfold Cpp.INT_MIN, Cpp.INT_MAX; lia).
  rewrite to_unsigned_id by (unfold Cpp.UINT_MAX; lia).
  lia.
Qed.

Lemma fuel_after_chunk (numSamples startSample : Z) (fuel : nat) :
  startSample < numSamples ->
  (numSamples - startSample + 8191) / 8192 + 1 <= Z.of_nat (S fuel) ->
  (numSamples - (startSample + 8192) + 8191) / 8192 + 1 <= Z.of_nat fuel.
Proof.
  intros Hs Hf.
  replace (numSamples - (startSample + 8192) + 8191)
    with (numSamples - startSample + 8191 + (-1) * 8192) by lia.
  rewrite Z.div_add by lia. lia.
Qed.

Lemma writeConvertingTo_returns
      (convert : option sample -> option sample)
      (write_target : AudioFormatWriter -> channels -> Z -> Z ->
                      option (bool * AudioFormatWriter)) :
  (forall w d c n,
      0 <= n <= DEFAULT_AUDIO_BUFFER_SIZE_FRAMES ->
      write_target w d c n <> None) ->
  forall (fuel : nat) (w : AudioFormatWriter) (data : channels)
         (numChannels numSamples startSample : Z),
    counter_reaches numSamples ->
    0 <= startSample < numSamples + 8192 ->
    (numSamples - startSample + 8191) / 8192 + 1 <= Z.of_nat fuel ->
    WriteableAudioFile.writeConvertingTo fuel convert write_target w data
      numChannels numSamples startSample <> None.
Proof.
  intros Htarget fuel. unfold counter_reaches.
  induction fuel as [|fuel IH]; intros w data nc ns start Hns Hstart Hfuel.
  - exfalso.
    assert (0 <= (ns - start + 8191) / 8192) by (apply Z.div_pos; lia). lia.
  - cbn [WriteableAudioFile.writeConvertingTo].
    destruct (start <? ns) eqn:Hlt; [|discriminate].
    apply Z.ltb_lt in Hlt.
    destruct (chunk_size ns start) as [_ [Hu Hsize]];
      [lia|unfold Cpp.UINT_MAX, DEFAULT_AUDIO_BUFFER_SIZE_FRAMES in *; lia|].
    cbv zeta in Hu, Hsize. rewrite Hu.
    match goal with
    | |- context [write_target ?a ?b ?c ?d] =>
        pose proof (Htarget a b c d ltac:(lia)) as Hchunk;
        destruct (write_target a b c d) as [[[|] w1]|];
          [|discriminate|contradiction]
    end.
    unfold Cpp.UINT_MAX, DEFAULT_AUDIO_BUFFER_SIZE_FRAMES in *.
    rewrite to_unsigned_id by (unfold Cpp.UINT_MAX; lia).
    apply IH; [lia|lia|].
    apply fuel_after_chunk; assumption.
Qed.

Lemma write_float_returns (w : AudioFormatWriter) (data : channels)
      (numChannels numSamples : Z) :
  WriteableAudioFile.write_float w data numChannels numSamples <> None.
Proof.
  unfold WriteableAudioFile.write_float.
  destruct (isFloatingPoint w); discriminate.
Qed.

Lemma enough_fuel_for (numSamples startSample : Z) (fuel : nat) :
  0 <= startSample ->
  enough_fuel numSamples fuel ->
  (numSamples - startSample + 8191) / 8192 + 1 <= Z.of_nat fuel.
Proof.
  unfold enough_fuel, DEFAULT_AUDIO_BUFFER_SIZE_FRAMES. intros Hs Hf.
  assert ((numSamples - startSample + 8191) / 8192
          <= (numSamples + 8192 - 1) / 8192)
    by (apply Z.div_le_mono; lia).
  lia.
Qed.

Lemma enough_fuel_chunk (numSamples n : Z) (fuel : nat) :
  0 <= numSamples ->
  0 <= n <= DEFAULT_AUDIO_BUFFER_SIZE_FRAMES ->
  enough_fuel numSamples fuel ->
  counter_reaches n
  /\ (n - 0 + 8191) / 8192 + 1 <= Z.of_nat fuel.
Proof.
  unfold enough_fuel, counter_reaches, DEFAULT_AUDIO_BUFFER_SIZE_FRAMES,
    Cpp.UINT_MAX.
  intros Hns Hn Hf. split; [lia|].
  assert (0 <= (numSamples + 8192 - 1) / 8192) by (apply Z.div_pos; lia).
  assert ((n - 0 + 8191) / 8192 <= 1).
  { apply Z.lt_succ_r. apply Z.div_lt_upper_bound; lia. }
  lia.
Qed.

Lemma enough_fuel_inner (numSamples n : Z) (fuel : nat) :
  0 < numSamples ->
  0 <= n <= DEFAULT_AUDIO_BUFFER_SIZE_FRAMES ->
  enough_fuel numSamples fuel ->
  enough_fuel n fuel.
Proof.
  unfold enough_fuel, DEFAULT_AUDIO_BUFFER_SIZE_FRAMES. intros Hns Hn Hf.
  assert (1 <= (numSamples + 8192 - 1) / 8192)
    by (apply Z.div_le_lower_bound; lia).
  assert ((n + 8192 - 1) / 8192 <= 1).
  { apply Z.lt_succ_r. apply Z.div_lt_upper_bound; lia. }
  lia.
Qed.

Lemma write_int_returns (fuel : nat) (w : AudioFormatWriter) (data : channels)
      (numChannels numSamples : Z) :
  counter_reaches numSamples ->
  (numSamples - 0 + 8191) / 8192 + 1 <= Z.of_nat fuel ->
  WriteableAudioFile.write_int fuel w data numChannels numSamples <> None.
Proof.
  intros Hns Hfuel. unfold WriteableAudioFile.write_int.
  destruct (isFloatingPoint w); [|discriminate].
  apply writeConvertingTo_returns; auto.
  - intros; apply write_float_returns.
  - unfold counter_reaches in Hns. lia.
Qed.

Lemma write_channels_returns (ty : SampleType) (fuel : nat)
      (w : AudioFormatWriter) (data : channels) (numChannels numSamples : Z) :
  counter_reaches numSamples ->
  enough_fuel numSamples fuel ->
  WriteableAudioFile.write_channels ty fuel w data numChannels numSamples
  <> None.
Proof.
  intros Hns Hfuel.
  pose proof (enough_fuel_for numSamples 0 fuel ltac:(lia) Hfuel) as Hloop.
  assert (Hstart : 0 <= 0 < numSamples + 8192)
    by (unfold counter_reaches in Hns; lia).
  assert (Hint : forall w d c n,
             0 <= n <= DEFAULT_AUDIO_BUFFER_SIZE_FRAMES ->
             WriteableAudioFile.write_int fuel w d c n <> None).
  { intros w0 d c n Hn.
    destruct (enough_fuel_chunk numSamples n fuel) as [Hc Hf]; auto.
    - unfold counter_reaches in Hns; lia.
    - apply write_int_returns; assumption. }
  destruct ty; cbn [WriteableAudioFile.write_channels].
  - apply writeConvertingTo_returns; auto.
  - apply writeConvertingTo_returns; auto.
  - apply write_int_returns; assumption.
  - apply write_float_returns.
  - apply writeConvertingTo_returns; auto.
    intros; apply write_float_returns.
Qed.

Lemma write_interleaved_returns (fuel0 : nat) (ty : SampleType)
      (inputArray : array_t sample) (numChannels numSamples : Z) :
  counter_reaches numSamples ->
  enough_fuel numSamples fuel0 ->
  forall (fuel : nat) (w : AudioFormatWriter) (startSample : Z),
    0 <= Cpp.to_unsigned startSample < numSamples + 8192 ->
    (numSamples - Cpp.to_unsigned startSample + 8191) / 8192 + 1
    <= Z.of_nat fuel ->
    WriteableAudioFile.write_interleaved fuel0 fuel ty w inputArray numChannels
      numSamples startSample <> None.
Proof.
  intros Hns Hfuel0. pose proof Hns as Hrange. unfold counter_reaches in Hrange.
  induction fuel as [|fuel IH]; intros w start Hstart Hfuel.
  - exfalso.
    assert (0 <= (numSamples - Cpp.to_unsigned start + 8191) / 8192)
      by (apply Z.div_pos; lia).
    lia.
  - cbn [WriteableAudioFile.write_interleaved].
    destruct (Cpp.to_unsigned start <? numSamples) eqn:Hlt; [|discriminate].
    apply Z.ltb_lt in Hlt.
    destruct (chunk_size numSamples (Cpp.to_unsigned start)) as [_ [Hu Hsize]];
      [lia|unfold Cpp.UINT_MAX, DEFAULT_AUDIO_BUFFER_SIZE_FRAMES in *; lia|].
    cbv zeta in Hu, Hsize. rewrite Hu.
    match goal with
    | |- context [WriteableAudioFile.write_channels ?a ?b ?c ?d ?e ?g] =>
        assert (Hchunk : WriteableAudioFile.write_channels a b c d e g <> None);
        [|destruct (WriteableAudioFile.write_channels a b c d e g)
            as [[[|] w1]|]; [|discriminate|contradiction]]
    end.
    { apply write_channels_returns.
      - unfold counter_reaches, Cpp.UINT_MAX,
          DEFAULT_AUDIO_BUFFER_SIZE_FRAMES in *. lia.
      - apply (enough_fuel_inner numSamples); [lia|lia|assumption]. }
    assert (Hnext : Cpp.to_unsigned
                      (Cpp.to_int (Cpp.to_unsigned start
                                   + DEFAULT_AUDIO_BUFFER_SIZE_FRAMES))
                    = Cpp.to_unsigned start + 8192).
    { rewrite to_unsigned_to_int.
      unfold Cpp.UINT_MAX, DEFAULT_AUDIO_BUFFER_SIZE_FRAMES in *.
      apply to_unsigned_id. unfold Cpp.UINT_MAX. lia. }
    apply IH; rewrite Hnext; [lia|].
    apply fuel_after_chunk; assumption.
Qed.

Lemma channelsAndSamples_within (fuel : nat) (getNumChannels : Z)
      (shape : list Z) (numChannels numSamples : Z) :
  frames_within fuel shape ->
  WriteableAudioFile.channelsAndSamples getNumChannels shape
  = Returns (numChannels, numSamples) ->
  counter_reaches numSamples /\ enough_fuel numSamples fuel.
Proof.
  unfold frames_within, WriteableAudioFile.channelsAndSamples. intros Hall H.
  assert (Hid : forall n, counter_reaches n -> Cpp.to_unsigned n = n).
  { intros n Hn. apply to_unsigned_id.
    unfold counter_reaches, DEFAULT_AUDIO_BUFFER_SIZE_FRAMES in Hn. lia. }
  destruct shape as [|s0 [|s1 [|s2 rest]]]; try discriminate H.
  - inversion Hall as [|? ? [Hc Hf] _]; subst.
    injection H as _ <-. rewrite (Hid _ Hc). auto.
  - inversion Hall as [|? ? [Hc0 Hf0] Hrest]; subst.
    inversion Hrest as [|? ? [Hc1 Hf1] _]; subst.
    destruct ((s0 =? getNumChannels) && (s1 =? getNumChannels));
      [discriminate H|].
    destruct (s1 =? getNumChannels).
    + injection H as _ <-. rewrite (Hid _ Hc0). auto.
    + destruct (s0 =? getNumChannels); [|discriminate H].
      injection H as _ <-. rewrite (Hid _ Hc1). auto.
Qed.

(** [write] comes to an end: for an array whose axes are at most
    2^32 - 8192 long, with one unit of fuel per chunk and two more, it
    returns or throws. *)
Theorem write_comes_to_an_end :
  forall (detectChannelLayout : array_t sample -> exception + ChannelLayout)
         (fuel : nat) (ty : SampleType) (f : WriteableAudioFile.t)
         (inputArray : array_t sample),
    frames_within fuel (shape inputArray) ->
    exists (o : outcome unit) (f' : WriteableAudioFile.t),
      WriteableAudioFile.write detectChannelLayout fuel ty f inputArray
      = Some (o, f').
Proof.
  intros detect fuel ty f a Hwithin. unfold WriteableAudioFile.write.
  destruct (WriteableAudioFile.writer f) as [w|]; [|eauto].
  destruct (detect a) as [e|layout]; [eauto|].
  destruct (WriteableAudioFile.channelsAndSamples _ _) as [[nc ns]|e|] eqn:Hshape;
    [|eauto|eauto].
  destruct (channelsAndSamples_within _ _ _ _ _ Hwithin Hshape) as [Hc Hf].
  destruct (nc =? 0); [eauto|].
  destruct (negb (nc =? writer_numChannels w)); [eauto|].
  destruct layout; [| |eauto].
  - pose proof (write_interleaved_returns fuel ty a nc ns Hc Hf fuel w 0) as Hloop.
    change (Cpp.to_unsigned 0) with 0 in Hloop.
    destruct (WriteableAudioFile.write_interleaved _ _ _ _ _ _ _ _)
      as [[[|] w']|]; [eauto|eauto|].
    exfalso. apply Hloop; [|apply enough_fuel_for; [lia|exact Hf]|reflexivity].
    unfold counter_reaches in Hc. lia.
  - pose proof (write_channels_returns ty fuel w
                  (fun c i => ptr a (Cpp.to_unsigned (ns * c) + i))
                  (Cpp.to_int nc) ns Hc Hf) as Hcall.
    unfold WriteableAudioFile.write_planar.
    destruct (WriteableAudioFile.write_channels _ _ _ _ _ _)
      as [[[|] w']|]; [eauto|eauto|contradiction].
Qed.

Lemma write_comes_to_an_end_witness :
  exists (o : outcome unit) (f' : WriteableAudioFile.t),
    WriteableAudioFile.write (Examples.always NotInterleaved) 4 T_double
      (Examples.writing 2 0) (Examples.ramp [2; 10000])
    = Some (o, f').
Proof.
  apply write_comes_to_an_end.
  repeat constructor;
    unfold counter_reaches, enough_fuel, Cpp.UINT_MAX,
      DEFAULT_AUDIO_BUFFER_SIZE_FRAMES; cbn; lia.
Defined.

(* ===================================================================== *)
(** * Closed streams *)
(* ===================================================================== *)

(** After [close ()] a readable stream answers [isClosed] with true, cannot
    be sought, and every other operation throws the closed-file
    [runtime_error]: [seek], [tell], the accessors, and [read] and
    [readRaw] of a count other than zero.  Closing again changes
    nothing. *)
Theorem closed_reader_refuses :
  forall (f : ReadableAudioFile.t) (n : Z),
    let g := ReadableAudioFile.close f in
    ReadableAudioFile.isClosed g = true
    /\ ReadableAudioFile.isSeekable g = false
    /\ ReadableAudioFile.close g = g
    /\ ReadableAudioFile.seek g n = (Throws (runtime_error ClosedFile), g)
    /\ ReadableAudioFile.tell g = Throws (runtime_error ClosedFile)
    /\ ReadableAudioFile.getSampleRate g = Throws (runtime_error ClosedFile)
    /\ ReadableAudioFile.getLengthInSamples g
       = Throws (runtime_error ClosedFile)
    /\ ReadableAudioFile.getDuration g = Throws (runtime_error ClosedFile)
    /\ ReadableAudioFile.getNumChannels g = Throws (runtime_error ClosedFile)
    /\ ReadableAudioFile.getFileFormat g = Throws (runtime_error ClosedFile)
    /\ ReadableAudioFile.getFileDatatype g = Throws (runtime_error ClosedFile)
    /\ ReadableAudioFile.read g (if n =? 0 then 1 else n)
       = (Throws (runtime_error ClosedFile), g)
    /\ ReadableAudioFile.readRaw g (if n =? 0 then 1 else n)
       = (Throws (runtime_error ClosedFile), g).
Proof.
  intros f n g. subst g.
  repeat split; try reflexivity;
    unfold ReadableAudioFile.read, ReadableAudioFile.readRaw;
    destruct (n =? 0) eqn:E; try reflexivity; rewrite E; reflexivity.
Qed.

(** After [close ()] a writable stream answers [isClosed] with true;
    [write] (of any array) and [flush] throw the closed-file
    [runtime_error], and a second [close] throws too: closing a writer is
    not idempotent. *)
Theorem closed_writer_refuses :
  forall (detectChannelLayout : array_t sample -> exception + ChannelLayout)
         (fuel : nat) (ty : SampleType) (f : WriteableAudioFile.t)
         (inputArray : array_t sample),
    let g := WriteableAudioFile.mk (WriteableAudioFile.filename f)
               (WriteableAudioFile.quality f) None
               (WriteableAudioFile.framesWritten f) in
    (WriteableAudioFile.isClosed f = false ->
     WriteableAudioFile.close f = (Returns tt, g))
    /\ WriteableAudioFile.isClosed g = true
    /\ WriteableAudioFile.write detectChannelLayout fuel ty g inputArray
       = Some (Throws (runtime_error ClosedFile), g)
    /\ WriteableAudioFile.flush g = Throws (runtime_error ClosedFile)
    /\ WriteableAudioFile.close g
       = (Throws (runtime_error CannotCloseClosedFile), g).
Proof.
  intros detect fuel ty f a g. subst g. repeat split; try reflexivity.
  unfold WriteableAudioFile.isClosed, WriteableAudioFile.close.
  destruct (WriteableAudioFile.writer f); [reflexivity|discriminate].
Qed.

(* ===================================================================== *)
(** * The constants of the conversion *)
(* ===================================================================== *)

(** The three constants are exactly representable as [float]
    (0x7FFFFF00 = 16777214 * 2^7, ...), while [static_cast<float>] of
    0x7FFFFFFF rounds up to 2^31.  With its own constant, the largest
    sample of each depth reads as exactly 1.0; with the reciprocal of
    [float (0x7FFFFFFF)] the largest 16-bit sample would read as
    16776704 * 2^-24, less than 1. *)
Theorem depth_constants_are_exact :
  Float32.of_int 0x7FFFFF00 = S754_finite false 16777214 7
  /\ Float32.of_int 0x7FFF0000 = S754_finite false 16776704 7
  /\ Float32.of_int 0x7F000000 = S754_finite false 16646144 7
  /\ Float32.of_int 0x7FFFFFFF = S754_finite false 8388608 8
  /\ convertFixedToFloat (ReadableAudioFile.scaleFactor 0x7FFFFF00) 0x7FFFFF00
     = Float32.one
  /\ convertFixedToFloat (ReadableAudioFile.scaleFactor 0x7FFF0000) 0x7FFF0000
     = Float32.one
  /\ convertFixedToFloat (ReadableAudioFile.scaleFactor 0x7F000000) 0x7F000000
     = Float32.one
  /\ convertFixedToFloat (ReadableAudioFile.scaleFactor 0x7FFFFFFF) 0x7FFF0000
     = S754_finite false 16776704 (-24).
Proof.
  repeat split; vm_compute; reflexivity.
Qed.

(* ===================================================================== *)
(** * ReadableAudioFile: raw reads *)
(* ===================================================================== *)

Lemma readInteger_chunks_return (r : AudioFormatReader)
      (numChannels currentPosition numSamples : Z) :
  (forall start count, backend_read_ok r start count = true) ->
  0 <= numChannels ->
  Cpp.to_int numSamples = numSamples ->
  ReadableAudioFile.shift_of (bitsPerSample r) < 32 ->
  forall (k : nat) (startSample : Z),
    0 <= startSample ->
    Z.of_nat k * 8192 + startSample <= numSamples + 8191 ->
    ReadableAudioFile.readInteger_chunks k r numChannels currentPosition
      numSamples startSample = Returns tt.
Proof.
  intros Hok HC Hfit Hshift.
  induction k as [|k IH]; intros start Hstart Hk;
    cbn [ReadableAudioFile.readInteger_chunks]; [reflexivity|].
  rewrite Hok. cbn [negb].
  unfold DEFAULT_AUDIO_BUFFER_SIZE_FRAMES.
  assert (Hsize : Cpp.to_int (Z.min (numSamples - start) 8192)
                  = Z.min (numSamples - start) 8192)
    by (apply to_int_id; unfold Cpp.INT_MIN, Cpp.INT_MAX; lia).
  rewrite Hsize.
  assert (Hdefined : ReadableAudioFile.chunk_defined (bitsPerSample r)
                       numChannels numSamples start
                       (Z.min (numSamples - start) 8192) = true).
  { unfold ReadableAudioFile.chunk_defined.
    destruct (numChannels =? 0) eqn:E0; [reflexivity|].
    apply Z.eqb_neq in E0. cbn [orb].
    apply orb_true_iff. right. apply andb_true_iff. split.
    - apply Z.ltb_lt. exact Hshift.
    - apply Z.leb_le. rewrite Hfit, Z.mul_sub_distr_r. lia. }
  rewrite Hdefined. cbn [negb]. apply IH; lia.
Qed.

(** Raw reads give the file's own integers back.  On an open 16-bit or
    8-bit integer stream whose length and channel count fit in an [int],
    at a position in range and with a backend that delivers, [readRaw (n)]
    with [n > 0] returns an array of [short] or [char] of shape (channels,
    min (n, length - position)); each cell is the backend's left-aligned
    32-bit sample shifted right by [32 - bitsPerSample]; the position moves
    forward by the number of frames returned. *)
Theorem readRaw_restores_native_range :
  forall (f : ReadableAudioFile.t) (r : AudioFormatReader) (n : Z),
    ReadableAudioFile.reader f = Some r ->
    usesFloatingPointData r = false ->
    bitsPerSample r = 16 \/ bitsPerSample r = 8 ->
    0 < n ->
    position_in_range r f ->
    lengthInSamples r <= Cpp.INT_MAX ->
    0 <= numChannels r <= Cpp.INT_MAX ->
    (forall start count, backend_read_ok r start count = true) ->
    exists a,
      ReadableAudioFile.readRaw f n
      = (Returns (ReadableAudioFile.IntArray (native_type (bitsPerSample r)) a),
         ReadableAudioFile.set_position f
           (ReadableAudioFile.currentPosition f + actualFrames r f n))
      /\ shape a = [numChannels r; actualFrames r f n]
      /\ shifted_from r (ReadableAudioFile.currentPosition f) a.
Proof.
  intros f r n Hr Hfloat Hbits Hn Hpos HL HC Hok.
  unfold position_in_range in Hpos.
  assert (Ha : 0 <= actualFrames r f n <= Cpp.INT_MAX)
    by (unfold actualFrames; lia).
  assert (Hle : actualFrames r f n
                <= lengthInSamples r - ReadableAudioFile.currentPosition f)
    by (unfold actualFrames; lia).
  unfold Cpp.INT_MAX in *.
  assert (Hfit : Cpp.to_int (actualFrames r f n) = actualFrames r f n)
    by (apply to_int_id; unfold Cpp.INT_MIN, Cpp.INT_MAX; lia).
  assert (Hraw : forall ty,
             ty = native_type (bitsPerSample r) ->
             exists a,
               ReadableAudioFile.readInteger ty f n
               = (Returns a,
                  ReadableAudioFile.set_position f
                    (ReadableAudioFile.currentPosition f + actualFrames r f n))
               /\ shape a = [numChannels r; actualFrames r f n]
               /\ shifted_from r (ReadableAudioFile.currentPosition f) a).
  { intros ty Hty. unfold ReadableAudioFile.readInteger.
    rewrite Hr, Hfloat. fold (actualFrames r f n). rewrite Hfit.
    rewrite !to_int_id by (unfold Cpp.INT_MIN, Cpp.INT_MAX; lia).
    unfold array_t_2d_ok.
    replace (0 <=? numChannels r) with true by (symmetry; apply Z.leb_le; lia).
    replace (0 <=? actualFrames r f n) with true
      by (symmetry; apply Z.leb_le; lia).
    cbn [andb negb].
    replace (16 <? bitsPerSample r) with false
      by (symmetry; apply Z.ltb_ge; lia).
    assert (Hshift : ReadableAudioFile.shift_of (bitsPerSample r)
                     = 32 - bitsPerSample r)
      by (destruct Hbits as [-> | ->]; reflexivity).
    rewrite readInteger_chunks_return; try assumption; try lia.
    - eexists. split; [reflexivity|]. split; [reflexivity|].
      unfold shifted_from, rows, cols, cell. cbn [shape ptr nth].
      intros c i Hc Hi.
      replace (actualFrames r f n <=? 0) with false
        by (symmetry; apply Z.leb_gt; lia).
      rewrite filled_cell by assumption. rewrite Hshift, Hty. reflexivity.
    - unfold ReadableAudioFile.chunk_count, DEFAULT_AUDIO_BUFFER_SIZE_FRAMES.
      assert (0 <= (actualFrames r f n + 8192 - 1) / 8192)
        by (apply Z.div_pos; lia).
      rewrite Z2Nat.id by assumption.
      pose proof (Z.mul_div_le (actualFrames r f n + 8192 - 1) 8192 eq_refl).
      lia. }
  unfold ReadableAudioFile.readRaw. rewrite Hr, Hfloat.
  replace (n =? 0) with false by (symmetry; apply Z.eqb_neq; lia).
  destruct Hbits as [Hb|Hb].
  - destruct (Hraw T_short) as [a [Hread Hrest]];
      [rewrite Hb; reflexivity|].
    rewrite Hb. cbn [Z.eqb Pos.eqb]. rewrite <- Hb, Hread.
    exists a. rewrite Hb at 1. split; [reflexivity|exact Hrest].
  - destruct (Hraw T_char) as [a [Hread Hrest]];
      [rewrite Hb; reflexivity|].
    rewrite Hb. cbn [Z.eqb Pos.eqb]. rewrite <- Hb, Hread.
    exists a. rewrite Hb at 1. split; [reflexivity|exact Hrest].
Qed.

Lemma readRaw_restores_native_range_witness :
  exists a,
    ReadableAudioFile.readRaw Examples.short_wav 2
    = (Returns (ReadableAudioFile.IntArray T_short a),
       ReadableAudioFile.set_position Examples.short_wav 2)
    /\ shape a = [1; 2]
    /\ cell a 0 0 = Some 100 /\ cell a 0 1 = Some 200.
Proof.
  destruct (readRaw_restores_native_range Examples.short_wav
              (Examples.decoder 3 1 16) 2 eq_refl eq_refl
              (or_introl eq_refl))
    as [a [Hread [Hshape Hcells]]];
    try (cbn; unfold position_in_range, Cpp.INT_MAX; cbn; lia);
    try reflexivity.
  exists a. split; [exact Hread|]. split; [exact Hshape|].
  unfold shifted_from, rows, cols in Hcells. rewrite Hshape in Hcells.
  cbn [nth] in Hcells.
  split; [rewrite (Hcells 0 0)|rewrite (Hcells 0 1)];
    try reflexivity; cbn; lia.
Defined.

(** A raw read of an integer stream of any other depth than 32, 16 or 8
    bits (24 bits, say) throws, and leaves the stream as it was. *)
Theorem readRaw_unsupported_depth :
  forall (f : ReadableAudioFile.t) (r : AudioFormatReader) (n : Z),
    ReadableAudioFile.reader f = Some r ->
    usesFloatingPointData r = false ->
    bitsPerSample r <> 32 -> bitsPerSample r <> 16 -> bitsPerSample r <> 8 ->
    n <> 0 ->
    ReadableAudioFile.readRaw f n
    = (Throws (runtime_error (NotSureHowToRead (bitsPerSample r))), f).
Proof.
  intros f r n Hr Hfloat H32 H16 H8 Hn.
  apply Z.eqb_neq in H32, H16, H8, Hn.
  unfold ReadableAudioFile.readRaw. rewrite Hn, Hr, Hfloat, H32, H16, H8.
  reflexivity.
Qed.

Lemma readRaw_unsupported_depth_witness :
  ReadableAudioFile.readRaw (Examples.opened (Examples.decoder 3 2 24)) 1
  = (Throws (runtime_error (NotSureHowToRead 24)),
     Examples.opened (Examples.decoder 3 2 24)).
Proof.
  apply (readRaw_unsupported_depth (Examples.opened (Examples.decoder 3 2 24))
           (Examples.decoder 3 2 24) 1 eq_refl eq_refl); cbn; lia.
Defined.

(* ===================================================================== *)
(** * WriteableAudioFile: every frame reaches the encoder *)
(* ===================================================================== *)

Lemma frames_since_refl (w : AudioFormatWriter) : frames_since w w 0.
Proof.
  exists []. split; [now rewrite app_nil_r|reflexivity].
Qed.

Lemma frames_since_trans (w1 w2 w3 : AudioFormatWriter) (n m : Z) :
  frames_since w1 w2 n -> frames_since w2 w3 m -> frames_since w1 w3 (n + m).
Proof.
  intros [h1 [E1 S1]] [h2 [E2 S2]]. exists (h1 ++ h2). split.
  - rewrite E2, E1, app_assoc. reflexivity.
  - rewrite map_app, fold_right_app, S2.
    clear E1 E2 S2. revert n S1.
    induction h1 as [|c h1 IH]; intros n S1; cbn in *; [lia|].
    rewrite (IH _ eq_refl). lia.
Qed.

Lemma backend_frames (entry : backend_entry) (w w' : AudioFormatWriter)
      (data : channels) (numSamples : Z) (ok : bool) :
  WriteableAudioFile.backend entry w data numSamples = (ok, w') ->
  frames_since w w' numSamples.
Proof.
  unfold WriteableAudioFile.backend. intros H. injection H as _ <-.
  eexists. cbn [calls]. split; [reflexivity|]. cbn. lia.
Qed.

Lemma writeConvertingTo_frames
      (convert : option sample -> option sample)
      (write_target : AudioFormatWriter -> channels -> Z -> Z ->
                      option (bool * AudioFormatWriter)) :
  (forall w d c n w',
      0 <= n <= DEFAULT_AUDIO_BUFFER_SIZE_FRAMES ->
      write_target w d c n = Some (true, w') -> frames_since w w' n) ->
  forall (fuel : nat) (w : AudioFormatWriter) (data : channels)
         (numChannels numSamples startSample : Z) (w' : AudioFormatWriter),
    counter_reaches numSamples ->
    0 <= startSample ->
    WriteableAudioFile.writeConvertingTo fuel convert write_target w data
      numChannels numSamples startSample = Some (true, w') ->
    frames_since w w' (Z.max 0 (numSamples - startSample)).
Proof.
  intros Htarget fuel. unfold counter_reaches.
  induction fuel as [|fuel IH]; intros w data nc ns start w' Hns Hstart H;
    cbn [WriteableAudioFile.writeConvertingTo] in H; [discriminate H|].
  destruct (start <? ns) eqn:Hlt.
  - apply Z.ltb_lt in Hlt.
    destruct (chunk_size ns start) as [Hmin [Hu Hsize]];
      [lia|unfold Cpp.UINT_MAX, DEFAULT_AUDIO_BUFFER_SIZE_FRAMES in *; lia|].
    cbv zeta in Hmin, Hu, Hsize. rewrite Hu in H.
    match type of H with
    | context [write_target ?a ?b ?c ?d] =>
        destruct (write_target a b c d) as [[[|] w1]|] eqn:Hchunk;
          try discriminate H
    end.
    apply Htarget in Hchunk; [|lia].
    unfold Cpp.UINT_MAX, DEFAULT_AUDIO_BUFFER_SIZE_FRAMES in *.
    rewrite to_unsigned_id in H by (unfold Cpp.UINT_MAX; lia).
    apply IH in H; [|lia|lia].
    pose proof (frames_since_trans _ _ _ _ _ Hchunk H) as Hall.
    rewrite Hmin in Hall.
    replace (Z.max 0 (ns - start))
      with (Z.min (ns - start) 8192 + Z.max 0 (ns - (start + 8192))) by lia.
    exact Hall.
  - apply Z.ltb_ge in Hlt. injection H as <-.
    replace (Z.max 0 (ns - start)) with 0 by lia. apply frames_since_refl.
Qed.

Lemma write_float_frames (w : AudioFormatWriter) (data : channels)
      (numChannels numSamples : Z) (w' : AudioFormatWriter) :
  0 <= numSamples <= Cpp.INT_MAX ->
  WriteableAudioFile.write_float w data numChannels numSamples
  = Some (true, w') ->
  frames_since w w' numSamples.
Proof.
  unfold WriteableAudioFile.write_float. intros Hn H.
  rewrite to_int_id in H by (unfold Cpp.INT_MIN, Cpp.INT_MAX in *; lia).
  destruct (isFloatingPoint w); apply Some_eq in H;
    eapply backend_frames; exact H.
Qed.

Lemma chunk_fits_int (n : Z) :
  0 <= n <= DEFAULT_AUDIO_BUFFER_SIZE_FRAMES ->
  0 <= n <= Cpp.INT_MAX /\ counter_reaches n.
Proof.
  unfold DEFAULT_AUDIO_BUFFER_SIZE_FRAMES, Cpp.INT_MAX, counter_reaches,
    Cpp.UINT_MAX, DEFAULT_AUDIO_BUFFER_SIZE_FRAMES.
  lia.
Qed.

Lemma write_int_frames (fuel : nat) (w : AudioFormatWriter) (data : channels)
      (numChannels numSamples : Z) (w' : AudioFormatWriter) :
  0 <= numSamples <= Cpp.INT_MAX ->
  WriteableAudioFile.write_int fuel w data numChannels numSamples
  = Some (true, w') ->
  frames_since w w' numSamples.
Proof.
  unfold WriteableAudioFile.write_int. intros Hn H.
  destruct (isFloatingPoint w).
  - eapply writeConvertingTo_frames in H.
    + replace (Z.max 0 (numSamples - 0)) with numSamples in H by lia. exact H.
    + intros w0 d c n w0' Hc Hw. eapply write_float_frames; [|exact Hw].
      apply chunk_fits_int. exact Hc.
    + unfold counter_reaches, Cpp.UINT_MAX, Cpp.INT_MAX,
        DEFAULT_AUDIO_BUFFER_SIZE_FRAMES in *. lia.
    + lia.
  - rewrite to_int_id in H by (unfold Cpp.INT_MIN, Cpp.INT_MAX in *; lia).
    apply Some_eq in H. eapply backend_frames; exact H.
Qed.

Lemma write_channels_frames (ty : SampleType) (fuel : nat)
      (w : AudioFormatWriter) (data : channels) (numChannels numSamples : Z)
      (w' : AudioFormatWriter) :
  0 <= numSamples <= Cpp.INT_MAX ->
  WriteableAudioFile.write_channels ty fuel w data numChannels numSamples
  = Some (true, w') ->
  frames_since w w' numSamples.
Proof.
  intros Hn.
  assert (Hreach : counter_reaches numSamples)
    by (unfold counter_reaches, Cpp.UINT_MAX, Cpp.INT_MAX,
          DEFAULT_AUDIO_BUFFER_SIZE_FRAMES in *; lia).
  assert (Hint : forall w d c n w',
             0 <= n <= DEFAULT_AUDIO_BUFFER_SIZE_FRAMES ->
             WriteableAudioFile.write_int fuel w d c n = Some (true, w') ->
             frames_since w w' n).
  { intros w0 d c n w0' Hc Hw. eapply write_int_frames; [|exact Hw].
    apply chunk_fits_int. exact Hc. }
  assert (Hfloat : forall w d c n w',
             0 <= n <= DEFAULT_AUDIO_BUFFER_SIZE_FRAMES ->
             WriteableAudioFile.write_float w d c n = Some (true, w') ->
             frames_since w w' n).
  { intros w0 d c n w0' Hc Hw. eapply write_float_frames; [|exact Hw].
    apply chunk_fits_int. exact Hc. }
  assert (Hloop : forall convert target,
             (forall w d c n w',
                 0 <= n <= DEFAULT_AUDIO_BUFFER_SIZE_FRAMES ->
                 target w d c n = Some (true, w') -> frames_since w w' n) ->
             WriteableAudioFile.writeConvertingTo fuel convert target w data
               numChannels numSamples 0 = Some (true, w') ->
             frames_since w w' numSamples).
  { intros convert target Ht H.
    eapply writeConvertingTo_frames in H; [|exact Ht|exact Hreach|lia].
    replace (Z.max 0 (numSamples - 0)) with numSamples in H by lia. exact H. }
  destruct ty; cbn [WriteableAudioFile.write_channels]; intros H.
  - eapply Hloop; [|exact H]; assumption.
  - eapply Hloop; [|exact H]; assumption.
  - eapply write_int_frames; eassumption.
  - eapply write_float_frames; eassumption.
  - eapply Hloop; [|exact H]; assumption.
Qed.

Lemma write_interleaved_frames (fuel0 : nat) (ty : SampleType)
      (inputArray : array_t sample) (numChannels numSamples : Z) :
  counter_reaches numSamples ->
  forall (fuel : nat) (w : AudioFormatWriter) (startSample : Z)
         (w' : AudioFormatWriter),
    WriteableAudioFile.write_interleaved fuel0 fuel ty w inputArray numChannels
      numSamples startSample = Some (true, w') ->
    frames_since w w' (Z.max 0 (numSamples - Cpp.to_unsigned startSample)).
Proof.
  intros Hns. pose proof Hns as Hrange. unfold counter_reaches in Hrange.
  assert (Hu0 : forall z, 0 <= Cpp.to_unsigned z).
  { intros z. unfold Cpp.to_unsigned, Cpp.to_unsigned_bits.
    apply Z.mod_pos_bound. reflexivity. }
  induction fuel as [|fuel IH]; intros w start w' H;
    cbn [WriteableAudioFile.write_interleaved] in H; [discriminate H|].
  pose proof (Hu0 start) as Hstart.
  destruct (Cpp.to_unsigned start <? numSamples) eqn:Hlt.
  - apply Z.ltb_lt in Hlt.
    destruct (chunk_size numSamples (Cpp.to_unsigned start))
      as [Hmin [Hu Hsize]];
      [lia|unfold Cpp.UINT_MAX, DEFAULT_AUDIO_BUFFER_SIZE_FRAMES in *; lia|].
    cbv zeta in Hmin, Hu, Hsize. rewrite Hu in H.
    match type of H with
    | context [WriteableAudioFile.write_channels ?a ?b ?c ?d ?e ?g] =>
        destruct (WriteableAudioFile.write_channels a b c d e g)
          as [[[|] w1]|] eqn:Hchunk; try discriminate H
    end.
    apply write_channels_frames in Hchunk;
      [|apply chunk_fits_int; lia].
    apply IH in H.
    rewrite to_unsigned_to_int in H.
    unfold Cpp.UINT_MAX, DEFAULT_AUDIO_BUFFER_SIZE_FRAMES in *.
    rewrite (to_unsigned_id (Cpp.to_unsigned start + 8192)) in H
      by (unfold Cpp.UINT_MAX; lia).
    pose proof (frames_since_trans _ _ _ _ _ Hchunk H) as Hall.
    rewrite Hmin in Hall.
    replace (Z.max 0 (numSamples - Cpp.to_unsigned start))
      with (Z.min (numSamples - Cpp.to_unsigned start) 8192
            + Z.max 0 (numSamples - (Cpp.to_unsigned start + 8192))) by lia.
    exact Hall.
  - apply Z.ltb_ge in Hlt. injection H as <-.
    replace (Z.max 0 (numSamples - Cpp.to_unsigned start)) with 0 by lia.
    apply frames_since_refl.
Qed.

(** When [write] returns for an array of at most [INT_MAX] frames with at
    least one channel, the calls it made to the encoder handed over, chunk
    after chunk, exactly the frames of the array: their counts add up to
    the frame count by which the counter then moves. *)
Theorem write_hands_over_every_frame :
  forall (detectChannelLayout : array_t sample -> exception + ChannelLayout)
         (fuel : nat) (ty : SampleType) (f f' : WriteableAudioFile.t)
         (w : AudioFormatWriter) (inputArray : array_t sample)
         (numChannels numSamples : Z),
    WriteableAudioFile.writer f = Some w ->
    WriteableAudioFile.channelsAndSamples (writer_numChannels w)
                                          (shape inputArray)
    = Returns (numChannels, numSamples) ->
    numChannels <> 0 ->
    0 <= numSamples <= Cpp.INT_MAX ->
    WriteableAudioFile.write detectChannelLayout fuel ty f inputArray
    = Some (Returns tt, f') ->
    exists w',
      WriteableAudioFile.writer f' = Some w'
      /\ frames_since w w' numSamples
      /\ accepted_since w w'.
Proof.
  intros detect fuel ty f f' w a nc ns Hw Hshape Hnc Hns H.
  pose proof H as Hwrite.
  unfold WriteableAudioFile.write in H. rewrite Hw, Hshape in H.
  apply Z.eqb_neq in Hnc. rewrite Hnc in H.
  assert (Hreach : counter_reaches ns)
    by (unfold counter_reaches, Cpp.UINT_MAX, Cpp.INT_MAX,
          DEFAULT_AUDIO_BUFFER_SIZE_FRAMES in *; lia).
  destruct (detect a) as [e'|layout]; [discriminate H|].
  destruct (negb (nc =? writer_numChannels w)); [discriminate H|].
  destruct layout.
  - destruct (WriteableAudioFile.write_interleaved _ _ _ _ _ _ _ _)
      as [[[|] w']|] eqn:Hloop; try discriminate H.
    injection H as <-. exists w'. cbn. split; [reflexivity|]. split.
    + apply (write_interleaved_frames fuel ty a nc ns Hreach) in Hloop.
      change (Cpp.to_unsigned 0) with 0 in Hloop.
      replace (Z.max 0 (ns - 0)) with ns in Hloop by lia. exact Hloop.
    + eapply write_interleaved_accepted; exact Hloop.
  - destruct (WriteableAudioFile.write_planar _ _ _ _ _ _)
      as [[[|] w']|] eqn:Hloop; try discriminate H.
    injection H as <-. exists w'. cbn. split; [reflexivity|]. split.
    + eapply write_channels_frames; [exact Hns|exact Hloop].
    + eapply write_channels_accepted; exact Hloop.
  - discriminate H.
Qed.

Lemma write_hands_over_every_frame_witness :
  exists f' w',
    WriteableAudioFile.write (Examples.always Interleaved) 8 T_short
      (Examples.writing 2 7) (Examples.ramp [10000; 2])
    = Some (Returns tt, f')
    /\ WriteableAudioFile.writer f' = Some w'
    /\ frames_since (Examples.encoder 2 16 false) w' 10000.
Proof.
  destruct (fun Hc Hn =>
              write_hands_over_every_frame (Examples.always Interleaved) 8
                T_short (Examples.writing 2 7) _ (Examples.encoder 2 16 false)
                (Examples.ramp [10000; 2]) 2 10000 eq_refl eq_refl Hc Hn
                eq_refl)
    as [w' [Hw [Hframes _]]].
  - lia.
  - unfold Cpp.INT_MAX. lia.
  - eexists. exists w'. split; [reflexivity|].
    split; [exact Hw|exact Hframes].
Defined.

(* ===================================================================== *)
(** * WriteableAudioFile: an encoder that accepts every call *)
(* ===================================================================== *)

Lemma backend_never_refuses (entry : backend_entry) :
  never_refuses (fun w data _ numSamples =>
                   Some (WriteableAudioFile.backend entry w data numSamples)).
Proof.
  intros w data nc ns ok w' Hall H. apply Some_eq in H.
  unfold WriteableAudioFile.backend in H. injection H as <- <-.
  split; [apply Hall|exact Hall].
Qed.

Lemma writeConvertingTo_never_refuses
      (convert : option sample -> option sample)
      (write_target : AudioFormatWriter -> channels -> Z -> Z ->
                      option (bool * AudioFormatWriter)) :
  never_refuses write_target ->
  forall (fuel : nat) (numSamples startSample : Z),
    never_refuses (fun w data numChannels _ =>
                     WriteableAudioFile.writeConvertingTo fuel convert
                       write_target w data numChannels numSamples
                       startSample).
Proof.
  intros Htarget fuel ns.
  induction fuel as [|fuel IH]; intros start w data nc unused ok w' Hall H;
    cbn [WriteableAudioFile.writeConvertingTo] in H; [discriminate|].
  destruct (start <? ns).
  - match type of H with
    | context [write_target ?a ?b ?c ?d] =>
        destruct (write_target a b c d) as [[[|] w1]|] eqn:Hchunk;
          [|destruct (Htarget _ _ _ _ _ _ Hall Hchunk); discriminate
           |discriminate]
    end.
    destruct (Htarget _ _ _ _ _ _ Hall Hchunk) as [_ Hall1].
    exact (IH _ w1 data nc unused ok w' Hall1 H).
  - injection H as <- <-. auto.
Qed.

Lemma write_float_never_refuses :
  never_refuses WriteableAudioFile.write_float.
Proof.
  intros w data nc ns ok w' Hall H. unfold WriteableAudioFile.write_float in H.
  destruct (isFloatingPoint w);
    eapply (backend_never_refuses _ w data nc); eassumption.
Qed.

Lemma write_int_never_refuses (fuel : nat) :
  never_refuses (WriteableAudioFile.write_int fuel).
Proof.
  intros w data nc ns ok w' Hall H. unfold WriteableAudioFile.write_int in H.
  destruct (isFloatingPoint w).
  - exact (writeConvertingTo_never_refuses _ _ write_float_never_refuses
             fuel ns 0 w data nc ns ok w' Hall H).
  - eapply (backend_never_refuses _ w data nc); eassumption.
Qed.

Lemma write_channels_never_refuses (ty : SampleType) (fuel : nat) :
  never_refuses (WriteableAudioFile.write_channels ty fuel).
Proof.
  intros w data nc ns ok w' Hall H.
  destruct ty; cbn [WriteableAudioFile.write_channels] in H.
  - exact (writeConvertingTo_never_refuses _ _ (write_int_never_refuses fuel)
             fuel ns 0 w data nc ns ok w' Hall H).
  - exact (writeConvertingTo_never_refuses _ _ (write_int_never_refuses fuel)
             fuel ns 0 w data nc ns ok w' Hall H).
  - exact (write_int_never_refuses fuel w data nc ns ok w' Hall H).
  - exact (write_float_never_refuses w data nc ns ok w' Hall H).
  - exact (writeConvertingTo_never_refuses _ _ write_float_never_refuses
             fuel ns 0 w data nc ns ok w' Hall H).
Qed.

Lemma write_interleaved_never_refuses (fuel0 : nat) (ty : SampleType)
      (inputArray : array_t sample) (numChannels numSamples : Z) :
  forall (fuel : nat) (w : AudioFormatWriter) (startSample : Z) ok w',
    accepts_all w ->
    WriteableAudioFile.write_interleaved fuel0 fuel ty w inputArray
      numChannels numSamples startSample = Some (ok, w') ->
    ok = true /\ accepts_all w'.
Proof.
  induction fuel as [|fuel IH]; intros w start ok w' Hall H;
    cbn [WriteableAudioFile.write_interleaved] in H; [discriminate|].
  destruct (Cpp.to_unsigned start <? numSamples).
  - match type of H with
    | context [WriteableAudioFile.write_channels ?a ?b ?c ?d ?e ?g] =>
        destruct (WriteableAudioFile.write_channels a b c d e g)
          as [[[|] w1]|] eqn:Hchunk;
          [|destruct (write_channels_never_refuses _ _ _ _ _ _ _ _ Hall Hchunk);
            discriminate
           |discriminate]
    end.
    destruct (write_channels_never_refuses _ _ _ _ _ _ _ _ Hall Hchunk)
      as [_ Hall1].
    exact (IH w1 _ ok w' Hall1 H).
  - injection H as <- <-. auto.
Qed.

(** With an encoder that accepts every call, [write] succeeds: for
    an open file, a layout that was detected as interleaved or planar, a
    shape whose channel axis matches the file and whose axes are at most
    2^32 - 8192 long, and one unit of fuel per chunk and two more, [write]
    returns. *)
Theorem write_succeeds :
  forall (detectChannelLayout : array_t sample -> exception + ChannelLayout)
         (fuel : nat) (ty : SampleType) (f : WriteableAudioFile.t)
         (w : AudioFormatWriter) (inputArray : array_t sample)
         (numChannels numSamples : Z),
    WriteableAudioFile.writer f = Some w ->
    accepts_all w ->
    detectChannelLayout inputArray = inr Interleaved
    \/ detectChannelLayout inputArray = inr NotInterleaved ->
    WriteableAudioFile.channelsAndSamples (writer_numChannels w)
      (shape inputArray) = Returns (numChannels, numSamples) ->
    numChannels = writer_numChannels w ->
    frames_within fuel (shape inputArray) ->
    exists f' : WriteableAudioFile.t,
      WriteableAudioFile.write detectChannelLayout fuel ty f inputArray
      = Some (Returns tt, f').
Proof.
  intros detect fuel ty f w a nc ns Hw Hall Hlayout Hshape Hnc Hwithin.
  unfold WriteableAudioFile.write. rewrite Hw.
  destruct (channelsAndSamples_within _ _ _ _ _ Hwithin Hshape) as [Hc Hf].
  assert (Hdetect : exists layout,
             detect a = inr layout /\ layout <> Undetermined).
  { destruct Hlayout as [-> | ->]; eexists; split; eauto; discriminate. }
  destruct Hdetect as [layout [-> Hknown]]. rewrite Hshape.
  destruct (nc =? 0); [eauto|].
  rewrite <- Hnc, Z.eqb_refl. cbn [negb].
  destruct layout; [| |now elim Hknown].
  - pose proof (write_interleaved_returns fuel ty a nc ns Hc Hf fuel w 0)
      as Hloop.
    change (Cpp.to_unsigned 0) with 0 in Hloop.
    destruct (WriteableAudioFile.write_interleaved _ _ _ _ _ _ _ _)
      as [[[|] w']|] eqn:Hrun; [eauto| |].
    + destruct (write_interleaved_never_refuses _ _ _ _ _ _ _ _ _ _ Hall Hrun).
      discriminate.
    + exfalso. apply Hloop; [|apply enough_fuel_for; [lia|exact Hf]|reflexivity].
      unfold counter_reaches in Hc. lia.
  - pose proof (write_channels_returns ty fuel w
                  (fun c i => ptr a (Cpp.to_unsigned (ns * c) + i))
                  (Cpp.to_int nc) ns Hc Hf) as Hcall.
    unfold WriteableAudioFile.write_planar.
    destruct (WriteableAudioFile.write_channels _ _ _ _ _ _)
      as [[[|] w']|] eqn:Hrun; [eauto| |contradiction].
    destruct (write_channels_never_refuses _ _ _ _ _ _ _ _ Hall Hrun).
    discriminate.
Qed.

Lemma write_succeeds_witness :
  exists f' : WriteableAudioFile.t,
    WriteableAudioFile.write (Examples.always NotInterleaved) 4 T_float
      (Examples.writing 2 5) (Examples.ramp [2; 9000])
    = Some (Returns tt, f').
Proof.
  refine (write_succeeds (Examples.always NotInterleaved) 4 T_float
            (Examples.writing 2 5) (Examples.encoder 2 16 false)
            (Examples.ramp [2; 9000]) 2 9000 eq_refl _ (or_intror eq_refl)
            eq_refl eq_refl _).
  - intros k. reflexivity.
  - repeat constructor;
      unfold counter_reaches, enough_fuel, Cpp.UINT_MAX,
        DEFAULT_AUDIO_BUFFER_SIZE_FRAMES; cbn; lia.
Defined.

(* ===================================================================== *)
(** * ReadableAudioFile: what a read returns *)
(* ===================================================================== *)

Lemma set_position_same (f : ReadableAudioFile.t) :
  ReadableAudioFile.set_position f (ReadableAudioFile.currentPosition f) = f.
Proof. destruct f. reflexivity. Qed.

(** Whenever [read] returns, the shape, the new position and every cell
    are determined by the reader and the position. *)
Lemma read_returns_cells (f f' : ReadableAudioFile.t) (r : AudioFormatReader)
      (n : Z) (buf : array_t Float32.t) :
  ReadableAudioFile.reader f = Some r ->
  ReadableAudioFile.read f n = (Returns buf, f') ->
  shape buf = [Cpp.to_int (numChannels r); Cpp.to_int (actualFrames r f n)]
  /\ array_t_2d_ok (Cpp.to_int (numChannels r))
                   (Cpp.to_int (actualFrames r f n)) = true
  /\ f' = ReadableAudioFile.set_position f
            (Cpp.to_int (ReadableAudioFile.currentPosition f
                         + actualFrames r f n))
  /\ decoded_from r (ReadableAudioFile.currentPosition f) buf.
Proof.
  intros Hr H. unfold ReadableAudioFile.read in H. rewrite Hr in H.
  fold (actualFrames r f n) in H.
  branch H.
  destruct (array_t_2d_ok _ _) eqn:Hshape; cbn [negb] in H;
    [|discriminate H].
  branch H.
  assert (Hcells : forall sample,
             (forall c j, decoded r c j = Some (sample c j)) ->
             decoded_from r (ReadableAudioFile.currentPosition f)
               (mk_array [Cpp.to_int (numChannels r);
                          Cpp.to_int (actualFrames r f n)]
                  (ReadableAudioFile.filled (Cpp.to_int (numChannels r))
                     (Cpp.to_int (actualFrames r f n))
                     (fun c i =>
                        sample c (ReadableAudioFile.currentPosition f + i))))).
  { intros sample Hsample. unfold decoded_from, rows, cols, cell.
    cbn [shape ptr nth]. intros c i Hc Hi.
    rewrite filled_cell by assumption. eexists. split; [apply Hsample|].
    reflexivity. }
  destruct (usesFloatingPointData r || (bitsPerSample r =? 32)) eqn:Hdirect.
  - branch H. injection H as <- <-.
    repeat split; try reflexivity.
    apply (Hcells (backend_float_sample r)).
    intros c j. unfold decoded. rewrite Hdirect. reflexivity.
  - branch H.
    destruct (ReadableAudioFile.maxValueAsInt (bitsPerSample r)) as [m|] eqn:Hm;
      [|discriminate H].
    injection H as <- <-.
    repeat split; try reflexivity.
    apply (Hcells (fun c j =>
                     convertFixedToFloat (ReadableAudioFile.scaleFactor m)
                                         (backend_int_sample r c j))).
    intros c j. unfold decoded. rewrite Hdirect, Hm. reflexivity.
Qed.

(** The frame count of a read, and the position after it, fit in an
    [int] when the length does and the position is in range. *)
Lemma frames_fit (r : AudioFormatReader) (f : ReadableAudioFile.t) (n : Z) :
  position_in_range r f ->
  lengthInSamples r <= Cpp.INT_MAX ->
  0 < n ->
  0 <= actualFrames r f n
  /\ actualFrames r f n
     <= lengthInSamples r - ReadableAudioFile.currentPosition f
  /\ Cpp.to_int (actualFrames r f n) = actualFrames r f n
  /\ Cpp.to_int (ReadableAudioFile.currentPosition f + actualFrames r f n)
     = ReadableAudioFile.currentPosition f + actualFrames r f n.
Proof.
  unfold position_in_range, actualFrames, Cpp.INT_MAX. intros Hpos HL Hn.
  split; [lia|]. split; [lia|].
  split; apply to_int_id; unfold Cpp.INT_MIN, Cpp.INT_MAX; lia.
Qed.

(** On a floating-point stream, and on a 32-bit integer one, [read] hands
    the backend's [float] samples over unscaled.  Where the length and the
    channel count fit in an [int], the position is in range and the
    backend delivers, [read (n)] with [n > 0] returns an array of shape
    (channels, min (n, length - position)) whose every cell is the
    backend's sample of its frame, and moves the position forward by the
    frames returned. *)
Theorem read_float_path_is_verbatim :
  forall (f : ReadableAudioFile.t) (r : AudioFormatReader) (n : Z),
    ReadableAudioFile.reader f = Some r ->
    usesFloatingPointData r = true \/ bitsPerSample r = 32 ->
    0 < n ->
    position_in_range r f ->
    lengthInSamples r <= Cpp.INT_MAX ->
    0 <= numChannels r <= Cpp.INT_MAX ->
    backend_read_ok r (ReadableAudioFile.currentPosition f)
                    (actualFrames r f n) = true ->
    exists buf,
      ReadableAudioFile.read f n
      = (Returns buf,
         ReadableAudioFile.set_position f
           (ReadableAudioFile.currentPosition f + actualFrames r f n))
      /\ shape buf = [numChannels r; actualFrames r f n]
      /\ verbatim_from r (ReadableAudioFile.currentPosition f) buf.
Proof.
  intros f r n Hr Hdirect Hn Hpos HL HC Hok.
  destruct (frames_fit r f n Hpos HL Hn) as [Ha [_ [Hfit Hnext]]].
  assert (Hpath : usesFloatingPointData r || (bitsPerSample r =? 32) = true).
  { destruct Hdirect as [-> | ->]; [reflexivity|apply orb_true_r]. }
  unfold ReadableAudioFile.read. rewrite Hr.
  replace (n =? 0) with false by (symmetry; apply Z.eqb_neq; lia).
  fold (actualFrames r f n). rewrite Hfit, Hnext.
  rewrite (to_int_id (numChannels r))
    by (unfold Cpp.INT_MIN, Cpp.INT_MAX in *; lia).
  rewrite raw_access_of_int by exact Hfit.
  unfold array_t_2d_ok.
  replace (0 <=? numChannels r) with true by (symmetry; apply Z.leb_le; lia).
  replace (0 <=? actualFrames r f n) with true
    by (symmetry; apply Z.leb_le; lia).
  rewrite Hpath, Hok. cbn [andb negb].
  eexists. split; [reflexivity|]. split; [reflexivity|].
  unfold verbatim_from, rows, cols, cell. cbn [shape ptr nth].
  intros c i Hc Hi. rewrite filled_cell by assumption. reflexivity.
Qed.

Lemma read_float_path_is_verbatim_witness :
  exists buf,
    ReadableAudioFile.read Fixtures.float_wav 3
    = (Returns buf, ReadableAudioFile.set_position Fixtures.float_wav 3)
    /\ shape buf = [2; 3]
    /\ cell buf 1 2 = Some (Float32.of_int 3).
Proof.
  destruct (read_float_path_is_verbatim Fixtures.float_wav
              (Fixtures.float_decoder 4 2) 3 eq_refl (or_introl eq_refl))
    as [buf [Hread [Hshape Hcells]]];
    try (cbn; unfold position_in_range, Cpp.INT_MAX; cbn; lia);
    try reflexivity.
  exists buf. split; [exact Hread|]. split; [exact Hshape|].
  unfold verbatim_from, rows, cols in Hcells. rewrite Hshape in Hcells.
  cbn [nth] in Hcells.
  rewrite (Hcells 1 2) by (unfold actualFrames; cbn; lia). reflexivity.
Defined.

(** A raw read of a 32-bit integer stream gives the backend's integers
    back as they are.  Where the length and the channel count fit in an
    [int], the position is in range and the backend delivers,
    [readRaw (n)] with [n > 0] returns an [int] array of shape (channels,
    min (n, length - position)) whose every cell is the backend's sample
    of its frame, and moves the position forward by the frames
    returned. *)
Theorem readRaw_wide_is_verbatim :
  forall (f : ReadableAudioFile.t) (r : AudioFormatReader) (n : Z),
    ReadableAudioFile.reader f = Some r ->
    usesFloatingPointData r = false ->
    bitsPerSample r = 32 ->
    0 < n ->
    position_in_range r f ->
    lengthInSamples r <= Cpp.INT_MAX ->
    0 <= numChannels r <= Cpp.INT_MAX ->
    backend_read_ok r (ReadableAudioFile.currentPosition f)
                    (actualFrames r f n) = true ->
    exists a,
      ReadableAudioFile.readRaw f n
      = (Returns (ReadableAudioFile.IntArray T_int a),
         ReadableAudioFile.set_position f
           (ReadableAudioFile.currentPosition f + actualFrames r f n))
      /\ shape a = [numChannels r; actualFrames r f n]
      /\ verbatim_int_from r (ReadableAudioFile.currentPosition f) a.
Proof.
  intros f r n Hr Hfloat Hbits Hn Hpos HL HC Hok.
  destruct (frames_fit r f n Hpos HL Hn) as [Ha [_ [Hfit Hnext]]].
  unfold ReadableAudioFile.readRaw. rewrite Hr, Hfloat, Hbits.
  replace (n =? 0) with false by (symmetry; apply Z.eqb_neq; lia).
  cbn [Z.eqb Pos.eqb].
  unfold ReadableAudioFile.readInteger. rewrite Hr, Hfloat, Hbits.
  fold (actualFrames r f n). rewrite Hfit, Hnext.
  rewrite (to_int_id (numChannels r))
    by (unfold Cpp.INT_MIN, Cpp.INT_MAX in *; lia).
  rewrite raw_access_of_int by exact Hfit.
  unfold array_t_2d_ok.
  replace (0 <=? numChannels r) with true by (symmetry; apply Z.leb_le; lia).
  replace (0 <=? actualFrames r f n) with true
    by (symmetry; apply Z.leb_le; lia).
  rewrite Hok. cbn.
  eexists. split; [reflexivity|]. split; [reflexivity|].
  unfold verbatim_int_from, rows, cols, cell. cbn [shape ptr nth].
  intros c i Hc Hi. rewrite filled_cell by assumption. reflexivity.
Qed.

Lemma readRaw_wide_is_verbatim_witness :
  exists a,
    ReadableAudioFile.readRaw Fixtures.wide_wav 2
    = (Returns (ReadableAudioFile.IntArray T_int a),
       ReadableAudioFile.set_position Fixtures.wide_wav 2)
    /\ shape a = [1; 2]
    /\ cell a 0 1 = Some 200.
Proof.
  destruct (readRaw_wide_is_verbatim Fixtures.wide_wav
              (Examples.decoder 3 1 32) 2 eq_refl eq_refl eq_refl)
    as [a [Hread [Hshape Hcells]]];
    try (cbn; unfold position_in_range, Cpp.INT_MAX; cbn; lia);
    try reflexivity.
  exists a. split; [exact Hread|]. split; [exact Hshape|].
  unfold verbatim_int_from, rows, cols in Hcells. rewrite Hshape in Hcells.
  cbn [nth] in Hcells.
  rewrite (Hcells 0 1) by (unfold actualFrames; cbn; lia). reflexivity.
Defined.

Lemma as_int_array_returns (ty ty' : SampleType)
      (o : outcome (array_t Z) * ReadableAudioFile.t) (a : array_t Z)
      (f' : ReadableAudioFile.t) :
  ReadableAudioFile.as_int_array ty o
  = (Returns (ReadableAudioFile.IntArray ty' a), f') ->
  ty' = ty /\ o = (Returns a, f').
Proof.
  destruct o as [[b|e|] g]; cbn; intros H; try discriminate H.
  injection H as <- <- <-. auto.
Qed.

(** The element type of the array [readRaw] returns is the one the
    stream's datatype tag names: an integer array of [char], [short] or
    [int] comes from a stream tagged int8, int16 or int32.  A [float]
    array comes from a floating-point stream only, and is the array
    [read] returns for the same count. *)
Theorem readRaw_type_matches_file_dtype :
  forall (f f' : ReadableAudioFile.t) (n : Z),
    (forall ty a,
        ReadableAudioFile.readRaw f n
        = (Returns (ReadableAudioFile.IntArray ty a), f') ->
        ReadableAudioFile.getFileDatatype f = Returns (dtype_name ty))
    /\ (forall buf,
           ReadableAudioFile.readRaw f n
           = (Returns (ReadableAudioFile.FloatArray buf), f') ->
           ReadableAudioFile.read f n = (Returns buf, f')
           /\ exists r,
               ReadableAudioFile.reader f = Some r
               /\ usesFloatingPointData r = true).
Proof.
  intros f f' n. unfold ReadableAudioFile.readRaw, ReadableAudioFile.getFileDatatype.
  destruct (n =? 0); [split; intros; discriminate|].
  destruct (ReadableAudioFile.reader f) as [r|]; [|split; intros; discriminate].
  destruct (usesFloatingPointData r) eqn:Hfloat.
  { destruct (ReadableAudioFile.read f n) as [[b|e|] g];
      split; intros; try discriminate.
    match goal with H : _ = _ |- _ => injection H as <- <- end.
    split; [reflexivity|]. exists r. auto. }
  unfold ReadableAudioFile.datatype_name.
  destruct (bitsPerSample r =? 32) eqn:E32.
  { apply Z.eqb_eq in E32. rewrite E32. split.
    - intros ty a H. apply as_int_array_returns in H. destruct H as [-> _].
      reflexivity.
    - intros buf H.
      destruct (ReadableAudioFile.readInteger T_int f n) as [[b|e|] g];
        discriminate H. }
  destruct (bitsPerSample r =? 16) eqn:E16.
  { apply Z.eqb_eq in E16. rewrite E16. split.
    - intros ty a H. apply as_int_array_returns in H. destruct H as [-> _].
      reflexivity.
    - intros buf H.
      destruct (ReadableAudioFile.readInteger T_short f n) as [[b|e|] g];
        discriminate H. }
  destruct (bitsPerSample r =? 8) eqn:E8.
  { split.
    - intros ty a H. apply as_int_array_returns in H. destruct H as [-> _].
      reflexivity.
    - intros buf H.
      destruct (ReadableAudioFile.readInteger T_char f n) as [[b|e|] g];
        discriminate H. }
  split; intros; discriminate.
Qed.

(** A negative frame count that fits in an [int] is refused: [std::min]
    keeps it, the array cannot be created with a negative dimension, and
    [read] throws what NumPy raised; [readRaw] throws as well.  The stream
    and its position are left as they were. *)
Theorem negative_count_refused :
  forall (f : ReadableAudioFile.t) (r : AudioFormatReader) (n : Z),
    ReadableAudioFile.reader f = Some r ->
    position_in_range r f ->
    Cpp.INT_MIN <= n < 0 ->
    ReadableAudioFile.read f n
    = (Throws (error_already_set NegativeDimensions), f)
    /\ exists e, ReadableAudioFile.readRaw f n = (Throws e, f).
Proof.
  intros f r n Hr Hpos Hn. unfold position_in_range in Hpos.
  assert (Hkeep : actualFrames r f n = n) by (unfold actualFrames; lia).
  assert (Hfit : Cpp.to_int n = n)
    by (apply to_int_id; unfold Cpp.INT_MIN, Cpp.INT_MAX in *; lia).
  assert (Hshape : array_t_2d_ok (Cpp.to_int (numChannels r)) n = false).
  { unfold array_t_2d_ok.
    replace (0 <=? n) with false by (symmetry; apply Z.leb_gt; lia).
    apply andb_false_r. }
  assert (Hread : ReadableAudioFile.read f n
                  = (Throws (error_already_set NegativeDimensions), f)).
  { unfold ReadableAudioFile.read. rewrite Hr.
    replace (n =? 0) with false by (symmetry; apply Z.eqb_neq; lia).
    fold (actualFrames r f n). rewrite Hkeep, Hfit, Hshape. reflexivity. }
  split; [exact Hread|].
  assert (Hint : forall ty,
             ReadableAudioFile.readInteger ty f n
             = (if usesFloatingPointData r
                then Throws (runtime_error ReadIntegerOnFloatingPointFile)
                else Throws (error_already_set NegativeDimensions), f)).
  { intros ty. unfold ReadableAudioFile.readInteger. rewrite Hr.
    fold (actualFrames r f n). rewrite Hkeep, Hfit, Hshape.
    destruct (usesFloatingPointData r); reflexivity. }
  unfold ReadableAudioFile.readRaw. rewrite Hr.
  replace (n =? 0) with false by (symmetry; apply Z.eqb_neq; lia).
  destruct (usesFloatingPointData r) eqn:Hfloat.
  { rewrite Hread. eauto. }
  rewrite !Hint.
  repeat match goal with
         | |- context [if ?b then _ else _] => destruct b
         end; cbn; eauto.
Qed.

Lemma negative_count_refused_witness :
  ReadableAudioFile.read Examples.short_wav (-2)
  = (Throws (error_already_set NegativeDimensions), Examples.short_wav)
  /\ exists e,
      ReadableAudioFile.readRaw Examples.short_wav (-2)
      = (Throws e, Examples.short_wav).
Proof.
  apply (negative_count_refused Examples.short_wav (Examples.decoder 3 1 16)
           (-2) eq_refl).
  - unfold position_in_range. cbn. lia.
  - unfold Cpp.INT_MIN. lia.
Defined.

(* ===================================================================== *)
(** * ReadableAudioFile: how reads and seeks compose *)
(* ===================================================================== *)

(** Two cells that hold what [read] makes of the same frame are equal. *)
Lemma decoded_cells_agree (r : AudioFormatReader) (c j j' : Z)
      (x y : option Float32.t) :
  j = j' ->
  (exists v, decoded r c j = Some v /\ x = Some v) ->
  (exists v, decoded r c j' = Some v /\ y = Some v) ->
  x = y.
Proof.
  intros <- [v [Hv ->]] [v' [Hv' ->]]. congruence.
Qed.

(** Reading in two steps is reading in one.  On a stream whose length
    fits in an [int], at a position in range: when [read (n)] and then
    [read (m)] return, with [n] and [m] positive, and [read (n + m)] from
    the same starting position returns, the one array is the two arrays
    side by side, and the stream ends in the same state either way. *)
Theorem consecutive_reads_continue :
  forall (f f1 f2 f3 : ReadableAudioFile.t) (r : AudioFormatReader)
         (n m : Z) (a b ab : array_t Float32.t),
    ReadableAudioFile.reader f = Some r ->
    position_in_range r f ->
    lengthInSamples r <= Cpp.INT_MAX ->
    0 < n -> 0 < m ->
    ReadableAudioFile.read f n = (Returns a, f1) ->
    ReadableAudioFile.read f1 m = (Returns b, f2) ->
    ReadableAudioFile.read f (n + m) = (Returns ab, f3) ->
    f3 = f2
    /\ rows a = rows ab /\ rows b = rows ab
    /\ cols ab = cols a + cols b
    /\ forall c i : Z,
        0 <= c < rows ab -> 0 <= i < cols ab ->
        cell ab c i
        = if i <? cols a then cell a c i else cell b c (i - cols a).
Proof.
  intros f f1 f2 f3 r n m a b ab Hr Hpos HL Hn Hm H1 H2 H3.
  destruct (read_returns_cells _ _ _ _ _ Hr H1) as [Sa [_ [-> Ca]]].
  destruct (frames_fit r f n Hpos HL Hn)
    as [Hk1 [Hk1' [Hfit1 Hnext1]]].
  rewrite Hfit1 in Sa. rewrite Hnext1 in H2.
  set (f1 := ReadableAudioFile.set_position f
               (ReadableAudioFile.currentPosition f + actualFrames r f n))
    in *.
  assert (Hr1 : ReadableAudioFile.reader f1 = Some r) by exact Hr.
  assert (Hpos1 : position_in_range r f1).
  { unfold position_in_range in *. subst f1. cbn. lia. }
  destruct (read_returns_cells _ _ _ _ _ Hr1 H2) as [Sb [_ [-> Cb]]].
  destruct (frames_fit r f1 m Hpos1 HL Hm)
    as [Hk2 [Hk2' [Hfit2 Hnext2]]].
  rewrite Hfit2 in Sb. rewrite Hnext2.
  destruct (read_returns_cells _ _ _ _ _ Hr H3) as [Sab [_ [-> Cab]]].
  destruct (frames_fit r f (n + m) Hpos HL ltac:(lia))
    as [Hk [Hk' [Hfit Hnext]]].
  rewrite Hfit in Sab. rewrite Hnext.
  assert (Hsum : actualFrames r f (n + m)
                 = actualFrames r f n + actualFrames r f1 m).
  { unfold actualFrames, position_in_range in *. subst f1. cbn in *. lia. }
  assert (Hcols : cols a = actualFrames r f n) by (unfold cols; now rewrite Sa).
  split.
  { subst f1. unfold ReadableAudioFile.set_position. cbn.
    rewrite Hsum. f_equal. unfold actualFrames. cbn. lia. }
  split; [unfold rows; now rewrite Sa, Sab|].
  split; [unfold rows; now rewrite Sb, Sab|].
  split; [unfold cols; rewrite Sa, Sb, Sab; cbn [nth]; exact Hsum|].
  intros c i Hc Hi.
  assert (Hrows : rows ab = rows a /\ rows ab = rows b)
    by (unfold rows; rewrite Sa, Sb, Sab; auto).
  assert (Hcolsab : cols ab = actualFrames r f n + actualFrames r f1 m)
    by (unfold cols; rewrite Sab; cbn [nth]; exact Hsum).
  assert (Hcolsb : cols b = actualFrames r f1 m)
    by (unfold cols; now rewrite Sb).
  destruct (i <? cols a) eqn:Hside.
  - apply Z.ltb_lt in Hside.
    eapply (decoded_cells_agree r c); [reflexivity|apply Cab|apply Ca]; lia.
  - apply Z.ltb_ge in Hside.
    eapply (decoded_cells_agree r c); [|apply Cab|apply Cb]; try lia.
    subst f1. cbn. lia.
Qed.

Lemma consecutive_reads_continue_witness :
  exists a b ab f1 f2,
    ReadableAudioFile.read Examples.short_wav 2 = (Returns a, f1)
    /\ ReadableAudioFile.read f1 5 = (Returns b, f2)
    /\ ReadableAudioFile.read Examples.short_wav 7 = (Returns ab, f2)
    /\ cols ab = cols a + cols b
    /\ cell ab 0 2 = cell b 0 0.
Proof.
  destruct (fun Hpos HL Hn Hm =>
              consecutive_reads_continue Examples.short_wav _ _ _
                (Examples.decoder 3 1 16) 2 5 _ _ _ eq_refl Hpos HL Hn Hm
                eq_refl eq_refl eq_refl)
    as [_ [_ [_ [Hcols Hcells]]]].
  - unfold position_in_range. cbn. lia.
  - cbn. unfold Cpp.INT_MAX. lia.
  - lia.
  - lia.
  - do 5 eexists.
    split; [reflexivity|]. split; [reflexivity|]. split; [reflexivity|].
    split; [exact Hcols|]. apply (Hcells 0 2); cbn; lia.
Defined.

(** Reading after a seek reads from the target.  On a stream whose length
    fits in an [int]: when [seek (p)] returns and a [read (n)] with
    [n > 0] that follows it returns, the array holds min (n, length - p)
    frames, every cell is what [read] makes of its frame of the file
    counted from [p], and [tell] answers with [p] plus the frames
    returned. *)
Theorem seek_then_read :
  forall (f f1 f2 : ReadableAudioFile.t) (r : AudioFormatReader) (p n : Z)
         (buf : array_t Float32.t),
    ReadableAudioFile.reader f = Some r ->
    lengthInSamples r <= Cpp.INT_MAX ->
    0 < n ->
    ReadableAudioFile.seek f p = (Returns tt, f1) ->
    ReadableAudioFile.read f1 n = (Returns buf, f2) ->
    cols buf = Z.min n (lengthInSamples r - p)
    /\ decoded_from r p buf
    /\ ReadableAudioFile.tell f2
       = Returns (p + Z.min n (lengthInSamples r - p)).
Proof.
  intros f f1 f2 r p n buf Hr HL Hn Hseek Hread.
  unfold ReadableAudioFile.seek in Hseek. rewrite Hr in Hseek.
  destruct (lengthInSamples r <? p) eqn:Hhi; [discriminate Hseek|].
  destruct (p <? 0) eqn:Hlo; [discriminate Hseek|].
  apply Z.ltb_ge in Hhi, Hlo. injection Hseek as <-.
  rewrite to_int_id in Hread by (unfold Cpp.INT_MIN, Cpp.INT_MAX in *; lia).
  set (f1 := ReadableAudioFile.set_position f p) in *.
  assert (Hr1 : ReadableAudioFile.reader f1 = Some r) by exact Hr.
  assert (Hpos1 : position_in_range r f1)
    by (unfold position_in_range; subst f1; cbn; lia).
  destruct (read_returns_cells _ _ _ _ _ Hr1 Hread) as [Sbuf [_ [-> Cbuf]]].
  destruct (frames_fit r f1 n Hpos1 HL Hn) as [_ [_ [Hfit Hnext]]].
  rewrite Hfit in Sbuf. rewrite Hnext.
  split; [unfold cols; rewrite Sbuf; reflexivity|].
  split; [exact Cbuf|].
  unfold ReadableAudioFile.tell. cbn. rewrite Hr. reflexivity.
Qed.

Lemma seek_then_read_witness :
  exists f1 f2 buf,
    ReadableAudioFile.seek Examples.short_wav 1 = (Returns tt, f1)
    /\ ReadableAudioFile.read f1 9 = (Returns buf, f2)
    /\ cols buf = 2
    /\ ReadableAudioFile.tell f2 = Returns 3.
Proof.
  destruct (fun HL Hn =>
              seek_then_read Examples.short_wav _ _
                (Examples.decoder 3 1 16) 1 9 _ eq_refl HL Hn eq_refl eq_refl)
    as [Hcols [_ Htell]].
  - cbn. unfold Cpp.INT_MAX. lia.
  - lia.
  - do 3 eexists. split; [reflexivity|]. split; [reflexivity|].
    split; [exact Hcols|exact Htell].
Defined.

(** Whenever [readInteger] returns on a stream of at most 16 bits, the
    shape, the new position and every cell are determined by the reader
    and the position. *)
Lemma readInteger_narrow_cells (ty : SampleType)
      (f f' : ReadableAudioFile.t) (r : AudioFormatReader) (n : Z)
      (a : array_t Z) :
  ReadableAudioFile.reader f = Some r ->
  (16 <? bitsPerSample r) = false ->
  ReadableAudioFile.readInteger ty f n = (Returns a, f') ->
  shape a = [Cpp.to_int (numChannels r); Cpp.to_int (actualFrames r f n)]
  /\ f' = ReadableAudioFile.set_position f
            (Cpp.to_int (ReadableAudioFile.currentPosition f
                         + actualFrames r f n))
  /\ (0 < actualFrames r f n ->
      forall c i : Z,
        0 <= c < Cpp.to_int (numChannels r) ->
        0 <= i < Cpp.to_int (actualFrames r f n) ->
        cell a c i
        = Some (to_SampleType ty
                  (Z.shiftr (backend_int_sample r c
                               (ReadableAudioFile.currentPosition f + i))
                            (ReadableAudioFile.shift_of (bitsPerSample r))))).
Proof.
  intros Hr Hnarrow H. unfold ReadableAudioFile.readInteger in H.
  rewrite Hr, Hnarrow in H. fold (actualFrames r f n) in H.
  branch H. branch H.
  destruct (ReadableAudioFile.readInteger_chunks _ _ _ _ _ _);
    try discriminate H.
  injection H as <- <-. split; [reflexivity|]. split; [reflexivity|].
  intros Hsome c i Hc Hi. unfold cell, cols. cbn [shape ptr nth].
  replace (actualFrames r f n <=? 0) with false
    by (symmetry; apply Z.leb_gt; lia).
  rewrite filled_cell by assumption. reflexivity.
Qed.

(** [read] and [readRaw] agree.  On a 16-bit or 8-bit integer stream
    whose length fits in an [int], at a position in range, where the
    frames read are left-aligned samples of the stream's depth: when
    [readRaw (n)] and [read (n)], with [n > 0], both return from the same
    state, they leave the same state behind, the two arrays have the
    same shape, and each cell of [read]'s is the cell of [readRaw]'s
    shifted left by [32 - bitsPerSample], converted to [float] and
    multiplied by the reciprocal of the constant of the depth. *)
Theorem read_agrees_with_readRaw :
  forall (f f1 f2 : ReadableAudioFile.t) (r : AudioFormatReader) (n : Z)
         (ty : SampleType) (a : array_t Z) (buf : array_t Float32.t),
    ReadableAudioFile.reader f = Some r ->
    usesFloatingPointData r = false ->
    bitsPerSample r = 16 \/ bitsPerSample r = 8 ->
    0 < n ->
    position_in_range r f ->
    lengthInSamples r <= Cpp.INT_MAX ->
    left_aligned r (ReadableAudioFile.currentPosition f) (actualFrames r f n) ->
    ReadableAudioFile.readRaw f n
    = (Returns (ReadableAudioFile.IntArray ty a), f1) ->
    ReadableAudioFile.read f n = (Returns buf, f2) ->
    f1 = f2
    /\ shape a = shape buf
    /\ exists m,
        ReadableAudioFile.maxValueAsInt (bitsPerSample r) = Some m
        /\ forall c i : Z,
            0 <= c < rows buf -> 0 <= i < cols buf ->
            exists v,
              cell a c i = Some v
              /\ cell buf c i
                 = Some (convertFixedToFloat (ReadableAudioFile.scaleFactor m)
                           (Z.shiftl v (32 - bitsPerSample r))).
Proof.
  intros f f1 f2 r n ty a buf Hr Hfloat Hbits Hn Hpos HL Haligned Hraw Hread.
  destruct (frames_fit r f n Hpos HL Hn) as [Hk [_ [Hfit _]]].
  destruct (read_returns_cells _ _ _ _ _ Hr Hread) as [Sbuf [_ [-> Cbuf]]].
  assert (Hnarrow : (16 <? bitsPerSample r) = false)
    by (apply Z.ltb_ge; lia).
  assert (Hshift : ReadableAudioFile.shift_of (bitsPerSample r)
                   = 32 - bitsPerSample r)
    by (destruct Hbits as [-> | ->]; reflexivity).
  assert (Hint : ty = native_type (bitsPerSample r)
                 /\ ReadableAudioFile.readInteger ty f n = (Returns a, f1)).
  { unfold ReadableAudioFile.readRaw in Hraw. rewrite Hr, Hfloat in Hraw.
    replace (n =? 0) with false in Hraw by (symmetry; apply Z.eqb_neq; lia).
    destruct Hbits as [Hb|Hb]; rewrite Hb in Hraw; cbn [Z.eqb Pos.eqb] in Hraw;
      apply as_int_array_returns in Hraw; destruct Hraw as [-> Hraw];
      rewrite Hb; split; [reflexivity|exact Hraw|reflexivity|exact Hraw]. }
  destruct Hint as [Hty Hint].
  destruct (readInteger_narrow_cells _ _ _ _ _ _ Hr Hnarrow Hint)
    as [Sa [-> Ca]].
  split; [reflexivity|]. split; [now rewrite Sa, Sbuf|].
  assert (Hconst : exists m,
             ReadableAudioFile.maxValueAsInt (bitsPerSample r) = Some m)
    by (destruct Hbits as [-> | ->]; eexists; reflexivity).
  destruct Hconst as [m Hm]. exists m. split; [exact Hm|].
  intros c i Hc Hi.
  destruct (Cbuf c i Hc Hi) as [v [Hv Hcell]].
  unfold rows, cols in Hc, Hi. rewrite Sbuf in Hc, Hi. cbn [nth] in Hc, Hi.
  rewrite Hfit in Hi.
  eexists. split; [apply Ca; [lia|exact Hc|rewrite Hfit; exact Hi]|].
  rewrite Hcell, <- Hv. unfold decoded. rewrite Hfloat, Hm.
  replace (bitsPerSample r =? 32) with false
    by (symmetry; apply Z.eqb_neq; lia).
  cbn [orb]. rewrite Hshift, Hty, (Haligned c i) by exact Hi. reflexivity.
Qed.

Lemma read_agrees_with_readRaw_witness :
  exists a buf f',
    ReadableAudioFile.readRaw Examples.short_wav 2
    = (Returns (ReadableAudioFile.IntArray T_short a), f')
    /\ ReadableAudioFile.read Examples.short_wav 2 = (Returns buf, f')
    /\ shape a = shape buf
    /\ cell a 0 1 = Some 200
    /\ cell buf 0 1
       = Some (convertFixedToFloat
                 (ReadableAudioFile.scaleFactor 0x7FFF0000)
                 (Z.shiftl 200 16)).
Proof.
  destruct (fun Hn Hpos HL Haligned =>
              read_agrees_with_readRaw Examples.short_wav _ _
                (Examples.decoder 3 1 16) 2 T_short _ _ eq_refl eq_refl
                (or_introl eq_refl) Hn Hpos HL Haligned eq_refl eq_refl)
    as [_ [Hshape [m [Hm Hcells]]]].
  - lia.
  - unfold position_in_range. cbn. lia.
  - cbn. unfold Cpp.INT_MAX. lia.
  - intros c i Hi. change (0 <= i < 2) in Hi.
    assert (Hcase : i = 0 \/ i = 1) by lia.
    destruct Hcase as [-> | ->]; reflexivity.
  - injection Hm as <-.
    destruct (Hcells 0 1) as [v [Hv Hcell]]; [cbn; lia|cbn; lia|].
    do 3 eexists. split; [reflexivity|]. split; [reflexivity|].
    split; [exact Hshape|]. split; [reflexivity|].
    injection Hv as <-. exact Hcell.
Defined.

(* ===================================================================== *)
(** * WriteableAudioFile: what reaches the encoder *)
(* ===================================================================== *)

Lemma map_seq_from {A} (len : nat) :
  forall (F : nat -> A) (s : nat),
    map F (seq s len) = map (fun k => F (s + k)%nat) (seq 0 len).
Proof.
  induction len as [|len IH]; intros F s; cbn [seq map]; [reflexivity|].
  rewrite Nat.add_0_r. f_equal.
  rewrite (IH F (S s)), (IH (fun k => F (s + k)%nat) 1%nat).
  apply map_ext. intros k. f_equal. lia.
Qed.

Lemma frames_from_app (start a b : Z) :
  0 <= a -> 0 <= b ->
  frames_from start (a + b) = frames_from start a ++ frames_from (start + a) b.
Proof.
  intros Ha Hb. unfold frames_from.
  rewrite Z2Nat.inj_add by assumption.
  rewrite seq_app, map_app. f_equal.
  rewrite map_seq_from. apply map_ext. intros k. lia.
Qed.

Lemma frames_from_none (start count : Z) :
  count <= 0 -> frames_from start count = [].
Proof.
  intros H. unfold frames_from.
  replace (Z.to_nat count) with 0%nat by lia. reflexivity.
Qed.

Lemma in_frames_from (start count i : Z) :
  In i (frames_from start count) -> start <= i < start + count.
Proof.
  unfold frames_from. rewrite in_map_iff. intros [k [<- Hk]].
  apply in_seq in Hk. lia.
Qed.

Lemma map_frames_shift {A} (F G : Z -> A) (start count : Z) :
  (forall i, 0 <= i < count -> F i = G (start + i)) ->
  map F (frames_from 0 count) = map G (frames_from start count).
Proof.
  intros H. unfold frames_from. rewrite !map_map. apply map_ext_in.
  intros k Hk. apply in_seq in Hk. cbn [Z.add]. apply H. lia.
Qed.

Lemma handed_samples_app (h1 h2 : list backend_call) (c : Z) :
  handed_samples (h1 ++ h2) c = handed_samples h1 c ++ handed_samples h2 c.
Proof.
  induction h1 as [|call h1 IH]; cbn; [reflexivity|].
  rewrite IH, app_assoc. reflexivity.
Qed.

Lemma streamed_since_refl (w : AudioFormatWriter) (data : channels)
      (numChannels start count : Z) :
  count <= 0 -> streamed_since w w data numChannels start count.
Proof.
  intros H. split; [reflexivity|]. exists []. split; [now rewrite app_nil_r|].
  intros c _. now rewrite frames_from_none.
Qed.

(** With no frame left to hand over, it does not matter where the count
    starts. *)
Lemma streamed_since_restart (w w' : AudioFormatWriter) (data : channels)
      (numChannels start start' count : Z) :
  count <= 0 ->
  streamed_since w w' data numChannels start count ->
  streamed_since w w' data numChannels start' count.
Proof.
  intros H [K [h [E S]]]. split; [exact K|]. exists h. split; [exact E|].
  intros c Hc. rewrite (S c Hc), !frames_from_none by exact H. reflexivity.
Qed.

Lemma streamed_since_trans (w1 w2 w3 : AudioFormatWriter) (data : channels)
      (numChannels start a b : Z) :
  0 <= a -> 0 <= b ->
  streamed_since w1 w2 data numChannels start a ->
  streamed_since w2 w3 data numChannels (start + a) b ->
  streamed_since w1 w3 data numChannels start (a + b).
Proof.
  intros Ha Hb [K1 [h1 [E1 S1]]] [K2 [h2 [E2 S2]]].
  split; [congruence|]. exists (h1 ++ h2). split.
  - rewrite E2, E1, app_assoc. reflexivity.
  - intros c Hc.
    rewrite handed_samples_app, S1, S2, frames_from_app, map_app by assumption.
    reflexivity.
Qed.

(** The same calls, described by another function that agrees on the
    frames handed over. *)
Lemma streamed_since_shift (w w' : AudioFormatWriter) (chunk data : channels)
      (numChannels start count : Z) :
  (forall c i, 0 <= c < numChannels -> 0 <= i < count ->
               chunk c i = data c (start + i)) ->
  streamed_since w w' chunk numChannels 0 count ->
  streamed_since w w' data numChannels start count.
Proof.
  intros Hsame [K [h [E S]]]. split; [exact K|]. exists h. split; [exact E|].
  intros c Hc. rewrite (S c Hc). apply map_frames_shift.
  intros i Hi. apply Hsame; assumption.
Qed.

Lemma backend_streams (entry : backend_entry) (w w' : AudioFormatWriter)
      (data : channels) (numChannels numSamples : Z) (ok : bool) :
  WriteableAudioFile.backend entry w data numSamples = (ok, w') ->
  streamed_since w w' data numChannels 0 numSamples.
Proof.
  unfold WriteableAudioFile.backend. intros H. injection H as _ <-.
  split; [reflexivity|]. eexists. cbn [calls]. split; [reflexivity|].
  intros c _. cbn. apply app_nil_r.
Qed.

Lemma upto_inside (numChannels n : Z) (data : channels) (c i : Z) :
  0 <= c < numChannels -> 0 <= i < n ->
  WriteableAudioFile.upto numChannels n data c i = data c i.
Proof.
  intros Hc Hi. unfold WriteableAudioFile.upto.
  replace (0 <=? c) with true by (symmetry; apply Z.leb_le; lia).
  replace (c <? numChannels) with true by (symmetry; apply Z.ltb_lt; lia).
  replace (0 <=? i) with true by (symmetry; apply Z.leb_le; lia).
  replace (i <? n) with true by (symmetry; apply Z.ltb_lt; lia).
  reflexivity.
Qed.

Lemma write_float_delivers :
  delivers (fun _ s => s) WriteableAudioFile.write_float Cpp.INT_MAX.
Proof.
  intros w data nc n w' Hn H. unfold WriteableAudioFile.write_float in H.
  rewrite to_int_id in H by (unfold Cpp.INT_MIN, Cpp.INT_MAX in *; lia).
  destruct (isFloatingPoint w); apply Some_eq in H;
    eapply backend_streams; exact H.
Qed.

Lemma delivers_fewer (g : bool -> option sample -> option sample)
      (write_target : AudioFormatWriter -> channels -> Z -> Z ->
                      option (bool * AudioFormatWriter)) (most fewer : Z) :
  fewer <= most -> delivers g write_target most ->
  delivers g write_target fewer.
Proof.
  intros Hle H w data nc n w' Hn. apply H. lia.
Qed.

Lemma writeConvertingTo_streams
      (g : bool -> option sample -> option sample)
      (convert : option sample -> option sample)
      (write_target : AudioFormatWriter -> channels -> Z -> Z ->
                      option (bool * AudioFormatWriter)) :
  delivers g write_target DEFAULT_AUDIO_BUFFER_SIZE_FRAMES ->
  forall (fuel : nat) (w : AudioFormatWriter) (data : channels)
         (numChannels numSamples startSample : Z) (w' : AudioFormatWriter),
    counter_reaches numSamples ->
    0 <= startSample ->
    WriteableAudioFile.writeConvertingTo fuel convert write_target w data
      numChannels numSamples startSample = Some (true, w') ->
    streamed_since w w'
      (fun c i => g (isFloatingPoint w) (convert (data c i)))
      numChannels startSample (Z.max 0 (numSamples - startSample)).
Proof.
  intros Htarget fuel. unfold counter_reaches.
  induction fuel as [|fuel IH]; intros w data nc ns start w' Hns Hstart H;
    cbn [WriteableAudioFile.writeConvertingTo] in H; [discriminate H|].
  destruct (start <? ns) eqn:Hlt.
  - apply Z.ltb_lt in Hlt.
    destruct (chunk_size ns start) as [Hmin [Hu Hsize]];
      [lia|unfold Cpp.UINT_MAX, DEFAULT_AUDIO_BUFFER_SIZE_FRAMES in *; lia|].
    cbv zeta in Hmin, Hu, Hsize. rewrite Hu in H.
    match type of H with
    | context [write_target ?a ?b ?c ?d] =>
        destruct (write_target a b c d) as [[[|] w1]|] eqn:Hchunk;
          try discriminate H
    end.
    apply Htarget in Hchunk; [|lia].
    unfold Cpp.UINT_MAX, DEFAULT_AUDIO_BUFFER_SIZE_FRAMES in *.
    rewrite to_unsigned_id in H by (unfold Cpp.UINT_MAX; lia).
    apply IH in H; [|lia|lia].
    assert (Hkind : isFloatingPoint w1 = isFloatingPoint w)
      by (destruct Hchunk as [K _]; exact K).
    rewrite Hkind in H. rewrite Hmin in Hchunk.
    replace (Z.max 0 (ns - start))
      with (Z.min (ns - start) 8192 + Z.max 0 (ns - (start + 8192))) by lia.
    eapply streamed_since_trans; [lia|lia| |].
    2:{ destruct (Z.le_gt_cases 8192 (ns - start)) as [Hfull|Hlast].
        - replace (Z.min (ns - start) 8192) with 8192 by lia. exact H.
        - eapply streamed_since_restart; [|exact H]. lia. }
    eapply streamed_since_shift; [|exact Hchunk].
    intros c i Hc Hi. cbv beta.
    rewrite upto_inside by assumption.
    rewrite to_unsigned_id by (unfold Cpp.UINT_MAX; lia). reflexivity.
  - apply Z.ltb_ge in Hlt. injection H as <-.
    apply streamed_since_refl. lia.
Qed.

Lemma write_int_delivers (fuel : nat) :
  delivers (fun floating s =>
              if floating then WriteableAudioFile.fixedToFloat s else s)
           (WriteableAudioFile.write_int fuel) Cpp.INT_MAX.
Proof.
  intros w data nc n w' Hn H. unfold WriteableAudioFile.write_int in H.
  destruct (isFloatingPoint w) eqn:Hkind.
  - eapply (writeConvertingTo_streams (fun _ s => s)) in H.
    + replace (Z.max 0 (n - 0)) with n in H by lia. exact H.
    + eapply delivers_fewer; [|exact write_float_delivers].
      unfold DEFAULT_AUDIO_BUFFER_SIZE_FRAMES, Cpp.INT_MAX. lia.
    + unfold counter_reaches, Cpp.UINT_MAX, Cpp.INT_MAX,
        DEFAULT_AUDIO_BUFFER_SIZE_FRAMES in *. lia.
    + lia.
  - rewrite to_int_id in H by (unfold Cpp.INT_MIN, Cpp.INT_MAX in *; lia).
    apply Some_eq in H. eapply backend_streams; exact H.
Qed.

Lemma write_channels_delivers (ty : SampleType) (fuel : nat) :
  delivers (conversion ty) (WriteableAudioFile.write_channels ty fuel)
           Cpp.INT_MAX.
Proof.
  intros w data nc n w' Hn.
  assert (Hreach : counter_reaches n)
    by (unfold counter_reaches, Cpp.UINT_MAX, Cpp.INT_MAX,
          DEFAULT_AUDIO_BUFFER_SIZE_FRAMES in *; lia).
  assert (Hsmall : DEFAULT_AUDIO_BUFFER_SIZE_FRAMES <= Cpp.INT_MAX)
    by (unfold DEFAULT_AUDIO_BUFFER_SIZE_FRAMES, Cpp.INT_MAX; lia).
  assert (Hloop : forall g convert target,
             delivers g target Cpp.INT_MAX ->
             WriteableAudioFile.writeConvertingTo fuel convert target w data
               nc n 0 = Some (true, w') ->
             streamed_since w w'
               (fun c i => g (isFloatingPoint w) (convert (data c i)))
               nc 0 n).
  { intros g convert target Ht H.
    eapply writeConvertingTo_streams in H;
      [|eapply delivers_fewer; [exact Hsmall|exact Ht]|exact Hreach|lia].
    replace (Z.max 0 (n - 0)) with n in H by lia. exact H. }
  destruct ty; cbn [WriteableAudioFile.write_channels]; intros H.
  - exact (Hloop _ _ _ (write_int_delivers fuel) H).
  - exact (Hloop _ _ _ (write_int_delivers fuel) H).
  - exact (write_int_delivers fuel w data nc n w' Hn H).
  - exact (write_float_delivers w data nc n w' Hn H).
  - exact (Hloop _ _ _ write_float_delivers H).
Qed.

Lemma to_unsigned_nonneg (z : Z) : 0 <= Cpp.to_unsigned z.
Proof.
  unfold Cpp.to_unsigned, Cpp.to_unsigned_bits.
  apply Z.mod_pos_bound. reflexivity.
Qed.

Lemma write_interleaved_streams (fuel0 : nat) (ty : SampleType)
      (inputArray : array_t sample) (numChannels numSamples : Z)
      (floating : bool) :
  counter_reaches numSamples ->
  0 < numChannels <= Cpp.INT_MAX ->
  numChannels * numSamples <= Cpp.UINT_MAX ->
  forall (fuel : nat) (w : AudioFormatWriter) (startSample : Z)
         (w' : AudioFormatWriter),
    isFloatingPoint w = floating ->
    WriteableAudioFile.write_interleaved fuel0 fuel ty w inputArray numChannels
      numSamples startSample = Some (true, w') ->
    streamed_since w w'
      (fun c i =>
         conversion ty floating
           (element Interleaved inputArray numChannels numSamples c i))
      numChannels (Cpp.to_unsigned startSample)
      (Z.max 0 (numSamples - Cpp.to_unsigned startSample)).
Proof.
  intros Hns HC Hsize. pose proof Hns as Hrange.
  unfold counter_reaches in Hrange.
  induction fuel as [|fuel IH]; intros w start w' Hkind H;
    cbn [WriteableAudioFile.write_interleaved] in H; [discriminate H|].
  pose proof (to_unsigned_nonneg start) as Hstart.
  destruct (Cpp.to_unsigned start <? numSamples) eqn:Hlt.
  - apply Z.ltb_lt in Hlt.
    destruct (chunk_size numSamples (Cpp.to_unsigned start))
      as [Hmin [Hu Hchunksize]];
      [lia|unfold Cpp.UINT_MAX, DEFAULT_AUDIO_BUFFER_SIZE_FRAMES in *; lia|].
    cbv zeta in Hmin, Hu, Hchunksize. rewrite Hu in H.
    match type of H with
    | context [WriteableAudioFile.write_channels ?a ?b ?c ?d ?e ?g] =>
        destruct (WriteableAudioFile.write_channels a b c d e g)
          as [[[|] w1]|] eqn:Hchunk; try discriminate H
    end.
    apply write_channels_delivers in Hchunk;
      [|apply chunk_fits_int; lia].
    rewrite (to_int_id numChannels) in Hchunk
      by (unfold Cpp.INT_MIN, Cpp.INT_MAX in *; lia).
    assert (Hkind1 : isFloatingPoint w1 = floating)
      by (destruct Hchunk as [K _]; congruence).
    apply (IH _ _ _ Hkind1) in H.
    rewrite to_unsigned_to_int in H.
    unfold Cpp.UINT_MAX, DEFAULT_AUDIO_BUFFER_SIZE_FRAMES in *.
    rewrite (to_unsigned_id (Cpp.to_unsigned start + 8192)) in H
      by (unfold Cpp.UINT_MAX; lia).
    rewrite Hmin, Hkind in Hchunk.
    replace (Z.max 0 (numSamples - Cpp.to_unsigned start))
      with (Z.min (numSamples - Cpp.to_unsigned start) 8192
            + Z.max 0 (numSamples - (Cpp.to_unsigned start + 8192))) by lia.
    eapply streamed_since_trans; [lia|lia| |].
    2:{ destruct (Z.le_gt_cases 8192 (numSamples - Cpp.to_unsigned start))
          as [Hfull|Hlast].
        - replace (Z.min (numSamples - Cpp.to_unsigned start) 8192)
            with 8192 by lia.
          exact H.
        - eapply streamed_since_restart; [|exact H]. lia. }
    eapply streamed_since_shift; [|exact Hchunk].
    intros c i Hc Hi. cbv beta.
    rewrite upto_inside by assumption.
    unfold element.
    rewrite (to_unsigned_id (i + Cpp.to_unsigned start))
      by (unfold Cpp.UINT_MAX; lia).
    rewrite to_unsigned_id by (unfold Cpp.UINT_MAX; nia).
    do 2 f_equal. lia.
  - apply Z.ltb_ge in Hlt. injection H as <-.
    apply streamed_since_refl. lia.
Qed.

(** Every sample reaches the encoder once, in order, converted.  When
    [write] returns for an array with at least one channel whose frame
    count, channel count and size fit the 32-bit arithmetic of the loops,
    the calls it added to the encoder's log hold, for each channel, the
    samples of that channel from the first frame to the last: each is the
    element of the input array at its place in the detected layout, after
    the conversion for the array's type and the encoder's kind. *)
Theorem write_hands_over_converted_samples :
  forall (detectChannelLayout : array_t sample -> exception + ChannelLayout)
         (fuel : nat) (ty : SampleType) (f f' : WriteableAudioFile.t)
         (w : AudioFormatWriter) (inputArray : array_t sample)
         (layout : ChannelLayout) (numChannels numSamples : Z),
    WriteableAudioFile.writer f = Some w ->
    detectChannelLayout inputArray = inr layout ->
    WriteableAudioFile.channelsAndSamples (writer_numChannels w)
                                          (shape inputArray)
    = Returns (numChannels, numSamples) ->
    0 < numChannels <= Cpp.INT_MAX ->
    0 <= numSamples <= Cpp.INT_MAX ->
    numChannels * numSamples <= Cpp.UINT_MAX ->
    WriteableAudioFile.write detectChannelLayout fuel ty f inputArray
    = Some (Returns tt, f') ->
    exists (w' : AudioFormatWriter) (handed : list backend_call),
      WriteableAudioFile.writer f' = Some w'
      /\ calls w' = calls w ++ handed
      /\ forall c : Z,
          0 <= c < numChannels ->
          handed_samples handed c
          = map (fun i =>
                   conversion ty (isFloatingPoint w)
                     (element layout inputArray numChannels numSamples c i))
                (frames_from 0 numSamples).
Proof.
  intros detect fuel ty f f' w a layout nc ns Hw Hlayout Hshape HC Hns Hsize H.
  unfold WriteableAudioFile.write in H. rewrite Hw, Hlayout, Hshape in H.
  replace (nc =? 0) with false in H by (symmetry; apply Z.eqb_neq; lia).
  assert (Hreach : counter_reaches ns)
    by (unfold counter_reaches, Cpp.UINT_MAX, Cpp.INT_MAX,
          DEFAULT_AUDIO_BUFFER_SIZE_FRAMES in *; lia).
  destruct (negb (nc =? writer_numChannels w)); [discriminate H|].
  assert (Hdone : forall w',
             streamed_since w w'
               (fun c i =>
                  conversion ty (isFloatingPoint w)
                    (element layout a nc ns c i)) nc 0 ns ->
             exists handed,
               calls w' = calls w ++ handed
               /\ forall c : Z,
                   0 <= c < nc ->
                   handed_samples handed c
                   = map (fun i =>
                            conversion ty (isFloatingPoint w)
                              (element layout a nc ns c i))
                         (frames_from 0 ns)).
  { intros w' [_ [handed [E S]]]. exists handed. auto. }
  destruct layout.
  - destruct (WriteableAudioFile.write_interleaved _ _ _ _ _ _ _ _)
      as [[[|] w']|] eqn:Hloop; try discriminate H.
    injection H as <-. exists w'.
    apply (write_interleaved_streams fuel ty a nc ns (isFloatingPoint w)
             Hreach HC Hsize) in Hloop; [|reflexivity].
    change (Cpp.to_unsigned 0) with 0 in Hloop.
    replace (Z.max 0 (ns - 0)) with ns in Hloop by lia.
    destruct (Hdone w' Hloop) as [handed Hhanded].
    exists handed. cbn. split; [reflexivity|exact Hhanded].
  - unfold WriteableAudioFile.write_planar in H.
    destruct (WriteableAudioFile.write_channels _ _ _ _ _ _)
      as [[[|] w']|] eqn:Hloop; try discriminate H.
    injection H as <-. exists w'.
    apply write_channels_delivers in Hloop; [|exact Hns].
    rewrite to_int_id in Hloop by (unfold Cpp.INT_MIN, Cpp.INT_MAX in *; lia).
    assert (Hplanar : streamed_since w w'
                        (fun c i =>
                           conversion ty (isFloatingPoint w)
                             (element NotInterleaved a nc ns c i)) nc 0 ns).
    { eapply streamed_since_shift; [|exact Hloop].
      intros c i Hc Hi. cbv beta. unfold element.
      rewrite to_unsigned_id by (unfold Cpp.UINT_MAX in *; nia).
      reflexivity. }
    destruct (Hdone w' Hplanar) as [handed Hhanded].
    exists handed. cbn. split; [reflexivity|exact Hhanded].
  - discriminate H.
Qed.

Lemma write_hands_over_converted_samples_witness :
  exists f' w' handed,
    WriteableAudioFile.write (Examples.always Interleaved) 8 T_short
      (Examples.writing 2 7) (Examples.ramp [3; 2])
    = Some (Returns tt, f')
    /\ WriteableAudioFile.writer f' = Some w'
    /\ calls w' = handed
    /\ handed_samples handed 1
       = [Some (IntSample 65536); Some (IntSample 196608);
          Some (IntSample 327680)].
Proof.
  destruct (fun HC Hns Hsize =>
              write_hands_over_converted_samples (Examples.always Interleaved)
                8 T_short (Examples.writing 2 7) _
                (Examples.encoder 2 16 false) (Examples.ramp [3; 2])
                Interleaved 2 3 eq_refl eq_refl eq_refl HC Hns Hsize eq_refl)
    as [w' [handed [Hw [Hcalls Hsamples]]]].
  - unfold Cpp.INT_MAX. lia.
  - unfold Cpp.INT_MAX. lia.
  - unfold Cpp.UINT_MAX. lia.
  - eexists. exists w', handed. split; [reflexivity|].
    split; [exact Hw|]. split; [exact Hcalls|].
    rewrite (Hsamples 1) by lia. reflexivity.
Defined.

(* ===================================================================== *)
(** * WriteableAudioFile: frame counts the loop counter steps over *)
(* ===================================================================== *)

Lemma to_unsigned_chunks (z : Z) :
  Cpp.to_unsigned z mod 8192 = z mod 8192.
Proof.
  unfold Cpp.to_unsigned, Cpp.to_unsigned_bits.
  change (2 ^ 32) with (8192 * 524288).
  rewrite Z.rem_mul_r by lia.
  rewrite (Z.mul_comm 8192), Z.mod_add by lia.
  apply Z.mod_mod. lia.
Qed.

Lemma chunk_start_below (start numSamples : Z) :
  0 <= start <= Cpp.UINT_MAX ->
  start mod 8192 = 0 ->
  Cpp.UINT_MAX + 1 - DEFAULT_AUDIO_BUFFER_SIZE_FRAMES < numSamples ->
  start < numSamples.
Proof.
  unfold Cpp.UINT_MAX, DEFAULT_AUDIO_BUFFER_SIZE_FRAMES.
  change (2 ^ 32) with 4294967296. intros Hs Hm Hn.
  pose proof (Z.div_mod start 8192 ltac:(lia)) as Hdiv. lia.
Qed.

Lemma to_unsigned_below (z : Z) : 0 <= Cpp.to_unsigned z <= Cpp.UINT_MAX.
Proof.
  unfold Cpp.to_unsigned, Cpp.to_unsigned_bits, Cpp.UINT_MAX.
  pose proof (Z.mod_pos_bound z (2 ^ 32) ltac:(lia)). lia.
Qed.

Lemma writeConvertingTo_runs_on
      (convert : option sample -> option sample)
      (write_target : AudioFormatWriter -> channels -> Z -> Z ->
                      option (bool * AudioFormatWriter))
      (data : channels) (numChannels numSamples : Z) :
  never_refuses write_target ->
  Cpp.UINT_MAX + 1 - DEFAULT_AUDIO_BUFFER_SIZE_FRAMES < numSamples ->
  forall (fuel : nat) (w : AudioFormatWriter) (startSample : Z),
    accepts_all w ->
    0 <= startSample <= Cpp.UINT_MAX ->
    startSample mod 8192 = 0 ->
    WriteableAudioFile.writeConvertingTo fuel convert write_target w data
      numChannels numSamples startSample = None.
Proof.
  intros Htarget Hns.
  induction fuel as [|fuel IH]; intros w start Hall Hstart Hmod;
    cbn [WriteableAudioFile.writeConvertingTo]; [reflexivity|].
  replace (start <? numSamples) with true
    by (symmetry; apply Z.ltb_lt; apply chunk_start_below; assumption).
  match goal with
  | |- context [write_target ?a ?b ?c ?d] =>
      destruct (write_target a b c d) as [[[|] w1]|] eqn:Hchunk;
        [| |reflexivity]
  end.
  - destruct (Htarget _ _ _ _ _ _ Hall Hchunk) as [_ Hall1].
    apply IH; [exact Hall1|apply to_unsigned_below|].
    rewrite to_unsigned_chunks. unfold DEFAULT_AUDIO_BUFFER_SIZE_FRAMES.
    rewrite <- Z.add_mod_idemp_l, Hmod by lia. reflexivity.
  - destruct (Htarget _ _ _ _ _ _ Hall Hchunk) as [Hok _]. discriminate Hok.
Qed.

Lemma write_interleaved_runs_on (fuel0 : nat) (ty : SampleType)
      (inputArray : array_t sample) (numChannels numSamples : Z) :
  Cpp.UINT_MAX + 1 - DEFAULT_AUDIO_BUFFER_SIZE_FRAMES < numSamples ->
  forall (fuel : nat) (w : AudioFormatWriter) (startSample : Z),
    accepts_all w ->
    Cpp.to_unsigned startSample mod 8192 = 0 ->
    WriteableAudioFile.write_interleaved fuel0 fuel ty w inputArray
      numChannels numSamples startSample = None.
Proof.
  intros Hns.
  induction fuel as [|fuel IH]; intros w start Hall Hmod;
    cbn [WriteableAudioFile.write_interleaved]; [reflexivity|].
  replace (Cpp.to_unsigned start <? numSamples) with true
    by (symmetry; apply Z.ltb_lt; apply chunk_start_below;
        [apply to_unsigned_below|assumption|assumption]).
  match goal with
  | |- context [WriteableAudioFile.write_channels ?a ?b ?c ?d ?e ?g] =>
      destruct (WriteableAudioFile.write_channels a b c d e g)
        as [[[|] w1]|] eqn:Hchunk; [| |reflexivity]
  end.
  - destruct (write_channels_never_refuses _ _ _ _ _ _ _ _ Hall Hchunk)
      as [_ Hall1].
    apply IH; [exact Hall1|].
    rewrite to_unsigned_to_int, to_unsigned_chunks.
    unfold DEFAULT_AUDIO_BUFFER_SIZE_FRAMES.
    rewrite <- Z.add_mod_idemp_l, Hmod by lia. reflexivity.
  - destruct (write_channels_never_refuses _ _ _ _ _ _ _ _ Hall Hchunk)
      as [Hok _].
    discriminate Hok.
Qed.

(** [write] does not come to an end on a frame count the loop counter
    steps over.  The counter of the chunk loops is a 32-bit integer that
    moves by 8192: for an array of more than 2^32 - 8192 frames it wraps
    around to 0 before it reaches the frame count.  With an encoder that
    accepts every call, an interleaved array of any type, and a planar
    array of [char], [short] or [double], keep the loop running whatever
    the number of iterations allowed, and [write] neither returns nor
    throws. *)
Theorem write_never_ends_near_wrap :
  forall (detectChannelLayout : array_t sample -> exception + ChannelLayout)
         (fuel : nat) (ty : SampleType) (f : WriteableAudioFile.t)
         (w : AudioFormatWriter) (inputArray : array_t sample)
         (numChannels numSamples : Z),
    WriteableAudioFile.writer f = Some w ->
    accepts_all w ->
    detectChannelLayout inputArray = inr Interleaved
    \/ (detectChannelLayout inputArray = inr NotInterleaved
        /\ (ty = T_char \/ ty = T_short \/ ty = T_double)) ->
    WriteableAudioFile.channelsAndSamples (writer_numChannels w)
      (shape inputArray) = Returns (numChannels, numSamples) ->
    numChannels = writer_numChannels w ->
    numChannels <> 0 ->
    Cpp.UINT_MAX + 1 - DEFAULT_AUDIO_BUFFER_SIZE_FRAMES < numSamples ->
    WriteableAudioFile.write detectChannelLayout fuel ty f inputArray = None.
Proof.
  intros detect fuel ty f w a nc ns Hw Hall Hlayout Hshape Hnc Hsome Hns.
  unfold WriteableAudioFile.write. rewrite Hw.
  assert (Hzero : 0 <= 0 <= Cpp.UINT_MAX) by (unfold Cpp.UINT_MAX; lia).
  destruct Hlayout as [-> | [-> Hty]]; rewrite Hshape;
    (replace (nc =? 0) with false by (symmetry; apply Z.eqb_neq; exact Hsome));
    rewrite <- Hnc, Z.eqb_refl; cbn [negb].
  - rewrite write_interleaved_runs_on; [reflexivity|exact Hns|exact Hall|].
    reflexivity.
  - unfold WriteableAudioFile.write_planar.
    destruct Hty as [-> | [-> | ->]]; cbn [WriteableAudioFile.write_channels];
      rewrite writeConvertingTo_runs_on;
      try reflexivity; try assumption;
      first [apply write_int_never_refuses|apply write_float_never_refuses].
Qed.

Lemma write_never_ends_near_wrap_witness :
  WriteableAudioFile.write (Examples.always Interleaved) 1000 T_char
    (Examples.writing 1 0) (Examples.ramp [4294967295])
  = None.
Proof.
  apply (write_never_ends_near_wrap (Examples.always Interleaved) 1000 T_char
           (Examples.writing 1 0) (Examples.encoder 1 16 false)
           (Examples.ramp [4294967295]) 1 4294967295 eq_refl).
  - intros k. reflexivity.
  - left. reflexivity.
  - reflexivity.
  - reflexivity.
  - discriminate.
  - unfold Cpp.UINT_MAX, DEFAULT_AUDIO_BUFFER_SIZE_FRAMES. lia.
Defined.

(* ===================================================================== *)
(** * determineQualityOptionIndex: what it returns *)
(* ===================================================================== *)

(** What [indexWhere] finds is an index of the list. *)
Lemma indexWhere_range (p : string -> bool) (options : list string) :
  Str.indexWhere p options 0 = -1
  \/ 0 <= Str.indexWhere p options 0 < Z.of_nat (List.length options).
Proof.
  pose proof (indexWhere_first p options 0) as H.
  destruct (Z.eq_dec (Str.indexWhere p options 0) (-1)) as [E|E];
    [now left|right].
  destruct H as [k [o [Hi [Hnth _]]]].
  assert (nth_error options k <> None) by congruence.
  apply nth_error_Some in H. lia.
Qed.

Lemma matchQualityOption_range (options : list string) (q : string) :
  matchQualityOption options q = -1
  \/ 0 <= matchQualityOption options q < Z.of_nat (List.length options).
Proof.
  unfold matchQualityOption.
  destruct (negb (_ =? -1)) eqn:Hexact.
  - apply negb_true_iff, Z.eqb_neq in Hexact.
    destruct (indexWhere_range (fun o => Str.equalsIgnoreCase o q) options);
      [contradiction|now right].
  - destruct (negb (Str.countDigits q =? 0)); apply indexWhere_range.
Qed.

Lemma isEmpty_iff (s : string) : Str.isEmpty s = true <-> s = EmptyString.
Proof. destruct s; cbn; split; congruence. Qed.

(** The index [determineQualityOptionIndex] returns is an index of the
    format's options, the last one when the specifier is blank; for a
    format without options it is 0, and only a blank specifier gets it.
    What it throws for a specifier that is not blank tells whether the
    format has options at all. *)
Theorem quality_index_is_valid :
  forall (format : AudioFormat) (inputString : string),
    let options := getQualityOptions format in
    let q := Str.trim inputString in
    match determineQualityOptionIndex format inputString with
    | Returns k =>
        (options = [] /\ q = EmptyString /\ k = 0)
        \/ (0 <= k < Z.of_nat (List.length options)
            /\ (q = EmptyString -> k = Z.of_nat (List.length options) - 1))
    | Throws e =>
        q <> EmptyString
        /\ e = domain_error (match options with
                             | [] => QualityNotAccepted q
                             | _ => UnableToParseQuality q
                             end)
    | Undefined => False
    end.
Proof.
  intros format inputString options q. unfold determineQualityOptionIndex.
  fold q. fold options.
  destruct (Str.isEmpty q) eqn:Hq; cbn [negb].
  - apply isEmpty_iff in Hq.
    destruct options as [|o rest]; [left; auto|right].
    cbn [List.length]. split; [lia|auto].
  - assert (Hsome : q <> EmptyString).
    { intros E. apply isEmpty_iff in E. congruence. }
    destruct options as [|o rest] eqn:Hopts; [auto|].
    destruct (matchQualityOption (o :: rest) q =? -1) eqn:Hfound; [auto|].
    apply Z.eqb_neq in Hfound. right.
    destruct (matchQualityOption_range (o :: rest) q); [contradiction|].
    split; [assumption|]. intros E. contradiction.
Qed.

Lemma equalsIgnoreCase_refl (s : string) : Str.equalsIgnoreCase s s = true.
Proof.
  induction s as [|c rest IH]; cbn; [reflexivity|].
  rewrite Ascii.eqb_refl, IH. reflexivity.
Qed.

(** A label selects its own option.  Given back as the specifier, a label
    of the format that is not empty and has no white space around it
    makes [determineQualityOptionIndex] return the index of the first
    option that equals it ignoring case: that option equals the label
    ignoring case, no option before it does, and its index is no later
    than the label's own. *)
Theorem label_selects_its_option :
  forall (format : AudioFormat) (k : nat) (label : string),
    nth_error (getQualityOptions format) k = Some label ->
    label <> EmptyString ->
    Str.trim label = label ->
    exists (j : nat) (found : string),
      determineQualityOptionIndex format label = Returns (Z.of_nat j)
      /\ (j <= k)%nat
      /\ nth_error (getQualityOptions format) j = Some found
      /\ Str.equalsIgnoreCase found label = true
      /\ forall (i : nat) (earlier : string),
          (i < j)%nat ->
          nth_error (getQualityOptions format) i = Some earlier ->
          Str.equalsIgnoreCase earlier label = false.
Proof.
  intros format k label Hnth Hsome Htrim.
  unfold determineQualityOptionIndex. rewrite Htrim.
  assert (Hq : Str.isEmpty label = false).
  { destruct (Str.isEmpty label) eqn:E; [|reflexivity].
    apply isEmpty_iff in E. contradiction. }
  rewrite Hq. cbn [negb].
  destruct (getQualityOptions format) as [|o rest] eqn:Hopts.
  { destruct k; discriminate Hnth. }
  unfold matchQualityOption.
  pose proof (indexWhere_first (fun o' => Str.equalsIgnoreCase o' label)
                (o :: rest) 0) as Hfirst.
  destruct (Z.eq_dec
              (Str.indexWhere (fun o' => Str.equalsIgnoreCase o' label)
                 (o :: rest) 0) (-1)) as [E|E].
  - exfalso. specialize (Hfirst ltac:(lia)).
    rewrite Forall_forall in Hfirst.
    specialize (Hfirst label (nth_error_In _ _ Hnth)). cbv beta in Hfirst.
    rewrite equalsIgnoreCase_refl in Hfirst. discriminate Hfirst.
  - destruct Hfirst as [j [found [Hi [Hj [Hp Hbefore]]]]].
    apply Z.eqb_neq in E. rewrite E. cbn [negb].
    rewrite Hi, Z.add_0_l.
    replace (Z.of_nat j =? -1) with false by (symmetry; apply Z.eqb_neq; lia).
    exists j, found. split; [reflexivity|].
    split; [|split; [exact Hj|split; [exact Hp|exact Hbefore]]].
    destruct (Nat.le_gt_cases j k) as [Hle|Hgt]; [exact Hle|].
    specialize (Hbefore k label Hgt Hnth). cbv beta in Hbefore.
    rewrite equalsIgnoreCase_refl in Hbefore. discriminate Hbefore.
Qed.

(** On the options "ABC", "abc", the label "abc" selects the first of the
    two, which equals it ignoring case. *)
Lemma label_selects_its_option_witness :
  (exists (j : nat) (found : string),
      determineQualityOptionIndex Examples.mp3_format "128 kbps"
      = Returns (Z.of_nat j)
      /\ (j <= 2)%nat
      /\ nth_error (getQualityOptions Examples.mp3_format) j = Some found
      /\ Str.equalsIgnoreCase found "128 kbps" = true)
  /\ determineQualityOptionIndex
       {| formatName := "Test file";
          getQualityOptions := ["ABC"%string; "abc"%string] |} "abc"
     = Returns 0.
Proof.
  split.
  - destruct (label_selects_its_option Examples.mp3_format 2 "128 kbps")
      as [j [found [Hj [Hle [Hnth [Heq _]]]]]];
      [reflexivity|discriminate|reflexivity|].
    exists j, found. auto.
  - destruct (label_selects_its_option
                {| formatName := "Test file";
                   getQualityOptions := ["ABC"%string; "abc"%string] |}
                1 "abc")
      as [j [found [Hj [_ [_ [_ Hbefore]]]]]];
      [reflexivity|discriminate|reflexivity|].
    destruct j as [|j]; [exact Hj|].
    specialize (Hbefore 0%nat "ABC"%string (Nat.lt_0_succ j) eq_refl).
    discriminate Hbefore.
Defined.

(* ===================================================================== *)
(** * Opening a file for writing *)
(* ===================================================================== *)

(** The output file is opened and truncated exactly when the arguments
    pass the checks on the sample rate and on the channel count and the
    stream opens: a sample rate that is not a whole number, a zero sample
    rate and a zero channel count are refused, in this order, before the
    file is touched; every later failure (an unknown extension, a
    quality that cannot be parsed, a sample rate or bit depth the format
    does not support) finds the file truncated already. *)
Theorem file_truncated_iff_arguments_pass :
  forall (env : OutputFiles) (filename : string)
         (writeSampleRate : Float64.t) (numChannels bitDepth : Z)
         (qualityInput : option (string + Float32.t)),
    let opened :=
      OpenForWriting.construct env filename writeSampleRate numChannels
                               bitDepth qualityInput in
    (snd opened = true
     <-> isInteger writeSampleRate = true
         /\ isZero writeSampleRate = false
         /\ numChannels <> 0
         /\ openedOk env filename = true)
    /\ (isInteger writeSampleRate = false ->
        opened
        = (Refused (opening_domain_error IntegerSampleRateRequired), false))
    /\ (isInteger writeSampleRate = true -> isZero writeSampleRate = true ->
        opened
        = (Refused (opening_domain_error NonZeroSampleRateRequired), false))
    /\ (isInteger writeSampleRate = true -> isZero writeSampleRate = false ->
        numChannels = 0 ->
        opened
        = (Refused (opening_type_error NonZeroNumChannelsRequired), false)).
Proof.
  intros env filename sr nc bd q. cbv zeta.
  unfold OpenForWriting.construct.
  destruct (isInteger sr), (isZero sr), (Z.eqb_spec nc 0),
    (openedOk env filename); cbn;
    repeat split; try congruence; try tauto;
    intros; intuition congruence.
Qed.




(* ===================================================================== *)
(** * The listing of the readable formats *)
(* ===================================================================== *)

Lemma equalsIgnoreCase_lowered (a b : string) :
  Str.equalsIgnoreCase a b = true <-> lowered a = lowered b.
Proof.
  revert b. induction a as [|x a IH]; intros [|y b]; cbn;
    try (split; [discriminate|discriminate]); [tauto|].
  rewrite andb_true_iff, Ascii.eqb_eq, IH. split.
  - intros [-> ->]. reflexivity.
  - intros H. injection H as -> ->. auto.
Qed.

Lemma kept_already (kept : list string) (s : string) :
  existsb (fun k => Str.equalsIgnoreCase k s) kept = true
  <-> In (lowered s) (map lowered kept).
Proof.
  rewrite existsb_exists, in_map_iff. split.
  - intros [k [Hk He]]. exists k. apply equalsIgnoreCase_lowered in He. auto.
  - intros [k [He Hk]]. exists k. split; [exact Hk|].
    apply equalsIgnoreCase_lowered. exact He.
Qed.

Lemma removeDuplicates_after_spec (strings : list string) :
  forall kept : list string,
    let result := StringArray.removeDuplicates_after kept strings in
    NoDup (map lowered result)
    /\ (forall x, In x result ->
                  In x strings /\ ~ In (lowered x) (map lowered kept))
    /\ (forall x, In x strings ->
                  In (lowered x) (map lowered kept)
                  \/ exists y, In y result /\ lowered y = lowered x).
Proof.
  induction strings as [|s rest IH]; intros kept; cbn zeta;
    cbn [StringArray.removeDuplicates_after].
  { split; [constructor|]. split; intros x []. }
  destruct (existsb (fun k => Str.equalsIgnoreCase k s) kept) eqn:Hseen.
  - apply kept_already in Hseen.
    destruct (IH kept) as [Hnodup [Hsound Hcomplete]].
    split; [exact Hnodup|]. split.
    + intros x Hx. destruct (Hsound x Hx). split; [now right|assumption].
    + intros x [<-|Hx]; [now left|apply Hcomplete, Hx].
  - assert (Hnew : ~ In (lowered s) (map lowered kept)).
    { intros Hin. apply kept_already in Hin. congruence. }
    destruct (IH (s :: kept)) as [Hnodup [Hsound Hcomplete]].
    split; [|split].
    + cbn [map]. constructor; [|exact Hnodup].
      rewrite in_map_iff. intros [y [Hy Hin]].
      destruct (Hsound y Hin) as [_ Hfresh]. apply Hfresh. left. auto.
    + intros x [<-|Hx]; [split; [now left|exact Hnew]|].
      destruct (Hsound x Hx) as [Hin Hfresh].
      split; [now right|]. intros Hk. apply Hfresh. now right.
    + intros x [<-|Hx].
      * right. exists s. split; [now left|reflexivity].
      * destruct (Hcomplete x Hx) as [[Hs|Hk]|[y [Hy He]]].
        -- right. exists s. split; [now left|exact Hs].
        -- now left.
        -- right. exists y. split; [now right|exact He].
Qed.

(** The listing of the readable formats is in ascending order, holds no
    two entries that are equal ignoring case and no blank entry; every
    entry is the trimmed extension of a known format, and every extension
    of a known format that is not blank has its entry, up to case. *)
Theorem supported_read_formats_listing :
  forall knownFormats : list (list string),
    let listing := get_supported_read_formats knownFormats in
    Sorted (fun a b => String.leb a b = true) listing
    /\ NoDup (map lowered listing)
    /\ (forall x,
           In x listing ->
           StringArray.containsNonWhitespaceChars x = true
           /\ exists extensions e,
               In extensions knownFormats /\ In e extensions
               /\ x = Str.trim e)
    /\ (forall extensions e,
           In extensions knownFormats -> In e extensions ->
           StringArray.containsNonWhitespaceChars (Str.trim e) = true ->
           exists x, In x listing /\ lowered x = lowered (Str.trim e)).
Proof.
  intros knownFormats. cbv zeta. unfold get_supported_read_formats.
  set (cleaned := StringArray.removeEmptyStrings
                    (StringArray.trim (List.concat knownFormats))).
  set (unique := StringArray.removeDuplicates cleaned).
  pose proof (StringSort.Permuted_sort unique) as Hperm.
  destruct (removeDuplicates_after_spec cleaned [])
    as [Hnodup [Hsound Hcomplete]].
  fold (StringArray.removeDuplicates cleaned) in Hnodup, Hsound, Hcomplete.
  fold unique in Hnodup, Hsound, Hcomplete.
  assert (Hcleaned : forall x,
             In x cleaned
             <-> StringArray.containsNonWhitespaceChars x = true
                 /\ exists extensions e,
                     In extensions knownFormats /\ In e extensions
                     /\ x = Str.trim e).
  { intros x. unfold cleaned, StringArray.removeEmptyStrings,
      StringArray.trim.
    rewrite filter_In, in_map_iff. split.
    - intros [[e [<- He]] Hx]. split; [exact Hx|].
      apply in_concat in He. destruct He as [extensions [Hl He]].
      exists extensions, e. auto.
    - intros [Hx [extensions [e [Hl [He ->]]]]]. split; [|exact Hx].
      exists e. split; [reflexivity|]. apply in_concat. eauto. }
  split; [apply StringSort.Sorted_sort|].
  split; [eapply Permutation_NoDup;
          [apply Permutation_map; exact Hperm|exact Hnodup]|].
  split.
  - intros x Hx. apply Hcleaned, Hsound.
    eapply Permutation_in; [symmetry; exact Hperm|exact Hx].
  - intros extensions e Hl He Hx.
    destruct (Hcomplete (Str.trim e)) as [[]|[y [Hy Hsame]]].
    { apply Hcleaned. split; [exact Hx|]. exists extensions, e. auto. }
    exists y. split; [|exact Hsame].
    eapply Permutation_in; [exact Hperm|exact Hy].
Qed.
